(** * Ad-break scheduling and timeline reconciliation

    A shallow embedding of the ad-demo player code:

    - the schedule builder ([parseTimeOffset], [extractVastUrl],
      [buildAdBreakList]) of [VMAPService];
    - the metadata resolver ([AdTracker.initialize]) and its client-swap
      predecessor inside [triggerAdBreak];
    - the stream-relative reconciler [AdBreakManager]
      ([getCumulativeAdDuration], [detectActiveBreak], [update],
      [startAdBreak], [endAdBreak], [skipCurrentAd], [reset]);
    - the content-relative client-swap reconciler
      ([handleContentTimeUpdate], [triggerAdBreak], [cleanupAdAndResume]);
    - the overlay's skip button ([updateSkipButton]) and the timeline
      markers ([initializeMarkers], [initMarkers]);
    - the function-style player of the stream-relative mode
      ([detectAdPlayback], [startAdBreak], [endAdBreak],
      [updateAdProgress], [skipAd]).

    Number model.  The reconcilers, the resolver and the schedule builder
    are embedded with exact rationals [Q] for JavaScript numbers: rounding
    and the infinities cannot be seen there.  The values the code tests
    with [||], [!= null] or [> 0] (missing fields, [NaN]) are kept
    explicit in the type [jsval], and equality of computed numbers is
    [Qeq].  Rounding decides which break is detected where two shifted
    windows meet, so the timeline arithmetic ([getCumulativeAdDuration],
    [detectActiveBreak], [initializeMarkers]) is embedded a second time
    over binary64 floats, in module [Double], and detection is
    characterised there window by window. *)

From Stdlib Require Import QArith Qabs Qminmax Lqa ZArith List Sorted String Ascii Bool Lia.
From Stdlib Require Import Decimal DecimalString DecimalNat Qround Floats.
From stdpp Require Import base list.

Open Scope Q_scope.
Open Scope string_scope.
Open Scope list_scope.

(** A decimal literal of type [float] denotes the nearest binary64 value,
    as a number literal does in JavaScript. *)
Set Warnings "-inexact-float".

(* ===================================================================== *)
(** * JavaScript values *)
(* ===================================================================== *)

(** A property that holds a number, or is missing. *)
Inductive jsval : Type :=
| JUndefined
| JNull
| JNaN
| JNum (q : Q).

(** [ToBoolean] on such a property: only a non-zero number is truthy. *)
Definition truthy (v : jsval) : bool :=
  match v with
  | JNum q => negb (Qeq_bool q 0)
  | _ => false
  end.

(** [v || d] where [d] is a number literal. *)
Definition or_default (v : jsval) (d : Q) : Q :=
  match v with
  | JNum q => if Qeq_bool q 0 then d else q
  | _ => d
  end.

(** [a >= b] and [a < b] on numbers. *)
Definition Qge_bool (a b : Q) : bool := Qle_bool b a.
Definition Qlt_bool (a b : Q) : bool := negb (Qle_bool b a).

(** [''] is the only falsy string. *)
Definition str_truthy (s : string) : bool := negb (String.eqb s "").

(* ===================================================================== *)
(** * Configuration constants *)
(* ===================================================================== *)

Module CONFIG.
Definition VMAP_INTERVAL : Q := 300.
Definition DEFAULT_AD_DURATION : Q := 30.
Definition DEFAULT_SKIP_OFFSET : Q := 5.
End CONFIG.

(** Tolerance of the client-swap reconciler. *)
Definition AD_TRIGGER_TOLERANCE : Q := 1 # 2.

(* ===================================================================== *)
(** * Break descriptors *)
(* ===================================================================== *)

(** [adSource.adTagURI]: a plain string, or an object that may expose
    [.uri]. *)
Inductive AdTagURI : Type :=
| UriString (s : string)
| UriObject (uri : option string).

(** [videoClickThroughURLTemplate]: a string, or an object with [.url]. *)
Inductive ClickTemplate : Type :=
| TplString (s : string)
| TplObject (url : option string).

(** The objects pushed by [buildAdBreakList]; [clickThrough] is added by
    the resolver and is absent ([None]) before. *)
Record AdBreak : Type := mkAdBreak {
  index : nat;
  timeOffset : string;
  timeInSeconds : Q;
  breakId : string;
  vastUrl : AdTagURI;
  duration : jsval;
  skipOffset : jsval;
  clickThrough : option ClickTemplate
}.

Definition set_duration (d : jsval) (b : AdBreak) : AdBreak :=
  mkAdBreak (index b) (timeOffset b) (timeInSeconds b) (breakId b)
            (vastUrl b) d (skipOffset b) (clickThrough b).

Definition set_skipOffset (k : jsval) (b : AdBreak) : AdBreak :=
  mkAdBreak (index b) (timeOffset b) (timeInSeconds b) (breakId b)
            (vastUrl b) (duration b) k (clickThrough b).

Definition set_clickThrough (c : option ClickTemplate) (b : AdBreak) : AdBreak :=
  mkAdBreak (index b) (timeOffset b) (timeInSeconds b) (breakId b)
            (vastUrl b) (duration b) (skipOffset b) c.

(** [br.duration || CONFIG.DEFAULT_AD_DURATION] *)
Definition adDuration (br : AdBreak) : Q :=
  or_default (duration br) CONFIG.DEFAULT_AD_DURATION.

(* ===================================================================== *)
(** * Timeline arithmetic over the break array *)
(* ===================================================================== *)

Module Timeline.

(** The [for] loop of [getCumulativeAdDuration]:
    [for (let i = 0; i < upToIndex && i < adBreaks.length; i++)
       total += adBreaks[i].duration || DEFAULT].
    [rest] is the part of the array from position [i] on. *)
Fixpoint cumulativeLoop (rest : list AdBreak) (i : nat) (upToIndex : Z)
         (total : Q) : Q :=
  match rest with
  | [] => total
  | br :: rest' =>
      if (Z.of_nat i <? upToIndex)%Z
      then cumulativeLoop rest' (S i) upToIndex (total + adDuration br)
      else total
  end.

Definition getCumulativeAdDuration (adBreaks : list AdBreak)
           (upToIndex : Z) : Q :=
  cumulativeLoop adBreaks 0 upToIndex 0.

(** The callback of [detectActiveBreak]'s [find]. *)
Definition inBreakWindow (adBreaks : list AdBreak) (hlsTime : Q)
           (br : AdBreak) (idx : nat) : bool :=
  let adDuration := adDuration br in
  let cumulativeAdDuration := getCumulativeAdDuration adBreaks (Z.of_nat idx) in
  let startTime := timeInSeconds br + cumulativeAdDuration in
  let endTime := startTime + adDuration in
  Qge_bool hlsTime startTime && Qlt_bool hlsTime endTime.

(** [Array.prototype.find] with an (element, index) callback: the first
    element, scanning from position [i], on which the callback holds. *)
Fixpoint findFrom {A} (p : A -> nat -> bool) (rest : list A) (i : nat)
  : option (nat * A) :=
  match rest with
  | [] => None
  | x :: rest' => if p x i then Some (i, x) else findFrom p rest' (S i)
  end.

(** [detectActiveBreak]: position and element found ([None] for
    [undefined]). *)
Definition detectActiveBreak (adBreaks : list AdBreak) (hlsTime : Q)
  : option (nat * AdBreak) :=
  findFrom (inBreakWindow adBreaks hlsTime) adBreaks 0.

(** [adBreaks.findIndex(b => b.breakId === id)], [-1] when absent. *)
Fixpoint findIndexFrom (id : string) (rest : list AdBreak) (i : nat) : Z :=
  match rest with
  | [] => (-1)%Z
  | b :: rest' =>
      if String.eqb (breakId b) id then Z.of_nat i
      else findIndexFrom id rest' (S i)
  end.

Definition findIndexById (adBreaks : list AdBreak) (id : string) : Z :=
  findIndexFrom id adBreaks 0.

(** Shifted window of the break at a position, as [detectActiveBreak]
    computes it. *)
Definition startTime (adBreaks : list AdBreak) (idx : nat) (br : AdBreak) : Q :=
  timeInSeconds br + getCumulativeAdDuration adBreaks (Z.of_nat idx).

Definition endTime (adBreaks : list AdBreak) (idx : nat) (br : AdBreak) : Q :=
  startTime adBreaks idx br + adDuration br.

End Timeline.

(* ===================================================================== *)
(** * Parsed VAST documents (as the VAST client returns them) *)
(* ===================================================================== *)

Module Vast.

Record MediaFile : Type := mkMediaFile { fileURL : option string }.

Record Creative : Type := mkCreative {
  type : string;
  mediaFiles : option (list MediaFile);
  duration : jsval;
  skipDelay : jsval;
  videoClickThroughURLTemplate : option ClickTemplate;
  videoClicks : option (option ClickTemplate)
}.

Record Ad : Type := mkAd {
  creatives : option (list Creative);
  adVideoClickThroughURLTemplate : option ClickTemplate
}.

(** Result of [vastClient.get(url)]: a rejected promise, or a response
    with its [ads]. *)
Inductive Outcome : Type :=
| Rejected
| Response (ads : list Ad).

(** [a.creatives && a.creatives.length] *)
Definition hasCreatives (a : Ad) : bool :=
  match creatives a with
  | Some (_ :: _) => true
  | _ => false
  end.

(** [c.type === 'linear' && c.mediaFiles && c.mediaFiles.length] *)
Definition isPlayableLinear (c : Creative) : bool :=
  String.eqb (type c) "linear" &&
  match mediaFiles c with
  | Some (_ :: _) => true
  | _ => false
  end.

(** [getLinearCreative(ad)] for a non-null [ad]. *)
Definition getLinearCreative (ad : Ad) : option Creative :=
  match creatives ad with
  | None => None
  | Some cs => List.find isPlayableLinear cs
  end.

(** [getMediaFileUrl(creative)] *)
Definition getMediaFileUrl (c : Creative) : option string :=
  match mediaFiles c with
  | None | Some [] => None
  | Some fs =>
      match List.find (fun f => match fileURL f with
                                | Some u => str_truthy u
                                | None => false
                                end) fs with
      | Some f => fileURL f
      | None => None
      end
  end.

(** [tpl?.url || tpl || null] *)
Definition clickThroughOf (tpl : option ClickTemplate) : option ClickTemplate :=
  match tpl with
  | None => None
  | Some (TplString s) => if str_truthy s then Some (TplString s) else None
  | Some (TplObject (Some u)) =>
      if str_truthy u then Some (TplString u) else Some (TplObject (Some u))
  | Some (TplObject None) => Some (TplObject None)
  end.

End Vast.

(* ===================================================================== *)
(** * Metadata resolver *)
(* ===================================================================== *)

Module Resolver.

(** The [metadata] object of [AdTracker.initialize]. *)
Record Metadata : Type := mkMetadata {
  clickThrough : option ClickTemplate;
  duration : Q;
  skipOffset : Q
}.

(** [AdTracker.initialize], the object literal:
    [duration: creative.duration || DEFAULT_AD_DURATION],
    [skipOffset: creative.skipDelay || DEFAULT_SKIP_OFFSET]. *)
Definition metadataOf (creative : Vast.Creative) : Metadata :=
  {| clickThrough := Vast.clickThroughOf (Vast.videoClickThroughURLTemplate creative);
     duration := or_default (Vast.duration creative) CONFIG.DEFAULT_AD_DURATION;
     skipOffset := or_default (Vast.skipDelay creative) CONFIG.DEFAULT_SKIP_OFFSET |}.

(** [triggerAdBreak] of the client-swap player:
    [creative.duration > 0 ? creative.duration : 15]. *)
Definition clientSwapDuration (creative : Vast.Creative) : Q :=
  match Vast.duration creative with
  | JNum q => if Qlt_bool 0 q then q else 15
  | _ => 15
  end.

(** [creative.skipDelay != null && creative.skipDelay >= 0
      ? creative.skipDelay : 5], on a numeric skip delay. *)
Definition clientSwapSkipOffset (creative : Vast.Creative) : Q :=
  match Vast.skipDelay creative with
  | JNum q => if Qge_bool q 0 then q else 5
  | _ => 5
  end.

(** What the specification asks of a resolver: the declared duration when it is a
    positive number, else 30; the declared skip delay when present and
    non-negative, else 5. *)
Definition specDuration (creative : Vast.Creative) : Q :=
  match Vast.duration creative with
  | JNum q => if Qlt_bool 0 q then q else 30
  | _ => 30
  end.

Definition specSkipOffset (creative : Vast.Creative) : Q :=
  match Vast.skipDelay creative with
  | JNum q => if Qge_bool q 0 then q else 5
  | _ => 5
  end.

(** The part of [AdTracker.initialize] after [await vastClient.get]:
    the selected ad and creative, or [None] for [return null]. *)
Definition selectCreative (o : Vast.Outcome) : option (Vast.Ad * Vast.Creative) :=
  match o with
  | Vast.Rejected => None
  | Vast.Response ads =>
      match List.find Vast.hasCreatives ads with
      | None => None
      | Some validAd =>
          match Vast.getLinearCreative validAd with
          | None => None
          | Some creative => Some (validAd, creative)
          end
      end
  end.

End Resolver.


(* ===================================================================== *)
(** * The stream-relative reconciler: [AdBreakManager] with its
      [AdTracker] and overlay *)
(* ===================================================================== *)

Module Manager.

(** Methods of [AdTracker] (the tracking emitter) the manager invokes. *)
Inductive EmitterMethod : Type :=
| MInitialize
| MSetProgress (elapsed : Q)
| MTrackSkip
| MTrackComplete
| MReset.

(** Events the underlying [VASTTracker] session sends out. *)
Inductive VastEvent : Type :=
| Impression
| Progress (elapsed : Q)
| Skip
| Complete.

(** Observable effects, in the order the code performs them. *)
Inductive Effect : Type :=
| OverlayShow
| OverlayHide
| UpdateSkipButton (elapsed duration skipOffset : Q)
| VastGet (breakInfo : nat)
| EmitterCall (m : EmitterMethod)
| Pixel (e : VastEvent)
| Seek (time : Q)
| ConsoleWarn (msg : string)
| ConsoleError (msg : string).

Inductive JsError : Type :=
| TypeError.

(** Break descriptors are shared objects: [heap] is the object store, a
    reference is an address in it.  [adBreaks] is the array of references
    held in [this.adBreaks]; [currentAdBreak] is a reference or [null];
    [vastTracker] is [this.tracker.vastTracker]. *)
Record State : Type := mkState {
  heap : nat -> AdBreak;
  adBreaks : list nat;
  currentAdBreak : option nat;
  isInAdBreak : bool;
  vastTracker : option (Vast.Ad * Vast.Creative)
}.

(** Final state, effects performed, and the exception that ended the
    call, if any. *)
Record Result : Type := mkResult {
  state : State;
  effects : list Effect;
  thrown : option JsError
}.

(** The array contents read through the store. *)
Definition breaks (s : State) : list AdBreak := heap s <$> adBreaks s.

(** [obj.field = v] on the object at address [r]. *)
Definition store (r : nat) (f : AdBreak -> AdBreak) (s : State) : State :=
  mkState (fun a => if Nat.eqb a r then f (heap s a) else heap s a)
          (adBreaks s) (currentAdBreak s) (isInAdBreak s) (vastTracker s).

Definition set_vastTracker (t : option (Vast.Ad * Vast.Creative)) (s : State) : State :=
  mkState (heap s) (adBreaks s) (currentAdBreak s) (isInAdBreak s) t.

(** [constructor]: an empty schedule, no active break. *)
Definition constructor (h : nat -> AdBreak) : State :=
  mkState h [] None false None.

(** [setAdBreaks(adBreaks)] stores the array it is given. *)
Definition setAdBreaks (refs : list nat) (s : State) : Result :=
  mkResult (mkState (heap s) refs (currentAdBreak s) (isInAdBreak s) (vastTracker s))
           [] None.

Definition getCumulativeAdDuration (s : State) (upToIndex : Z) : Q :=
  Timeline.getCumulativeAdDuration (breaks s) upToIndex.

(** [detectActiveBreak(hlsTime)]: position and reference of the element
    [find] returns. *)
Definition detectActiveBreak (s : State) (hlsTime : Q) : option (nat * nat) :=
  Timeline.findFrom
    (fun r idx => Timeline.inBreakWindow (breaks s) hlsTime (heap s r) idx)
    (adBreaks s) 0.

(** [AdTracker.setProgress], [trackSkip], [trackComplete]: forwarded to the
    session only when one exists. *)
Definition tracker_event (m : EmitterMethod) (e : VastEvent) (s : State) : list Effect :=
  EmitterCall m :: match vastTracker s with
                   | Some _ => [Pixel e]
                   | None => []
                   end.

(** [!vastUrl]: a locator is falsy only when it is the empty string. *)
Definition vastUrl_truthy (u : AdTagURI) : bool :=
  match u with
  | UriString s => str_truthy s
  | UriObject _ => true
  end.

(** [startAdBreak(breakInfo)] up to its [await]: the state is switched and
    the fetch is issued. *)
Definition startAdBreak (breakInfo : nat) (s : State) : Result :=
  let s1 := mkState (heap s) (adBreaks s) (Some breakInfo) true (vastTracker s) in
  mkResult s1
    ([OverlayShow; EmitterCall MInitialize] ++
     (if vastUrl_truthy (vastUrl (heap s breakInfo))
      then [VastGet breakInfo]
      else [ConsoleWarn "[TRACKER] No VAST URL available"]))
    None.

(** The three assignments [this.currentAdBreak.clickThrough = ...],
    [.duration = ...], [.skipOffset = ...]. *)
Definition applyMetadata (md : Resolver.Metadata) (b : AdBreak) : AdBreak :=
  set_skipOffset (JNum (Resolver.skipOffset md))
    (set_duration (JNum (Resolver.duration md))
       (set_clickThrough (Resolver.clickThrough md) b)).

(** [this.adBreaks[breakIndex].duration = ...; .skipOffset = ...] *)
Definition applyToMasterList (md : Resolver.Metadata) (breakIndex : Z) (s : State) : State :=
  if (breakIndex =? -1)%Z then s
  else match adBreaks s !! Z.to_nat breakIndex with
       | Some r =>
           store r (fun b => set_skipOffset (JNum (Resolver.skipOffset md))
                               (set_duration (JNum (Resolver.duration md)) b)) s
       | None => s
       end.

(** [startAdBreak(breakInfo)] from its [await] on, once the fetch of
    [tracker.initialize] has settled with outcome [o]: the rest of
    [initialize], then the [if (metadata)] block. *)
Definition startAdBreak_resume (breakInfo : nat) (o : Vast.Outcome) (s : State) : Result :=
  if negb (vastUrl_truthy (vastUrl (heap s breakInfo))) then mkResult s [] None
  else
    match Resolver.selectCreative o with
    | None =>
        mkResult s
          (match o with
           | Vast.Rejected => [ConsoleError "[TRACKER] Failed to initialize"]
           | _ => []
           end) None
    | Some (validAd, creative) =>
        let metadata := Resolver.metadataOf creative in
        let s1 := set_vastTracker (Some (validAd, creative)) s in
        match currentAdBreak s1 with
        | None => mkResult s1 [Pixel Impression] (Some TypeError)
        | Some cur =>
            let s2 := store cur (applyMetadata metadata) s1 in
            let breakIndex :=
              Timeline.findIndexById (breaks s2) (breakId (heap s2 breakInfo)) in
            mkResult (applyToMasterList metadata breakIndex s2) [Pixel Impression] None
        end
    end.

(** [initializeAdTracking(breakInfo)] of the function-style player, from
    its [await] on.  Everything runs inside [try]; an exception is logged
    by the [catch]. *)
Definition initializeAdTracking_resume (breakInfo : nat) (o : Vast.Outcome) (s : State) : Result :=
  if negb (vastUrl_truthy (vastUrl (heap s breakInfo))) then mkResult s [] None
  else
    match o with
    | Vast.Rejected =>
        mkResult s [ConsoleError "[TRACKING] Failed to initialize VAST tracker"] None
    | Vast.Response _ =>
        match Resolver.selectCreative o with
        | None => mkResult s [] None
        | Some (validAd, creative) =>
            match currentAdBreak s with
            | None =>
                mkResult s [ConsoleError "[TRACKING] Failed to initialize VAST tracker"] None
            | Some cur =>
                let s1 :=
                  match Vast.clickThroughOf (Vast.videoClickThroughURLTemplate creative) with
                  | Some c => store cur (set_clickThrough (Some c)) s
                  | None => s
                  end in
                let d := or_default (Vast.duration creative) 30 in
                let k := or_default (Vast.skipDelay creative) 5 in
                let s2 := store cur (fun b => set_skipOffset (JNum k) (set_duration (JNum d) b)) s1 in
                let breakIndex :=
                  Timeline.findIndexById (breaks s2) (breakId (heap s2 breakInfo)) in
                let s3 :=
                  if (breakIndex =? -1)%Z then s2
                  else match adBreaks s2 !! Z.to_nat breakIndex with
                       | Some r =>
                           store r (fun b => set_skipOffset (skipOffset (heap s2 cur))
                                               (set_duration (duration (heap s2 cur)) b)) s2
                       | None => s2
                       end in
                mkResult (set_vastTracker (Some (validAd, creative)) s3)
                         [Pixel Impression] None
            end
        end
    end.

(** [endAdBreak()] *)
Definition endAdBreak (s : State) : Result :=
  mkResult (mkState (heap s) (adBreaks s) None false None)
           (tracker_event MTrackComplete Complete s ++ [EmitterCall MReset; OverlayHide])
           None.

(** [updateProgress(elapsed)] *)
Definition updateProgress (elapsed : Q) (s : State) : Result :=
  match currentAdBreak s with
  | None => mkResult s [] None
  | Some cur =>
      let duration := adDuration (heap s cur) in
      let skipOffset := or_default (skipOffset (heap s cur)) CONFIG.DEFAULT_SKIP_OFFSET in
      mkResult s
        (UpdateSkipButton elapsed duration skipOffset
           :: tracker_event (MSetProgress elapsed) (Progress elapsed) s)
        None
  end.

(** [update(hlsTime)] *)
Definition update (hlsTime : Q) (s : State) : Result :=
  match adBreaks s with
  | [] => mkResult s [] None
  | _ :: _ =>
      match detectActiveBreak s hlsTime, isInAdBreak s with
      | Some (_, activeBreak), false => startAdBreak activeBreak s
      | None, true => endAdBreak s
      | Some _, true =>
          match currentAdBreak s with
          | Some cur =>
              let breakIndex := Timeline.findIndexById (breaks s) (breakId (heap s cur)) in
              let cumulativeAdDuration := getCumulativeAdDuration s breakIndex in
              let adjustedStartTime := timeInSeconds (heap s cur) + cumulativeAdDuration in
              let elapsed := hlsTime - adjustedStartTime in
              updateProgress elapsed s
          | None => mkResult s [] None
          end
      | None, false => mkResult s [] None
      end
  end.

(** [skipCurrentAd(player)]; [player] tells whether a player instance was
    passed. *)
Definition skipCurrentAd (player : bool) (s : State) : Result :=
  match currentAdBreak s, player with
  | Some cur, true =>
      let breakIndex := Timeline.findIndexById (breaks s) (breakId (heap s cur)) in
      let cumulativeAdDuration := getCumulativeAdDuration s breakIndex in
      let adDuration := adDuration (heap s cur) in
      let endTime := timeInSeconds (heap s cur) + cumulativeAdDuration + adDuration in
      mkResult s (tracker_event MTrackSkip Skip s ++ [Seek endTime]) None
  | _, _ =>
      mkResult s [ConsoleWarn "[AD BREAK] Cannot skip - no active ad break"] None
  end.

(** [reset()] *)
Definition reset (s : State) : Result :=
  mkResult (mkState (heap s) [] None false None) [EmitterCall MReset] None.

(** The operations of the reconciler, for statements about all of them. *)
Inductive Op : Type :=
| OSetAdBreaks (refs : list nat)
| OUpdate (hlsTime : Q)
| OStartAdBreak (breakInfo : nat)
| OStartAdBreakResume (breakInfo : nat) (o : Vast.Outcome)
| OEndAdBreak
| OUpdateProgress (elapsed : Q)
| OSkipCurrentAd (player : bool)
| OReset.

Definition exec (op : Op) (s : State) : Result :=
  match op with
  | OSetAdBreaks refs => setAdBreaks refs s
  | OUpdate t => update t s
  | OStartAdBreak b => startAdBreak b s
  | OStartAdBreakResume b o => startAdBreak_resume b o s
  | OEndAdBreak => endAdBreak s
  | OUpdateProgress e => updateProgress e s
  | OSkipCurrentAd p => skipCurrentAd p s
  | OReset => reset s
  end.

(** A sequence of operations, each applied to the state the previous one
    left (an exception ends one call, not the session). *)
Fixpoint run (ops : list Op) (s : State) : State :=
  match ops with
  | [] => s
  | op :: ops' => run ops' (state (exec op s))
  end.

(** Number of occurrences of effects satisfying [p]. *)
Definition countEffects (p : Effect -> bool) (l : list Effect) : nat :=
  length (List.filter p l).

Definition isSeek (e : Effect) : bool :=
  match e with Seek _ => true | _ => false end.

Definition isTrackSkipCall (e : Effect) : bool :=
  match e with EmitterCall MTrackSkip => true | _ => false end.

Definition isSkipPixel (e : Effect) : bool :=
  match e with Pixel Skip => true | _ => false end.

End Manager.


(* ===================================================================== *)
(** * String primitives of the host language *)
(* ===================================================================== *)

Module JsString.

(** White space and line terminators among the code units below 256. *)
Definition isWhiteSpace (c : ascii) : bool :=
  let n := nat_of_ascii c in
  ((9 <=? n) && (n <=? 13))%nat || (n =? 32)%nat || (n =? 160)%nat.

Definition isDigit (c : ascii) : bool :=
  let n := nat_of_ascii c in ((48 <=? n) && (n <=? 57))%nat.

Definition digitValue (c : ascii) : Z := Z.of_nat (nat_of_ascii c - 48).

Fixpoint trimStart (s : string) : string :=
  match s with
  | String c s' => if isWhiteSpace c then trimStart s' else s
  | EmptyString => EmptyString
  end.

(** Removes trailing white space: a character is kept when something
    non-blank follows it or it is itself non-blank. *)
Fixpoint trimEnd (s : string) : string :=
  match s with
  | EmptyString => EmptyString
  | String c s' =>
      match trimEnd s' with
      | EmptyString => if isWhiteSpace c then EmptyString else String c EmptyString
      | t => String c t
      end
  end.

(** [String.prototype.trim] *)
Definition trim (s : string) : string := trimEnd (trimStart s).

(** [s.split(sep)] for a one-character separator; never empty. *)
Fixpoint split (sep : ascii) (s : string) : list string :=
  match s with
  | EmptyString => [EmptyString]
  | String c s' =>
      if Ascii.eqb c sep then EmptyString :: split sep s'
      else match split sep s' with
           | h :: t => String c h :: t
           | [] => [String c EmptyString]
           end
  end.

(** Longest prefix of decimal digits, and what follows it. *)
Fixpoint spanDigits (s : string) : list ascii * string :=
  match s with
  | String c s' =>
      if isDigit c then let '(ds, r) := spanDigits s' in (c :: ds, r)
      else ([], s)
  | EmptyString => ([], EmptyString)
  end.

(** Value of a digit sequence read in base ten. *)
Definition decimalValue (ds : list ascii) : Z :=
  fold_left (fun acc c => (10 * acc + digitValue c)%Z) ds 0%Z.

(** An optional sign; [true] for a minus. *)
Definition readSign (s : string) : bool * string :=
  match s with
  | String "-" s' => (true, s')
  | String "+" s' => (false, s')
  | _ => (false, s)
  end.

(** [parseInt(s, 10)]; [None] is [NaN]. *)
Definition parseInt (s : string) : option Z :=
  let '(neg, body) := readSign (trimStart s) in
  match spanDigits body with
  | ([], _) => None
  | (ds, _) => Some (if neg then (- decimalValue ds)%Z else decimalValue ds)
  end.

(** The exponent part [e], [E] followed by a signed integer; it is read
    only when at least one digit follows. *)
Definition readExponent (s : string) : Z :=
  match s with
  | String c s' =>
      if Ascii.eqb c "e" || Ascii.eqb c "E" then
        let '(neg, body) := readSign s' in
        match spanDigits body with
        | ([], _) => 0%Z
        | (ds, _) => if neg then (- decimalValue ds)%Z else decimalValue ds
        end
      else 0%Z
  | EmptyString => 0%Z
  end.

(** [parseFloat(s)]; [None] is [NaN].  The longest prefix that is a
    decimal literal is read: digits, an optional fraction, an optional
    exponent.  The literal [Infinity] has no value in the number model
    and is read as not a number. *)
Definition parseFloat (s : string) : option Q :=
  let '(neg, body) := readSign (trimStart s) in
  let '(ip, r1) := spanDigits body in
  let '(fp, r2) :=
    match r1 with
    | String "." r => spanDigits r
    | _ => ([], r1)
    end in
  match ip, fp with
  | [], [] => None
  | _, _ =>
      let mantissa := inject_Z (decimalValue (ip ++ fp)) / inject_Z (10 ^ Z.of_nat (length fp)) in
      let v := mantissa * Qpower 10 (readExponent r2) in
      Some (if neg then - v else v)
  end.

(** Decimal rendering of an array index, as a template literal does it. *)
Definition ofNat (n : nat) : string := NilZero.string_of_uint (Nat.to_uint n).

End JsString.

(* ===================================================================== *)
(** * Schedule builder: [VMAPService] *)
(* ===================================================================== *)

Module VMAPService.

(** An entry of [vmap.adBreaks] as the VMAP parser delivers it. *)
Record AdSource : Type := mkAdSource { adTagURI : option AdTagURI }.

Record VmapAdBreak : Type := mkVmapAdBreak {
  timeOffset : option string;
  breakId : option string;
  adSource : option AdSource
}.

(** [parseInt(p, 10) || 0] and [parseFloat(p) || 0] *)
Definition intOrZero (p : string) : Q :=
  match JsString.parseInt p with
  | Some z => inject_Z z
  | None => 0
  end.

Definition floatOrZero (p : string) : Q :=
  match JsString.parseFloat p with
  | Some q => q
  | None => 0
  end.

(** [parseTimeOffset(timeOffset, totalDuration)] on a string offset. *)
Definition parseTimeOffset (timeOffset : string) (totalDuration : Q) : Q :=
  if String.eqb timeOffset "start" then 0
  else if String.eqb timeOffset "end" then totalDuration
  else
    match JsString.split ":" (JsString.trim timeOffset) with
    | [p0; p1; p2] =>
        let h := intOrZero p0 in
        let m := intOrZero p1 in
        let s := floatOrZero p2 in
        h * 3600 + m * 60 + s
    | _ => 0
    end.

(** [extractVastUrl(adBreak)]; [None] is [null]. *)
Definition extractVastUrl (adBreak : VmapAdBreak) : option AdTagURI :=
  match adSource adBreak with
  | None => None
  | Some src =>
      match adTagURI src with
      | None => None
      | Some (UriString s) => if str_truthy s then Some (UriString s) else None
      | Some (UriObject (Some u)) =>
          if str_truthy u then Some (UriString u) else Some (UriObject (Some u))
      | Some (UriObject None) => Some (UriObject None)
      end
  end.

(** [v || fallback] on an optional string. *)
Definition strOr (v : option string) (fallback : string) : string :=
  match v with
  | Some s => if str_truthy s then s else fallback
  | None => fallback
  end.

(** The [for] loop of [buildAdBreakList]; [d0] and [k0] are the initial
    [duration] and [skipOffset] of the pushed objects. *)
Fixpoint buildLoop (d0 k0 : jsval) (rest : list VmapAdBreak) (i : nat)
         (contentDuration : Q) : list AdBreak :=
  match rest with
  | [] => []
  | br :: rest' =>
      let timeOffset := strOr (timeOffset br) "start" in
      let seconds := parseTimeOffset timeOffset contentDuration in
      match extractVastUrl br with
      | Some vastUrl =>
          mkAdBreak i timeOffset seconds
                    (strOr (breakId br) ("break_" ++ JsString.ofNat i))
                    vastUrl d0 k0 None
            :: buildLoop d0 k0 rest' (S i) contentDuration
      | None => buildLoop d0 k0 rest' (S i) contentDuration
      end
  end.

(** [list.sort((a, b) => a.timeInSeconds - b.timeInSeconds)]: the sort is
    stable, so an element goes in front of the first one that is not
    smaller. *)
Fixpoint insertByTime (x : AdBreak) (l : list AdBreak) : list AdBreak :=
  match l with
  | [] => [x]
  | y :: l' =>
      if Qle_bool (timeInSeconds x) (timeInSeconds y) then x :: y :: l'
      else y :: insertByTime x l'
  end.

Definition sortByTime (l : list AdBreak) : list AdBreak :=
  fold_right insertByTime [] l.

(** [VMAPService.buildAdBreakList(vmap, contentDuration)] *)
Definition buildAdBreakList (adBreaks : list VmapAdBreak) (contentDuration : Q)
  : list AdBreak :=
  sortByTime (buildLoop (JNum CONFIG.DEFAULT_AD_DURATION)
                        (JNum CONFIG.DEFAULT_SKIP_OFFSET)
                        adBreaks 0 contentDuration).

(** [buildAdBreakList] of the client-swap player: the pushed objects have
    no [duration] and no [skipOffset]. *)
Definition buildAdBreakList_clientSwap (adBreaks : list VmapAdBreak)
           (contentDuration : Q) : list AdBreak :=
  sortByTime (buildLoop JUndefined JUndefined adBreaks 0 contentDuration).

(** The kept entries in document order, before sorting. *)
Definition keptInDocumentOrder (adBreaks : list VmapAdBreak) (contentDuration : Q)
  : list AdBreak :=
  buildLoop (JNum CONFIG.DEFAULT_AD_DURATION) (JNum CONFIG.DEFAULT_SKIP_OFFSET)
            adBreaks 0 contentDuration.

End VMAPService.


(* ===================================================================== *)
(** * The content-relative client-swap reconciler *)
(* ===================================================================== *)

Module ClientSwap.

(** [currentAd].  Break objects are never mutated here and the array is
    not replaced during a session, so a reference to a break is its
    position in [adBreaks]. *)
Record CurrentAd : Type := mkCurrentAd {
  breakInfo : nat;
  ad : Vast.Ad;
  creative : Vast.Creative;
  duration : Q;
  skipOffset : Q;
  clickThrough : option ClickTemplate;
  mediaUrl : string;
  startContentTime : Q
}.

(** The module-level variables, and of the player what the code reads:
    its current source and which callbacks are registered.
    [contentSource] and [playerSrc] hold the [src] of the saved content
    source and of [player.currentSource()], [None] when there is no such
    object; a callback is registered or not (registering it twice is not
    distinguished). *)
Record State : Type := mkState {
  adBreaks : list AdBreak;
  contentDuration : Q;
  contentSource : option string;
  currentAd : option CurrentAd;
  vastTracker : option (Vast.Ad * Vast.Creative);
  lastTriggeredBreakIndex : Z;
  adPlaybackStartTime : Q;
  playerSrc : option string;
  contentListener : bool;
  adTimeListener : bool;
  adEndedListener : bool;
  pendingCanPlay : bool;
  pendingLoadedMetadata : option Q;
  pendingPlay : bool;
  pendingError : bool
}.

Inductive Effect : Type :=
| Triggered (pos : nat)
| TriggerRefused
| GuardCleared
| AdEntered (pos : nat)
| AdExited (pos : nat)
| Pixel (e : Manager.VastEvent)
| OverlayShow
| OverlayHide
| UpdateAdUI (elapsed duration skipOffset : Q)
| Pause
| Play
| SetSource (src : string)
| Seek (time : Q)
| ConsoleWarn (msg : string).

(** What the player and the network deliver. *)
Inductive Event : Type :=
| TimeUpdate (t : Q)
| VastSettled (pos : nat) (o : Vast.Outcome)
| CanPlay
| Ended
| SkipClick
| LoadedMetadata
| PlaySettled
| PlayerError.

Definition set_last (z : Z) (s : State) : State :=
  mkState (adBreaks s) (contentDuration s) (contentSource s) (currentAd s)
          (vastTracker s) z (adPlaybackStartTime s) (playerSrc s)
          (contentListener s) (adTimeListener s) (adEndedListener s)
          (pendingCanPlay s) (pendingLoadedMetadata s) (pendingPlay s)
          (pendingError s).

Definition set_contentListener (b : bool) (s : State) : State :=
  mkState (adBreaks s) (contentDuration s) (contentSource s) (currentAd s)
          (vastTracker s) (lastTriggeredBreakIndex s) (adPlaybackStartTime s)
          (playerSrc s) b (adTimeListener s) (adEndedListener s)
          (pendingCanPlay s) (pendingLoadedMetadata s) (pendingPlay s)
          (pendingError s).

(** The body of the [for] loop of [handleContentTimeUpdate], from position
    [i] on: the position whose break is handed to [triggerAdBreak]. *)
Fixpoint scanBreaks (last : Z) (contentDuration t : Q) (rest : list AdBreak)
         (i : nat) : option nat :=
  match rest with
  | [] => None
  | br :: rest' =>
      if (last =? Z.of_nat i)%Z then scanBreaks last contentDuration t rest' (S i)
      else if Qle_bool (timeInSeconds br) 0 then
        if Qlt_bool t AD_TRIGGER_TOLERANCE then Some i
        else scanBreaks last contentDuration t rest' (S i)
      else if Qge_bool (timeInSeconds br) (contentDuration - AD_TRIGGER_TOLERANCE) then
        if Qge_bool t (contentDuration - AD_TRIGGER_TOLERANCE) then Some i
        else scanBreaks last contentDuration t rest' (S i)
      else if Qle_bool (Qabs (t - timeInSeconds br)) AD_TRIGGER_TOLERANCE then Some i
      else scanBreaks last contentDuration t rest' (S i)
  end.

(** [triggerAdBreak(breakInfo)] up to the fetch. *)
Definition triggerAdBreak (pos : nat) (s : State) : State * list Effect :=
  match currentAd s with
  | Some _ => (s, [TriggerRefused])
  | None =>
      match adBreaks s !! pos with
      | Some br => (set_last (Z.of_nat (index br)) s, [Triggered pos])
      | None => (s, [])
      end
  end.

(** [handleContentTimeUpdate()] with [player.currentTime()] equal to [t]. *)
Definition handleContentTimeUpdate (t : Q) (s : State) : State * list Effect :=
  match currentAd s with
  | Some _ => (s, [])
  | None =>
      match contentSource s, playerSrc s with
      | Some c, Some p =>
          if negb (String.eqb p c) then (s, [])
          else
            match scanBreaks (lastTriggeredBreakIndex s) (contentDuration s) t
                             (adBreaks s) 0 with
            | Some pos => triggerAdBreak pos s
            | None => (s, [])
            end
      | _, _ => (s, [])
      end
  end.

(** [seekContentPastAd(adStartTime, adDuration)] *)
Definition seekContentPastAd (adStartTime adDuration : Q) (s : State)
  : State * list Effect :=
  let seekTo := Qmin (adStartTime + adDuration + (1 # 2)) (contentDuration s) in
  match contentSource s with
  | Some c =>
      if str_truthy c then
        (mkState (adBreaks s) (contentDuration s) (contentSource s) (currentAd s)
                 (vastTracker s) (lastTriggeredBreakIndex s) (adPlaybackStartTime s)
                 (Some c) (contentListener s) (adTimeListener s) (adEndedListener s)
                 (pendingCanPlay s) (Some seekTo) (pendingPlay s) true,
         [Pause; SetSource c])
      else (s, [Pause])
  | None => (s, [Pause])
  end.

(** [cleanupAdAndResume(wasSkipped)] *)
Definition cleanupAdAndResume (wasSkipped : bool) (s : State) : State * list Effect :=
  match currentAd s with
  | None => (s, [ConsoleWarn "[AD CLEANUP] No current ad to cleanup"])
  | Some cur =>
      let fx1 := match wasSkipped, vastTracker s with
                 | true, Some _ => [Pixel Manager.Skip]
                 | _, _ => []
                 end in
      let s1 :=
        mkState (adBreaks s) (contentDuration s) (contentSource s) None
                None (lastTriggeredBreakIndex s) (adPlaybackStartTime s)
                (playerSrc s) (contentListener s) false false
                (pendingCanPlay s) (pendingLoadedMetadata s) (pendingPlay s)
                (pendingError s) in
      let '(s2, fx2) := seekContentPastAd (startContentTime cur) (duration cur) s1 in
      (s2, fx1 ++ [AdExited (breakInfo cur); OverlayHide] ++ fx2)
  end.

(** The [.then] and [.catch] callbacks of [triggerAdBreak], run when the
    fetch issued for the break at [pos] settles. *)
Definition triggerAdBreak_settled (pos : nat) (o : Vast.Outcome) (s : State)
  : State * list Effect :=
  match adBreaks s !! pos with
  | None => (s, [])
  | Some br =>
      match o with
      | Vast.Rejected => (set_last (-1)%Z s, [GuardCleared])
      | Vast.Response _ =>
          match Resolver.selectCreative o with
          | None => (s, [])
          | Some (validAd, creative) =>
              match Vast.getMediaFileUrl creative with
              | None => (s, [])
              | Some mediaUrl =>
                  let duration := Resolver.clientSwapDuration creative in
                  let skipOffset := Resolver.clientSwapSkipOffset creative in
                  let clickThrough :=
                    match Vast.videoClickThroughURLTemplate creative with
                    | Some (TplString "") | None =>
                        match Vast.adVideoClickThroughURLTemplate validAd with
                        | Some (TplString "") | None =>
                            match Vast.videoClicks creative with
                            | Some t => Vast.clickThroughOf t
                            | None => None
                            end
                        | t => Vast.clickThroughOf t
                        end
                    | t => Vast.clickThroughOf t
                    end in
                  (mkState (adBreaks s) (contentDuration s) (playerSrc s)
                           (Some (mkCurrentAd pos validAd creative duration skipOffset
                                              clickThrough mediaUrl (timeInSeconds br)))
                           (Some (validAd, creative)) (lastTriggeredBreakIndex s) 0
                           (Some mediaUrl) false (adTimeListener s) (adEndedListener s)
                           true (pendingLoadedMetadata s) (pendingPlay s) (pendingError s),
                   [Pixel Manager.Impression; AdEntered pos; OverlayShow; Pause;
                    SetSource mediaUrl])
              end
          end
      end
  end.

(** [onAdTimeUpdate()] with [player.currentTime()] equal to [elapsed]. *)
Definition onAdTimeUpdate (elapsed : Q) (s : State) : State * list Effect :=
  match currentAd s, vastTracker s with
  | Some cur, Some _ =>
      let s1 :=
        mkState (adBreaks s) (contentDuration s) (contentSource s) (currentAd s)
                (vastTracker s) (lastTriggeredBreakIndex s) elapsed (playerSrc s)
                (contentListener s) (adTimeListener s) (adEndedListener s)
                (pendingCanPlay s) (pendingLoadedMetadata s) (pendingPlay s)
                (pendingError s) in
      let fx := [Pixel (Manager.Progress elapsed);
                 UpdateAdUI elapsed (duration cur) (skipOffset cur)] in
      if Qge_bool elapsed (duration cur) then
        let '(s2, fx2) := cleanupAdAndResume false s1 in
        (s2, fx ++ [Pixel Manager.Complete] ++ fx2)
      else (s1, fx)
  | _, _ => (s, [])
  end.

(** [onAdEnded()] *)
Definition onAdEnded (s : State) : State * list Effect :=
  match currentAd s with
  | None => (s, [ConsoleWarn "[AD ENDED] No current ad"])
  | Some _ =>
      let fx := match vastTracker s with
                | Some _ => [Pixel Manager.Complete]
                | None => []
                end in
      let '(s1, fx1) := cleanupAdAndResume false s in
      (s1, fx ++ fx1)
  end.

(** [skipAd()], reached from the skip button. *)
Definition skipAd (s : State) : State * list Effect :=
  match currentAd s with
  | None => (s, [ConsoleWarn "[SKIP AD] Cannot skip - no current ad"])
  | Some _ =>
      let '(s1, fx1) := cleanupAdAndResume true s in
      (s1, Pause :: fx1)
  end.

(** One delivered event: the callbacks registered for it run. *)
Definition step (e : Event) (s : State) : State * list Effect :=
  match e with
  | TimeUpdate t =>
      let '(s1, fx1) :=
        if contentListener s then handleContentTimeUpdate t s else (s, []) in
      let '(s2, fx2) :=
        if adTimeListener s then onAdTimeUpdate t s1 else (s1, []) in
      (s2, fx1 ++ fx2)
  | VastSettled pos o => triggerAdBreak_settled pos o s
  | CanPlay =>
      if pendingCanPlay s then
        let s1 :=
          mkState (adBreaks s) (contentDuration s) (contentSource s) (currentAd s)
                  (vastTracker s) (lastTriggeredBreakIndex s) (adPlaybackStartTime s)
                  (playerSrc s) (contentListener s) (adTimeListener s)
                  (adEndedListener s) false (pendingLoadedMetadata s)
                  (pendingPlay s) (pendingError s) in
        match vastTracker s, currentAd s with
        | Some _, Some _ =>
            (mkState (adBreaks s) (contentDuration s) (contentSource s) (currentAd s)
                     (vastTracker s) (lastTriggeredBreakIndex s) (adPlaybackStartTime s)
                     (playerSrc s) (contentListener s) true true false
                     (pendingLoadedMetadata s) (pendingPlay s) (pendingError s),
             [Play])
        | _, _ =>
            (s1, [ConsoleWarn "[TRIGGER AD] Ad was cleaned up before canplay event"])
        end
      else (s, [])
  | Ended =>
      if adEndedListener s then
        onAdEnded
          (mkState (adBreaks s) (contentDuration s) (contentSource s) (currentAd s)
                   (vastTracker s) (lastTriggeredBreakIndex s) (adPlaybackStartTime s)
                   (playerSrc s) (contentListener s) (adTimeListener s) false
                   (pendingCanPlay s) (pendingLoadedMetadata s) (pendingPlay s)
                   (pendingError s))
      else (s, [])
  | SkipClick => skipAd s
  | LoadedMetadata =>
      match pendingLoadedMetadata s with
      | Some seekTo =>
          (mkState (adBreaks s) (contentDuration s) (contentSource s) (currentAd s)
                   (vastTracker s) (lastTriggeredBreakIndex s) (adPlaybackStartTime s)
                   (playerSrc s) (contentListener s) (adTimeListener s)
                   (adEndedListener s) (pendingCanPlay s) None true (pendingError s),
           [Seek seekTo; Play])
      | None => (s, [])
      end
  | PlaySettled =>
      if pendingPlay s then
        (mkState (adBreaks s) (contentDuration s) (contentSource s) (currentAd s)
                 (vastTracker s) (lastTriggeredBreakIndex s) (adPlaybackStartTime s)
                 (playerSrc s) true (adTimeListener s) (adEndedListener s)
                 (pendingCanPlay s) (pendingLoadedMetadata s) false (pendingError s),
         [])
      else (s, [])
  | PlayerError =>
      if pendingError s then
        (mkState (adBreaks s) (contentDuration s) (contentSource s) (currentAd s)
                 (vastTracker s) (lastTriggeredBreakIndex s) (adPlaybackStartTime s)
                 (playerSrc s) true (adTimeListener s) (adEndedListener s)
                 (pendingCanPlay s) (pendingLoadedMetadata s) (pendingPlay s) false,
         [])
      else (s, [])
  end.

(** The effects of a sequence of events, in order. *)
Fixpoint run (events : list Event) (s : State) : State * list Effect :=
  match events with
  | [] => (s, [])
  | e :: events' =>
      let '(s1, fx1) := step e s in
      let '(s2, fx2) := run events' s1 in
      (s2, fx1 ++ fx2)
  end.

(** The state [loadVideoAndVMAP] leaves once the schedule has arrived. *)
Definition loaded (adBreaks : list AdBreak) (contentDuration : Q) (contentUrl : string)
  : State :=
  mkState adBreaks contentDuration (Some contentUrl) None None (-1)%Z 0
          (Some contentUrl) true false false false None false false.

(** Every break's document index is its position in the sorted array. *)
Definition indexIsPosition (l : list AdBreak) : Prop :=
  forall i br, l !! i = Some br -> index br = i.

(** The replay guard as specified, on an effect log: once a break was
    triggered and its ad was left, it is not triggered again. *)
Definition neverRetriggered (log : list Effect) : Prop :=
  forall pos l1 l2 l3,
    log = l1 ++ Triggered pos :: l2 ++ AdExited pos :: l3 ->
    ~ In (Triggered pos) l3.

(** An effect that changes what the guard remembers about [pos]: another
    break is triggered, or a failed fetch clears the guard. *)
Definition releasesGuard (pos : nat) (e : Effect) : Prop :=
  e = GuardCleared \/ exists q, q <> pos /\ e = Triggered q.

End ClientSwap.


(* ===================================================================== *)
(** * Specification-side definitions *)
(* ===================================================================== *)

(** Sum of the durations of a list of breaks, each read as the timeline
    arithmetic reads it ([duration || 30]). *)
Definition sumDurations (l : list AdBreak) : Q :=
  fold_right (fun b acc => adDuration b + acc) 0 l.




(** The array is in non-decreasing order of [timeInSeconds]. *)
Definition sortedByTime (l : list AdBreak) : Prop :=
  forall i j bi bj, (i <= j)%nat -> l !! i = Some bi -> l !! j = Some bj ->
                    timeInSeconds bi <= timeInSeconds bj.

(** No break has a negative duration. *)
Definition nonNegativeDurations (l : list AdBreak) : Prop :=
  Forall (fun b => 0 <= adDuration b) l.

(** [t] lies in the shifted half-open window of the break at [idx]. *)
Definition inWindow (l : list AdBreak) (idx : nat) (br : AdBreak) (t : Q) : Prop :=
  Timeline.startTime l idx br <= t /\ t < Timeline.endTime l idx br.

(** The reconciler's invariant. *)
Definition stateInvariant (s : Manager.State) : Prop :=
  Manager.isInAdBreak s = true <-> Manager.currentAdBreak s <> None.

(** Two descriptors the timeline arithmetic cannot tell apart. *)
Definition sameTimeline (b b' : AdBreak) : Prop :=
  timeInSeconds b = timeInSeconds b' /\ breakId b = breakId b' /\
  adDuration b = adDuration b'.

(* ===================================================================== *)
(** * Example schedules and states *)
(* ===================================================================== *)

Definition exampleBreak (i : nat) (t : Q) (id : string) (d : jsval) : AdBreak :=
  mkAdBreak i "start" t id (UriString "https://ads.example/vast") d (JNum 5) None.


(** A pre-roll of duration 30 and a mid-roll declared at 300 seconds. *)
Definition prerollMidroll : list AdBreak :=
  [exampleBreak 0 0 "break_0" (JNum 30);
   exampleBreak 1 300 "break_1" (JNum 30)].

(** A sorted schedule in which the second break resolved to a negative
    duration. *)
Definition negativeDurationSchedule : list AdBreak :=
  [exampleBreak 0 0 "break_0" (JNum 30);
   exampleBreak 1 0 "break_1" (JNum (-1));
   exampleBreak 2 0 "break_2" (JNum 30)].

(** A reconciler holding the given breaks at addresses 0, 1, ... *)
Definition managerWith (l : list AdBreak) (cur : option nat)
           (tracker : option (Vast.Ad * Vast.Creative)) : Manager.State :=
  Manager.mkState (fun a => nth a l (exampleBreak 0 0 "" JUndefined))
                  (seq 0 (length l)) cur
                  (match cur with Some _ => true | None => false end) tracker.

(** Two breaks carrying the same [breakId]; the second one is active. *)
Definition duplicateIdSchedule : list AdBreak :=
  [exampleBreak 0 0 "ad" (JNum 30); exampleBreak 1 300 "ad" (JNum 30)].

Definition duplicateIdState : Manager.State :=
  managerWith duplicateIdSchedule (Some 1%nat) None.

(** A break whose duration field is 0. *)
Definition zeroDurationSchedule : list AdBreak :=
  [exampleBreak 0 0 "break_0" (JNum 0); exampleBreak 1 300 "break_1" (JNum 30)].

(** A VAST response with one playable linear creative of the given
    declared duration and skip delay. *)
Definition responseWith (d k : jsval) : Vast.Outcome :=
  Vast.Response
    [Vast.mkAd
       (Some [Vast.mkCreative "linear"
                (Some [Vast.mkMediaFile (Some "https://ads.example/ad.mp4")])
                d k None None])
       None].

(** A late resolution is dropped, as specified: the continuation of
    [startAdBreak] for [breakInfo], run in a state where that break is no
    longer the active one, raises nothing, writes no break field and
    leaves flag and pointer alone. *)
Definition lateResultDiscarded (breakInfo : nat) (o : Vast.Outcome) (s : Manager.State)
  : Prop :=
  let r := Manager.startAdBreak_resume breakInfo o s in
  Manager.thrown r = None /\
  (forall a, Manager.heap (Manager.state r) a = Manager.heap s a) /\
  Manager.currentAdBreak (Manager.state r) = Manager.currentAdBreak s /\
  Manager.isInAdBreak (Manager.state r) = Manager.isInAdBreak s.

(** The pre-roll is entered and left, then the mid-roll is entered. *)
Definition midrollActive : Manager.State :=
  Manager.run [Manager.OUpdate (1 # 10); Manager.OUpdate 31; Manager.OUpdate 331]
              (managerWith prerollMidroll None None).

(** The pre-roll is entered and left; no break is active. *)
Definition prerollLeft : Manager.State :=
  Manager.run [Manager.OUpdate (1 # 10); Manager.OUpdate 31]
              (managerWith prerollMidroll None None).

(** What the fields other than the resolved ones are. *)
Definition sameIdentity (b b' : AdBreak) : Prop :=
  index b = index b' /\ timeOffset b = timeOffset b' /\
  timeInSeconds b = timeInSeconds b' /\ breakId b = breakId b' /\
  vastUrl b = vastUrl b'.

(** ** Replay-guard bookkeeping on effect logs *)

(** The break the guard remembers after a log, starting from [m]:
    the last one triggered, unless a failed fetch cleared the guard. *)
Fixpoint markAfter (m : option nat) (log : list ClientSwap.Effect) : option nat :=
  match log with
  | [] => m
  | ClientSwap.Triggered p :: rest => markAfter (Some p) rest
  | ClientSwap.GuardCleared :: rest => markAfter None rest
  | _ :: rest => markAfter m rest
  end.

(** No break is triggered while the guard remembers it. *)
Fixpoint wellGuarded (m : option nat) (log : list ClientSwap.Effect) : Prop :=
  match log with
  | [] => True
  | ClientSwap.Triggered p :: rest => m <> Some p /\ wellGuarded (Some p) rest
  | ClientSwap.GuardCleared :: rest => wellGuarded None rest
  | _ :: rest => wellGuarded m rest
  end.

Definition isGuardEffect (e : ClientSwap.Effect) : bool :=
  match e with
  | ClientSwap.Triggered _ | ClientSwap.GuardCleared => true
  | _ => false
  end.

(** Effects that tell the life of a break: triggered, left, guard
    cleared. *)
Definition isLifecycleEffect (e : ClientSwap.Effect) : bool :=
  match e with
  | ClientSwap.Triggered _ | ClientSwap.GuardCleared | ClientSwap.AdExited _ => true
  | _ => false
  end.

(** The user watches the pre-roll, then the mid-roll at 300 seconds, then
    seeks back to the start. *)
Definition replayTrace : list ClientSwap.Event :=
  [ClientSwap.TimeUpdate (1 # 10);
   ClientSwap.VastSettled 0 (responseWith (JNum 15) (JNum 5));
   ClientSwap.CanPlay; ClientSwap.Ended;
   ClientSwap.LoadedMetadata; ClientSwap.PlaySettled;
   ClientSwap.TimeUpdate 300;
   ClientSwap.VastSettled 1 (responseWith (JNum 15) (JNum 5));
   ClientSwap.CanPlay; ClientSwap.Ended;
   ClientSwap.LoadedMetadata; ClientSwap.PlaySettled;
   ClientSwap.TimeUpdate (2 # 10)].

(** A schedule document with a pre-roll and a mid-roll at five minutes,
    both with a locator and without an identifier. *)
Definition twoBreakDocument : list VMAPService.VmapAdBreak :=
  [VMAPService.mkVmapAdBreak (Some "start") None
     (Some (VMAPService.mkAdSource (Some (UriString "https://ads.example/pre"))));
   VMAPService.mkVmapAdBreak (Some "00:05:00") None
     (Some (VMAPService.mkAdSource (Some (UriString "https://ads.example/mid"))))].

Definition clientSwapSchedule : list AdBreak :=
  VMAPService.buildAdBreakList_clientSwap twoBreakDocument 596.

Definition replayLog : list ClientSwap.Effect :=
  snd (ClientSwap.run replayTrace
         (ClientSwap.loaded clientSwapSchedule 596 "https://cdn.example/content.mp4")).

(** [s'] differs from [s] at most in resolved fields of break objects and
    in the tracker session. *)
Definition framedBy (s' s : Manager.State) : Prop :=
  Manager.isInAdBreak s' = Manager.isInAdBreak s /\
  Manager.currentAdBreak s' = Manager.currentAdBreak s /\
  Manager.adBreaks s' = Manager.adBreaks s /\
  forall a, sameIdentity (Manager.heap s' a) (Manager.heap s a).

(** A handler that neither triggers a break nor clears the guard. *)
Definition neutralStep (s : ClientSwap.State)
           (out : ClientSwap.State * list ClientSwap.Effect) : Prop :=
  Forall (fun e => isGuardEffect e = false) (snd out) /\
  ClientSwap.lastTriggeredBreakIndex (fst out) = ClientSwap.lastTriggeredBreakIndex s /\
  ClientSwap.adBreaks (fst out) = ClientSwap.adBreaks s.

(** The guard variable agrees with what the log says it remembers. *)
Definition guardAgrees (m : option nat) (s : ClientSwap.State) : Prop :=
  forall p, m = Some p -> ClientSwap.lastTriggeredBreakIndex s = Z.of_nat p.

(** A handler that respects the guard [m] and keeps it in step. *)
Definition guardedStep (m : option nat) (s : ClientSwap.State)
           (out : ClientSwap.State * list ClientSwap.Effect) : Prop :=
  wellGuarded m (snd out) /\
  guardAgrees (markAfter m (snd out)) (fst out) /\
  ClientSwap.adBreaks (fst out) = ClientSwap.adBreaks s.

(** ** Schedule documents and creatives used in examples *)

(** The first entry has no ad source and is discarded; the second has a
    locator and no identifier. *)
Definition skippedFirstDocument : list VMAPService.VmapAdBreak :=
  [VMAPService.mkVmapAdBreak (Some "start") None None;
   VMAPService.mkVmapAdBreak (Some "00:05:00") None
     (Some (VMAPService.mkAdSource (Some (UriString "https://ads.example/mid"))))].

(** Document positions of the entries [buildAdBreakList] keeps, from
    position [i] on. *)
Fixpoint keptPositions (rest : list VMAPService.VmapAdBreak) (i : nat) : list nat :=
  match rest with
  | [] => []
  | br :: rest' =>
      match VMAPService.extractVastUrl br with
      | Some _ => i :: keptPositions rest' (S i)
      | None => keptPositions rest' (S i)
      end
  end.

(** Ordinals as specified: the [k]-th kept entry, in document order,
    carries index [k], and the identifier generated for it is
    [break_k]. *)
Definition ordinalIsKeptPosition (doc : list VMAPService.VmapAdBreak) (cd : Q) : Prop :=
  forall k d,
    VMAPService.keptInDocumentOrder doc cd !! k = Some d ->
    In d (VMAPService.buildAdBreakList doc cd) /\
    index d = k /\
    (forall br, doc !! index d = Some br -> VMAPService.breakId br = None ->
                breakId d = ("break_" ++ JsString.ofNat k)%string).

(** A playable linear creative with the given declared duration and skip
    delay. *)
Definition creativeWith (d k : jsval) : Vast.Creative :=
  Vast.mkCreative "linear"
    (Some [Vast.mkMediaFile (Some "https://ads.example/ad.mp4")]) d k None None.

(** ** Decimal components of a time offset *)

(** A non-empty string of decimal digits, and the number it denotes. *)
Definition isDigitString (s : string) : Prop :=
  s <> EmptyString /\
  Forall (fun c => JsString.isDigit c = true) (list_ascii_of_string s).

Definition digitsValue (s : string) : Z :=
  JsString.decimalValue (list_ascii_of_string s).

(** A document whose first entry is discarded, loaded in the client-swap
    player: the mid-roll sits at position 0 and carries index 1. *)
Definition reindexedSchedule : list AdBreak :=
  VMAPService.buildAdBreakList_clientSwap skippedFirstDocument 596.

(* ===================================================================== *)
(** * The overlay: [AdOverlayController] *)
(* ===================================================================== *)

Module AdOverlayController.

(** What the skip button displays: the text [Skip Ad], or the countdown
    markup [Skip in <span id=skipCounter>n</span>s] for a number [n]. *)
Inductive Label : Type :=
| SkipAd
| SkipIn (countdown : Z).

Record SkipButton : Type := mkSkipButton {
  disabled : bool;
  innerHTML : Label
}.

(** The overlay element (its [active] class) and the skip button. *)
Record Overlay : Type := mkOverlay {
  active : bool;
  skipButton : SkipButton
}.

Definition show (o : Overlay) : Overlay := mkOverlay true (skipButton o).

Definition hide (o : Overlay) : Overlay := mkOverlay false (skipButton o).

(** [updateSkipButton(elapsed, duration, skipOffset)] on the button; the
    second component tells whether the line [Skip button enabled] was
    logged. *)
Definition updateSkipButton (elapsed duration skipOffset : Q) (skipButton : SkipButton)
  : SkipButton * bool :=
  let wasDisabled := disabled skipButton in
  if Qge_bool elapsed skipOffset then
    (mkSkipButton false SkipAd, wasDisabled)
  else
    let countdown := Qceiling (skipOffset - elapsed) in
    (mkSkipButton true (SkipIn countdown), false).

(** The overlay once the reconciler's calls on it have been carried out,
    in order. *)
Fixpoint perform (fx : list Manager.Effect) (o : Overlay) : Overlay :=
  match fx with
  | [] => o
  | Manager.OverlayShow :: fx' => perform fx' (show o)
  | Manager.OverlayHide :: fx' => perform fx' (hide o)
  | Manager.UpdateSkipButton elapsed duration skipOffset :: fx' =>
      perform fx'
        (mkOverlay (active o)
                   (fst (updateSkipButton elapsed duration skipOffset (skipButton o))))
  | _ :: fx' => perform fx' o
  end.

End AdOverlayController.

(* ===================================================================== *)
(** * Timeline markers: [VideoPlayerManager.initializeMarkers] *)
(* ===================================================================== *)

Module VideoPlayerManager.

Record Marker : Type := mkMarker {
  time : Q;
  text : string
}.

(** The [filter] callback:
    [br.timeInSeconds > 0 && br.timeInSeconds < this.contentDuration]. *)
Definition isMidroll (contentDuration : Q) (br : AdBreak) : bool :=
  Qlt_bool 0 (timeInSeconds br) && Qlt_bool (timeInSeconds br) contentDuration.

(** Decimal rendering of an integer in a template literal. *)
Definition ofZ (z : Z) : string :=
  match z with
  | Zneg p => "-" ++ JsString.ofNat (Pos.to_nat p)
  | _ => JsString.ofNat (Z.to_nat z)
  end.

(** [initializeMarkers(adBreaks, getCumulativeDuration)]: the markers
    handed to the plugin, [None] when the player has no markers plugin
    ([if (!this.player.markers) return]). *)
Definition initializeMarkers (markersPlugin : bool) (contentDuration : Q)
           (adBreaks : list AdBreak) (getCumulativeDuration : Z -> Q)
  : option (list Marker) :=
  if negb markersPlugin then None
  else
    Some (map (fun br =>
                 let originalIndex := Timeline.findIndexById adBreaks (breakId br) in
                 let cumulativeAdDuration := getCumulativeDuration originalIndex in
                 let hlsTime := timeInSeconds br + cumulativeAdDuration in
                 mkMarker hlsTime
                          (if str_truthy (breakId br) then breakId br
                           else "Ad " ++ ofZ (originalIndex + 1)))
              (List.filter (isMidroll contentDuration) adBreaks)).

(** [initMarkers()] of the client-swap player: markers sit at the content
    time of the break. *)
Definition initMarkers (markersPlugin : bool) (contentDuration : Q)
           (adBreaks : list AdBreak) : option (list Marker) :=
  if negb markersPlugin then None
  else
    Some (map (fun br =>
                 mkMarker (timeInSeconds br)
                          (if str_truthy (breakId br) then breakId br
                           else "Ad " ++ JsString.ofNat (index br + 1)))
              (List.filter (isMidroll contentDuration) adBreaks)).

End VideoPlayerManager.

(* ===================================================================== *)
(** * Sessions: sequences of reconciler operations and their effects *)
(* ===================================================================== *)

(** The effects of a sequence of operations, in the order performed. *)
Fixpoint trace (ops : list Manager.Op) (s : Manager.State) : list Manager.Effect :=
  match ops with
  | [] => []
  | op :: ops' =>
      Manager.effects (Manager.exec op s) ++ trace ops' (Manager.state (Manager.exec op s))
  end.

Definition isPixel (e : Manager.VastEvent) (x : Manager.Effect) : bool :=
  match x, e with
  | Manager.Pixel Manager.Impression, Manager.Impression => true
  | Manager.Pixel Manager.Complete, Manager.Complete => true
  | Manager.Pixel Manager.Skip, Manager.Skip => true
  | _, _ => false
  end.

Definition isAnyPixel (x : Manager.Effect) : bool :=
  match x with Manager.Pixel _ => true | _ => false end.

Definition isVastGet (x : Manager.Effect) : bool :=
  match x with Manager.VastGet _ => true | _ => false end.

Definition isOverlayShow (x : Manager.Effect) : bool :=
  match x with Manager.OverlayShow => true | _ => false end.

(** Operations driven by the clock and the skip button alone. *)
Definition isPlaybackOp (op : Manager.Op) : bool :=
  match op with
  | Manager.OUpdate _ | Manager.OUpdateProgress _ | Manager.OSkipCurrentAd _ => true
  | _ => false
  end.

Definition isReset (op : Manager.Op) : bool :=
  match op with Manager.OReset => true | _ => false end.

(** Lexicographic order on (time, document index): the order in which
    breaks are to play. *)
Definition playsBefore (a b : AdBreak) : Prop :=
  timeInSeconds a < timeInSeconds b \/
  (timeInSeconds a == timeInSeconds b /\ (index a < index b)%nat).

(** The entry provides no usable identifier ([br.breakId] is falsy). *)
Definition anonymous (br : VMAPService.VmapAdBreak) : Prop :=
  VMAPService.breakId br = None \/ VMAPService.breakId br = Some "".

(** [!!vastUrl] of an entry. *)
Definition hasLocator (br : VMAPService.VmapAdBreak) : bool :=
  match VMAPService.extractVastUrl br with
  | Some _ => true
  | None => false
  end.

(** ** Bookkeeping on client-swap effect logs *)

Definition countLog (p : ClientSwap.Effect -> bool) (log : list ClientSwap.Effect) : nat :=
  length (List.filter p log).

Definition isEntered (e : ClientSwap.Effect) : bool :=
  match e with ClientSwap.AdEntered _ => true | _ => false end.

Definition isExited (e : ClientSwap.Effect) : bool :=
  match e with ClientSwap.AdExited _ => true | _ => false end.

Definition isCompletePixel (e : ClientSwap.Effect) : bool :=
  match e with ClientSwap.Pixel Manager.Complete => true | _ => false end.

Definition isSkipPixelCS (e : ClientSwap.Effect) : bool :=
  match e with ClientSwap.Pixel Manager.Skip => true | _ => false end.

Definition isImpressionPixel (e : ClientSwap.Effect) : bool :=
  match e with ClientSwap.Pixel Manager.Impression => true | _ => false end.

(** No break is triggered while an ad is playing: [playing] tells whether
    one is, at the start of the log. *)
Fixpoint quietWhilePlaying (playing : bool) (log : list ClientSwap.Effect) : Prop :=
  match log with
  | [] => True
  | ClientSwap.AdEntered _ :: rest => quietWhilePlaying true rest
  | ClientSwap.AdExited _ :: rest => quietWhilePlaying false rest
  | ClientSwap.Triggered _ :: rest => playing = false /\ quietWhilePlaying playing rest
  | _ :: rest => quietWhilePlaying playing rest
  end.

(** Whether an ad is playing after a log. *)
Fixpoint playingAfter (playing : bool) (log : list ClientSwap.Effect) : bool :=
  match log with
  | [] => playing
  | ClientSwap.AdEntered _ :: rest => playingAfter true rest
  | ClientSwap.AdExited _ :: rest => playingAfter false rest
  | _ :: rest => playingAfter playing rest
  end.

Definition isPlaying (s : ClientSwap.State) : bool :=
  match ClientSwap.currentAd s with Some _ => true | None => false end.

Definition isInitializeCall (x : Manager.Effect) : bool :=
  match x with Manager.EmitterCall Manager.MInitialize => true | _ => false end.

(** 1 when a tracker session exists, 0 otherwise. *)
Definition sessionOpen (s : Manager.State) : nat :=
  match Manager.vastTracker s with Some _ => 1%nat | None => 0%nat end.

Definition bit (b : bool) : nat := if b then 1%nat else 0%nat.

(** What a handler of the client-swap player keeps in order: no trigger
    while an ad plays, the log tells whether one plays afterwards, a
    completion or skip pixel goes with an exit, an exit with an earlier
    entry, an impression with each entry. *)
Definition orderlyStep (s : ClientSwap.State)
           (out : ClientSwap.State * list ClientSwap.Effect) : Prop :=
  quietWhilePlaying (isPlaying s) (snd out) /\
  playingAfter (isPlaying s) (snd out) = isPlaying (fst out) /\
  (countLog isCompletePixel (snd out) + countLog isSkipPixelCS (snd out)
   <= countLog isExited (snd out))%nat /\
  (countLog isExited (snd out) + bit (isPlaying (fst out))
   <= countLog isEntered (snd out) + bit (isPlaying s))%nat /\
  countLog isImpressionPixel (snd out) = countLog isEntered (snd out).

(** The client-swap player while the pre-roll of [clientSwapSchedule]
    plays. *)
Definition prerollPlaying : ClientSwap.State :=
  fst (ClientSwap.run
         [ClientSwap.TimeUpdate (1 # 10);
          ClientSwap.VastSettled 0 (responseWith (JNum 15) (JNum 5));
          ClientSwap.CanPlay]
         (ClientSwap.loaded clientSwapSchedule 596 "https://cdn.example/content.mp4")).

(** The clock sample [t] is in the trigger range of a break, as the
    client-swap player classifies it: a pre-roll (declared at or before 0)
    while [t < 0.5]; a post-roll (declared within 0.5 of the content's
    end, or later) once [t >= contentDuration - 0.5]; any other break
    while [|t - timeInSeconds| <= 0.5]. *)
Definition inTriggerRange (contentDuration t : Q) (br : AdBreak) : Prop :=
  (timeInSeconds br <= 0 /\ t < AD_TRIGGER_TOLERANCE) \/
  (0 < timeInSeconds br /\
   contentDuration - AD_TRIGGER_TOLERANCE <= timeInSeconds br /\
   contentDuration - AD_TRIGGER_TOLERANCE <= t) \/
  (0 < timeInSeconds br /\
   timeInSeconds br < contentDuration - AD_TRIGGER_TOLERANCE /\
   Qabs (t - timeInSeconds br) <= AD_TRIGGER_TOLERANCE).

(* ===================================================================== *)
(** * The function-style player (stream-relative mode) *)
(* ===================================================================== *)

(** The function-style player keeps the reconciler's variables
    ([adBreaks], [isInAdBreak], [currentAdBreak], [vastTracker]) at module
    level and calls the overlay and the VAST tracker directly; there is no
    tracking emitter object.  Its variable [currentAd] is initialised to
    [null] and never assigned, so the branches guarded by it are not
    taken. *)
Module FunctionStyle.

(** [updateAdProgress(elapsed)] *)
Definition updateAdProgress (elapsed : Q) (s : Manager.State) : Manager.Result :=
  match Manager.currentAdBreak s with
  | None => Manager.mkResult s [] None
  | Some cur =>
      let duration := or_default (duration (Manager.heap s cur)) 30 in
      let skipOffset := or_default (skipOffset (Manager.heap s cur)) 5 in
      Manager.mkResult s
        (Manager.UpdateSkipButton elapsed duration skipOffset
           :: match Manager.vastTracker s with
              | Some _ => [Manager.Pixel (Manager.Progress elapsed)]
              | None => []
              end)
        None
  end.

(** [startAdBreak(breakInfo)], with [initializeAdTracking(breakInfo)] up
    to its [await]. *)
Definition startAdBreak (breakInfo : nat) (s : Manager.State) : Manager.Result :=
  Manager.mkResult
    (Manager.mkState (Manager.heap s) (Manager.adBreaks s) (Some breakInfo) true
                     (Manager.vastTracker s))
    (Manager.OverlayShow
       :: (if Manager.vastUrl_truthy (vastUrl (Manager.heap s breakInfo))
           then [Manager.VastGet breakInfo]
           else [Manager.ConsoleWarn "[TRACKING] No VAST URL available"]))
    None.

(** [endAdBreak()] *)
Definition endAdBreak (s : Manager.State) : Manager.Result :=
  Manager.mkResult
    (Manager.mkState (Manager.heap s) (Manager.adBreaks s) None false None)
    (match Manager.vastTracker s with
     | Some _ => [Manager.Pixel Manager.Complete]
     | None => []
     end ++ [Manager.OverlayHide])
    None.

(** [detectAdPlayback()] with [player.currentTime()] equal to [hlsTime];
    [player] tells whether the player exists. *)
Definition detectAdPlayback (player : bool) (hlsTime : Q) (s : Manager.State)
  : Manager.Result :=
  if negb player then Manager.mkResult s [] None
  else
    match Manager.adBreaks s with
    | [] => Manager.mkResult s [] None
    | _ :: _ =>
        let activeBreak :=
          Timeline.findFrom
            (fun r index =>
               let adDuration := or_default (duration (Manager.heap s r)) 30 in
               let cumulativeAdDuration :=
                 Manager.getCumulativeAdDuration s (Z.of_nat index) in
               let startTime := timeInSeconds (Manager.heap s r) + cumulativeAdDuration in
               let endTime := startTime + adDuration in
               Qge_bool hlsTime startTime && Qlt_bool hlsTime endTime)
            (Manager.adBreaks s) 0 in
        match activeBreak, Manager.isInAdBreak s with
        | Some (_, activeBreak), false => startAdBreak activeBreak s
        | None, true => endAdBreak s
        | Some _, true =>
            match Manager.currentAdBreak s with
            | Some cur =>
                let breakIndex :=
                  Timeline.findIndexById (Manager.breaks s) (breakId (Manager.heap s cur)) in
                let cumulativeAdDuration := Manager.getCumulativeAdDuration s breakIndex in
                let adjustedStartTime :=
                  timeInSeconds (Manager.heap s cur) + cumulativeAdDuration in
                let elapsed := hlsTime - adjustedStartTime in
                updateAdProgress elapsed s
            | None => Manager.mkResult s [] None
            end
        | None, false => Manager.mkResult s [] None
        end
    end.

(** [skipAd()] *)
Definition skipAd (player : bool) (s : Manager.State) : Manager.Result :=
  match Manager.currentAdBreak s, player with
  | Some cur, true =>
      let breakIndex :=
        Timeline.findIndexById (Manager.breaks s) (breakId (Manager.heap s cur)) in
      let cumulativeAdDuration := Manager.getCumulativeAdDuration s breakIndex in
      let adDuration := or_default (duration (Manager.heap s cur)) 30 in
      let endTime := timeInSeconds (Manager.heap s cur) + cumulativeAdDuration + adDuration in
      Manager.mkResult s
        (match Manager.vastTracker s with
         | Some _ => [Manager.Pixel Manager.Skip]
         | None => []
         end ++ [Manager.Seek endTime])
        None
  | _, _ =>
      Manager.mkResult s [Manager.ConsoleWarn "[SKIP AD] Cannot skip - no active ad break"] None
  end.

(** The operations of the function-style player that have a counterpart
    in the class-based reconciler ([None] for [reset], which it does not
    have: its loader clears the three schedule variables only). *)
Definition exec (op : Manager.Op) (s : Manager.State) : option Manager.Result :=
  match op with
  | Manager.OSetAdBreaks refs =>
      Some (Manager.mkResult
              (Manager.mkState (Manager.heap s) refs (Manager.currentAdBreak s)
                               (Manager.isInAdBreak s) (Manager.vastTracker s)) [] None)
  | Manager.OUpdate t => Some (detectAdPlayback true t s)
  | Manager.OStartAdBreak b => Some (startAdBreak b s)
  | Manager.OStartAdBreakResume b o => Some (Manager.initializeAdTracking_resume b o s)
  | Manager.OEndAdBreak => Some (endAdBreak s)
  | Manager.OUpdateProgress e => Some (updateAdProgress e s)
  | Manager.OSkipCurrentAd p => Some (skipAd p s)
  | Manager.OReset => None
  end.

(** A sequence of operations: final state and effects, [None] when an
    operation has no counterpart. *)
Fixpoint run (ops : list Manager.Op) (s : Manager.State)
  : option (Manager.State * list Manager.Effect) :=
  match ops with
  | [] => Some (s, [])
  | op :: ops' =>
      match exec op s with
      | None => None
      | Some r =>
          match run ops' (Manager.state r) with
          | None => None
          | Some (s', fx) => Some (s', Manager.effects r ++ fx)
          end
      end
  end.

End FunctionStyle.

(** What both players do to overlay, network, tracker and player: the
    effects other than calls on the emitter object and console output. *)
Definition observable (fx : list Manager.Effect) : list Manager.Effect :=
  List.filter (fun e => match e with
                        | Manager.EmitterCall _ | Manager.ConsoleWarn _
                        | Manager.ConsoleError _ => false
                        | _ => true
                        end) fx.

(** Operations on which the two players are to agree step by step: all
    but [reset] and the metadata resolution. *)
Definition isSynchronousOp (op : Manager.Op) : bool :=
  match op with
  | Manager.OReset | Manager.OStartAdBreakResume _ _ => false
  | _ => true
  end.

(* ===================================================================== *)
(** * The timeline arithmetic in double precision *)
(* ===================================================================== *)

(** JavaScript numbers are IEEE 754 binary64 values.  [Double] embeds
    [getCumulativeAdDuration], [detectActiveBreak] and
    [initializeMarkers] once more, with [PrimFloat.float] for the numbers:
    sums are rounded as the player rounds them, and [NaN], the signed
    zeros and the infinities are values. *)
Module Double.

(** A property that holds a number, or is missing. *)
Inductive jsval : Type :=
| JUndefined
| JNull
| JNum (x : float).

(** [ToBoolean]: [+0], [-0] and [NaN] are the falsy numbers. *)
Definition truthy (v : jsval) : bool :=
  match v with
  | JNum x => negb (PrimFloat.eqb x 0 || PrimFloat.is_nan x)
  | _ => false
  end.

(** [v || d] where [d] is a number literal. *)
Definition or_default (v : jsval) (d : float) : float :=
  match v with
  | JNum x => if truthy (JNum x) then x else d
  | _ => d
  end.

(** [a >= b] and [a < b]; both are false when an operand is [NaN]. *)
Definition ge_bool (a b : float) : bool := PrimFloat.leb b a.
Definition lt_bool (a b : float) : bool := PrimFloat.ltb a b.

Definition DEFAULT_AD_DURATION : float := 30.

Record AdBreak : Type := mkAdBreak {
  index : nat;
  timeOffset : string;
  timeInSeconds : float;
  breakId : string;
  vastUrl : AdTagURI;
  duration : jsval;
  skipOffset : jsval;
  clickThrough : option ClickTemplate
}.

(** [br.duration || CONFIG.DEFAULT_AD_DURATION] *)
Definition adDuration (br : AdBreak) : float :=
  or_default (duration br) DEFAULT_AD_DURATION.

(** The [for] loop of [getCumulativeAdDuration]; [total += x] rounds. *)
Fixpoint cumulativeLoop (rest : list AdBreak) (i : nat) (upToIndex : Z)
         (total : float) : float :=
  match rest with
  | [] => total
  | br :: rest' =>
      if (Z.of_nat i <? upToIndex)%Z
      then cumulativeLoop rest' (S i) upToIndex (PrimFloat.add total (adDuration br))
      else total
  end.

Definition getCumulativeAdDuration (adBreaks : list AdBreak)
           (upToIndex : Z) : float :=
  cumulativeLoop adBreaks 0 upToIndex 0%float.

(** The callback of [detectActiveBreak]'s [find]. *)
Definition inBreakWindow (adBreaks : list AdBreak) (hlsTime : float)
           (br : AdBreak) (idx : nat) : bool :=
  let adDuration := adDuration br in
  let cumulativeAdDuration := getCumulativeAdDuration adBreaks (Z.of_nat idx) in
  let startTime := PrimFloat.add (timeInSeconds br) cumulativeAdDuration in
  let endTime := PrimFloat.add startTime adDuration in
  ge_bool hlsTime startTime && lt_bool hlsTime endTime.

Definition detectActiveBreak (adBreaks : list AdBreak) (hlsTime : float)
  : option (nat * AdBreak) :=
  Timeline.findFrom (inBreakWindow adBreaks hlsTime) adBreaks 0.

(** [adBreaks.findIndex(b => b.breakId === id)], [-1] when absent. *)
Fixpoint findIndexFrom (id : string) (rest : list AdBreak) (i : nat) : Z :=
  match rest with
  | [] => (-1)%Z
  | b :: rest' =>
      if String.eqb (breakId b) id then Z.of_nat i
      else findIndexFrom id rest' (S i)
  end.

Definition findIndexById (adBreaks : list AdBreak) (id : string) : Z :=
  findIndexFrom id adBreaks 0.

(** Shifted window of the break at a position, as [detectActiveBreak]
    computes it. *)
Definition startTime (adBreaks : list AdBreak) (idx : nat) (br : AdBreak) : float :=
  PrimFloat.add (timeInSeconds br) (getCumulativeAdDuration adBreaks (Z.of_nat idx)).

Definition endTime (adBreaks : list AdBreak) (idx : nat) (br : AdBreak) : float :=
  PrimFloat.add (startTime adBreaks idx br) (adDuration br).

Record Marker : Type := mkMarker {
  time : float;
  text : string
}.

(** The [filter] callback of [initializeMarkers]. *)
Definition isMidroll (contentDuration : float) (br : AdBreak) : bool :=
  lt_bool 0 (timeInSeconds br) && lt_bool (timeInSeconds br) contentDuration.

(** [initializeMarkers(adBreaks, getCumulativeDuration)] *)
Definition initializeMarkers (markersPlugin : bool) (contentDuration : float)
           (adBreaks : list AdBreak) (getCumulativeDuration : Z -> float)
  : option (list Marker) :=
  if negb markersPlugin then None
  else
    Some (map (fun br =>
                 let originalIndex := findIndexById adBreaks (breakId br) in
                 let cumulativeAdDuration := getCumulativeDuration originalIndex in
                 let hlsTime := PrimFloat.add (timeInSeconds br) cumulativeAdDuration in
                 mkMarker hlsTime
                          (if str_truthy (breakId br) then breakId br
                           else "Ad " ++ VideoPlayerManager.ofZ (originalIndex + 1)))
              (List.filter (isMidroll contentDuration) adBreaks)).

(** [t] lies in the shifted half-open window of the break at [idx]. *)
Definition inWindow (l : list AdBreak) (idx : nat) (br : AdBreak) (t : float) : Prop :=
  PrimFloat.leb (startTime l idx br) t = true /\
  PrimFloat.ltb t (endTime l idx br) = true.

(** The array is in non-decreasing order of [timeInSeconds]. *)
Definition sortedByTime (l : list AdBreak) : Prop :=
  forall i j bi bj, (i <= j)%nat -> l !! i = Some bi -> l !! j = Some bj ->
                    PrimFloat.leb (timeInSeconds bi) (timeInSeconds bj) = true.

(** No break has a negative duration. *)
Definition nonNegativeDurations (l : list AdBreak) : Prop :=
  Forall (fun b => PrimFloat.leb 0 (adDuration b) = true) l.

Definition exampleBreak (i : nat) (t : float) (id : string) (d : jsval) : AdBreak :=
  mkAdBreak i "start" t id (UriString "https://ads.example/vast") d (JNum 5) None.

(** A pre-roll of duration 30 and a mid-roll declared at 300 seconds. *)
Definition prerollMidroll : list AdBreak :=
  [exampleBreak 0 0 "break_0" (JNum 30);
   exampleBreak 1 300 "break_1" (JNum 30)].

(** A pre-roll and two mid-rolls declared at the same second; the first
    two resolved to 10.1 seconds.  The second window ends at
    [(300 + 10.1) + 10.1] and the third starts at [300 + (10.1 + 10.1)]. *)
Definition roundedSchedule : list AdBreak :=
  [exampleBreak 0 0 "break_0" (JNum 10.1);
   exampleBreak 1 300 "break_1" (JNum 10.1);
   exampleBreak 2 300 "break_2" (JNum 30)].

End Double.

(* ===================================================================== *)
(** * Facts about numbers and lists *)
(* ===================================================================== *)

Lemma Qge_bool_iff a b : Qge_bool a b = true <-> b <= a.
Proof. unfold Qge_bool. apply Qle_bool_iff. Qed.

Lemma Qlt_bool_iff a b : Qlt_bool a b = true <-> a < b.
Proof.
  unfold Qlt_bool. rewrite negb_true_iff.
  split; intros H.
  - apply Qnot_le_lt. intros Hle. apply Qle_bool_iff in Hle. congruence.
  - destruct (Qle_bool b a) eqn:E; [|reflexivity].
    apply Qle_bool_iff in E. exfalso. apply (Qlt_not_le _ _ H E).
Qed.


Lemma or_default_falsy v d : truthy v = false -> or_default v d = d.
Proof.
  destruct v as [| | |q]; simpl; auto.
  intros H. apply negb_false_iff in H. now rewrite H.
Qed.


(** ** The cumulative loop *)

Lemma cumulativeLoop_sum rest : forall i n total,
  Timeline.cumulativeLoop rest i n total
  == total + sumDurations (firstn (Z.to_nat n - i) rest).
Proof.
  induction rest as [|br rest IH]; intros i n total; simpl.
  - rewrite firstn_nil. simpl. lra.
  - destruct (Z.of_nat i <? n)%Z eqn:E.
    + apply Z.ltb_lt in E.
      replace (Z.to_nat n - i)%nat with (S (Z.to_nat n - S i)) by lia.
      simpl. rewrite IH. lra.
    + apply Z.ltb_ge in E.
      replace (Z.to_nat n - i)%nat with 0%nat by lia.
      simpl. lra.
Qed.

Lemma getCumulative_sum l n :
  Timeline.getCumulativeAdDuration l n == sumDurations (firstn (Z.to_nat n) l).
Proof.
  unfold Timeline.getCumulativeAdDuration. rewrite cumulativeLoop_sum.
  rewrite Nat.sub_0_r. lra.
Qed.



Lemma sum_firstn_S l : forall i b,
  l !! i = Some b ->
  sumDurations (firstn (S i) l) == sumDurations (firstn i l) + adDuration b.
Proof.
  induction l as [|x l IH]; intros [|i] b H; try discriminate.
  - injection H as ->. simpl. lra.
  - simpl in H. change (firstn (S (S i)) (x :: l)) with (x :: firstn (S i) l).
    change (firstn (S i) (x :: l)) with (x :: firstn i l).
    simpl. rewrite (IH i b H). lra.
Qed.

Lemma sumDurations_nonneg l : nonNegativeDurations l -> 0 <= sumDurations l.
Proof. induction 1; simpl; lra. Qed.

Lemma sum_firstn_mono l : nonNegativeDurations l ->
  forall n m, (n <= m)%nat -> sumDurations (firstn n l) <= sumDurations (firstn m l).
Proof.
  induction 1 as [|x l Hx Hl IH]; intros n m Hnm.
  - rewrite !firstn_nil. lra.
  - destruct n as [|n]; destruct m as [|m]; try lia; simpl.
    + lra.
    + assert (Hs : 0 <= sumDurations (firstn m l)).
      { apply sumDurations_nonneg.
        unfold nonNegativeDurations in *. clear -Hl. revert m.
        induction Hl; intros [|m]; simpl; constructor; auto. }
      lra.
    + specialize (IH n m ltac:(lia)). lra.
Qed.

(** ** First match of [find] *)

Lemma findFrom_Some {A} (p : A -> nat -> bool) rest : forall i j x,
  Timeline.findFrom p rest i = Some (j, x) <->
  exists k, j = (i + k)%nat /\ rest !! k = Some x /\ p x j = true /\
            forall k' y, (k' < k)%nat -> rest !! k' = Some y -> p y (i + k')%nat = false.
Proof.
  induction rest as [|a rest IH]; intros i j x; simpl.
  - split; [discriminate|]. intros (k & _ & H & _). discriminate.
  - destruct (p a i) eqn:E.
    + split.
      * intros [= <- <-]. exists 0%nat. rewrite Nat.add_0_r.
        repeat split; auto. intros k' y Hk. lia.
      * intros (k & -> & Hk & Hp & Hfirst). destruct k as [|k].
        -- rewrite Nat.add_0_r. simpl in Hk. congruence.
        -- specialize (Hfirst 0%nat a ltac:(lia) eq_refl).
           rewrite Nat.add_0_r in Hfirst. congruence.
    + rewrite IH. split.
      * intros (k & -> & Hk & Hp & Hfirst). exists (S k).
        replace (i + S k)%nat with (S i + k)%nat by lia.
        repeat split; auto. intros [|k'] y Hlt Hy.
        -- rewrite Nat.add_0_r. simpl in Hy. congruence.
        -- replace (i + S k')%nat with (S i + k')%nat by lia.
           apply (Hfirst k' y); [lia|exact Hy].
      * intros (k & -> & Hk & Hp & Hfirst). destruct k as [|k].
        -- rewrite Nat.add_0_r in Hp. simpl in Hk. congruence.
        -- exists k. replace (S i + k)%nat with (i + S k)%nat by lia.
           repeat split; auto. intros k' y Hlt Hy.
           replace (S i + k')%nat with (i + S k')%nat by lia.
           apply (Hfirst (S k') y); [lia|exact Hy].
Qed.

Lemma findFrom_None {A} (p : A -> nat -> bool) rest : forall i,
  Timeline.findFrom p rest i = None <->
  forall k y, rest !! k = Some y -> p y (i + k)%nat = false.
Proof.
  induction rest as [|a rest IH]; intros i; simpl.
  - split; auto. intros _ k y H. discriminate.
  - destruct (p a i) eqn:E.
    + split; [discriminate|]. intros H.
      specialize (H 0%nat a eq_refl). rewrite Nat.add_0_r in H. congruence.
    + rewrite IH. split.
      * intros H [|k] y Hy.
        -- rewrite Nat.add_0_r. simpl in Hy. congruence.
        -- replace (i + S k)%nat with (S i + k)%nat by lia. apply H. exact Hy.
      * intros H k y Hy.
        replace (S i + k)%nat with (i + S k)%nat by lia. apply (H (S k)). exact Hy.
Qed.

Lemma findFrom_fmap {A B} (f : A -> B) (p : B -> nat -> bool) rest : forall i,
  Timeline.findFrom p (f <$> rest) i =
  match Timeline.findFrom (fun a idx => p (f a) idx) rest i with
  | Some (j, a) => Some (j, f a)
  | None => None
  end.
Proof.
  induction rest as [|a rest IH]; intros i; simpl; [reflexivity|].
  destruct (p (f a) i); [reflexivity|]. apply IH.
Qed.

Lemma findFrom_related {A} (R : A -> A -> Prop) (p p' : A -> nat -> bool) l l' :
  Forall2 R l l' ->
  (forall x x' i, R x x' -> p x i = p' x' i) ->
  forall i, option_map fst (Timeline.findFrom p l i)
            = option_map fst (Timeline.findFrom p' l' i).
Proof.
  intros HF Hp. induction HF as [|x x' l l' Hx _ IH]; intros i; simpl; [reflexivity|].
  rewrite (Hp x x' i Hx). destruct (p' x' i); [reflexivity|apply IH].
Qed.

Lemma findIndexFrom_first id rest : forall i k b,
  rest !! k = Some b -> breakId b = id ->
  (forall k' y, (k' < k)%nat -> rest !! k' = Some y -> breakId y <> id) ->
  Timeline.findIndexFrom id rest i = Z.of_nat (i + k).
Proof.
  induction rest as [|x rest IH]; intros i k b Hk Hb Hfirst; [discriminate|].
  simpl. destruct k as [|k].
  - injection Hk as ->. rewrite Hb, String.eqb_refl. now rewrite Nat.add_0_r.
  - assert (Hx : breakId x <> id) by (apply (Hfirst 0%nat x); [lia|reflexivity]).
    apply String.eqb_neq in Hx. rewrite Hx.
    rewrite (IH (S i) k b Hk Hb).
    + f_equal. lia.
    + intros k' y Hlt Hy. apply (Hfirst (S k') y); [lia|exact Hy].
Qed.

(** ** Windows *)

Lemma inBreakWindow_iff l t b i :
  Timeline.inBreakWindow l t b i = true <-> inWindow l i b t.
Proof.
  unfold Timeline.inBreakWindow, inWindow, Timeline.endTime, Timeline.startTime.
  rewrite andb_true_iff, Qge_bool_iff, Qlt_bool_iff. reflexivity.
Qed.

Lemma detectActiveBreak_first l t i b :
  Timeline.detectActiveBreak l t = Some (i, b) <->
  l !! i = Some b /\ inWindow l i b t /\
  forall j y, (j < i)%nat -> l !! j = Some y -> ~ inWindow l j y t.
Proof.
  unfold Timeline.detectActiveBreak. rewrite findFrom_Some. split.
  - intros (k & -> & Hk & Hp & Hfirst). simpl.
    repeat split; auto.
    + now apply inBreakWindow_iff.
    + apply inBreakWindow_iff. exact Hp.
    + intros j y Hj Hy Hw. apply inBreakWindow_iff in Hw.
      specialize (Hfirst j y Hj Hy). simpl in Hfirst. congruence.
  - intros (Hi & Hw & Hfirst). exists i. repeat split; auto.
    + apply inBreakWindow_iff. exact Hw.
    + intros k' y Hk Hy. simpl.
      destruct (Timeline.inBreakWindow l t y k') eqn:E; [|reflexivity].
      apply inBreakWindow_iff in E. exfalso. exact (Hfirst k' y Hk Hy E).
Qed.

Lemma detectActiveBreak_none l t :
  Timeline.detectActiveBreak l t = None <->
  forall j y, l !! j = Some y -> ~ inWindow l j y t.
Proof.
  unfold Timeline.detectActiveBreak. rewrite findFrom_None. split.
  - intros H j y Hy Hw. apply inBreakWindow_iff in Hw.
    specialize (H j y Hy). simpl in H. congruence.
  - intros H k y Hy. simpl.
    destruct (Timeline.inBreakWindow l t y k) eqn:E; [|reflexivity].
    apply inBreakWindow_iff in E. exfalso. exact (H k y Hy E).
Qed.

(** For a sorted schedule with non-negative durations, a window ends
    before any later window starts. *)
Lemma windows_ordered l i j bi bj :
  sortedByTime l -> nonNegativeDurations l ->
  (i < j)%nat -> l !! i = Some bi -> l !! j = Some bj ->
  Timeline.endTime l i bi <= Timeline.startTime l j bj.
Proof.
  intros Hs Hn Hij Hi Hj.
  unfold Timeline.endTime, Timeline.startTime.
  rewrite !getCumulative_sum, !Nat2Z.id.
  pose proof (Hs i j bi bj ltac:(lia) Hi Hj) as Ht.
  pose proof (sum_firstn_S l i bi Hi) as HS.
  pose proof (sum_firstn_mono l Hn (S i) j ltac:(lia)) as Hm.
  lra.
Qed.

(** ** Descriptors the arithmetic cannot tell apart *)

Lemma cumulativeLoop_sameTimeline l l' :
  Forall2 sameTimeline l l' ->
  forall i n total,
    Timeline.cumulativeLoop l i n total = Timeline.cumulativeLoop l' i n total.
Proof.
  induction 1 as [|b b' l l' (_ & _ & Hd) _ IH]; intros i n total; simpl; [reflexivity|].
  rewrite Hd. destruct (Z.of_nat i <? n)%Z; [apply IH|reflexivity].
Qed.

Lemma findIndexFrom_sameTimeline l l' id :
  Forall2 sameTimeline l l' ->
  forall i, Timeline.findIndexFrom id l i = Timeline.findIndexFrom id l' i.
Proof.
  induction 1 as [|b b' l l' (_ & Hid & _) _ IH]; intros i; simpl; [reflexivity|].
  rewrite Hid. destruct (String.eqb (breakId b') id); [reflexivity|apply IH].
Qed.

(* ===================================================================== *)
(** * Facts about the schedule builder *)
(* ===================================================================== *)

Lemma insertByTime_In x d l :
  In d (VMAPService.insertByTime x l) <-> d = x \/ In d l.
Proof.
  induction l as [|y l IH]; simpl; [intuition congruence|].
  destruct (Qle_bool (timeInSeconds x) (timeInSeconds y)); simpl;
    [intuition congruence|].
  rewrite IH. intuition congruence.
Qed.

Lemma sortByTime_In d l : In d (VMAPService.sortByTime l) <-> In d l.
Proof.
  induction l as [|x l IH]; simpl; [tauto|].
  rewrite insertByTime_In, IH. intuition congruence.
Qed.

Lemma insertByTime_length x l :
  length (VMAPService.insertByTime x l) = S (length l).
Proof.
  induction l as [|y l IH]; simpl; [reflexivity|].
  destruct (Qle_bool _ _); simpl; [reflexivity|now rewrite IH].
Qed.

Lemma insertByTime_Forall (P : AdBreak -> Prop) x l :
  P x -> Forall P l -> Forall P (VMAPService.insertByTime x l).
Proof.
  intros Hx Hl. induction Hl as [|y l Hy Hl IH]; simpl.
  - constructor; auto.
  - destruct (Qle_bool (timeInSeconds x) (timeInSeconds y)); repeat constructor; auto.
Qed.

Lemma sortByTime_Forall (P : AdBreak -> Prop) l :
  Forall P l -> Forall P (VMAPService.sortByTime l).
Proof.
  induction 1; simpl; [constructor|]. apply insertByTime_Forall; auto.
Qed.


Lemma buildLoop_index d0 k0 cd rest : forall i,
  map index (VMAPService.buildLoop d0 k0 rest i cd) = keptPositions rest i.
Proof.
  induction rest as [|br rest IH]; intros i; simpl; [reflexivity|].
  destruct (VMAPService.extractVastUrl br); simpl; now rewrite IH.
Qed.

Lemma buildLoop_In d0 k0 cd rest : forall i d,
  In d (VMAPService.buildLoop d0 k0 rest i cd) ->
  exists k br,
    rest !! k = Some br /\ index d = (i + k)%nat /\
    VMAPService.extractVastUrl br = Some (vastUrl d) /\
    breakId d = VMAPService.strOr (VMAPService.breakId br)
                                  ("break_" ++ JsString.ofNat (index d))%string /\
    timeInSeconds d
    = VMAPService.parseTimeOffset (VMAPService.strOr (VMAPService.timeOffset br) "start") cd.
Proof.
  induction rest as [|br rest IH]; intros i d; simpl; [intros []|].
  destruct (VMAPService.extractVastUrl br) as [u|] eqn:Eu.
  - intros [<-|Hin].
    + exists 0%nat, br. simpl. rewrite Nat.add_0_r. repeat split; auto.
    + destruct (IH (S i) d Hin) as (k & br' & Hk & Hi & Hr).
      exists (S k), br'. simpl. split; [exact Hk|]. split; [lia|exact Hr].
  - intros Hin. destruct (IH (S i) d Hin) as (k & br' & Hk & Hi & Hr).
    exists (S k), br'. simpl. split; [exact Hk|]. split; [lia|exact Hr].
Qed.

Lemma buildLoop_kept d0 k0 cd rest : forall i k br,
  rest !! k = Some br -> VMAPService.extractVastUrl br <> None ->
  exists d, In d (VMAPService.buildLoop d0 k0 rest i cd) /\ index d = (i + k)%nat.
Proof.
  induction rest as [|x rest IH]; intros i k br Hk Hu; [discriminate|].
  destruct k as [|k]; simpl in Hk.
  - injection Hk as ->. simpl.
    destruct (VMAPService.extractVastUrl br) as [u|]; [|congruence].
    eexists. split; [left; reflexivity|]. simpl. lia.
  - destruct (IH (S i) k br Hk Hu) as (d & Hd & Hi).
    exists d. split; [|lia]. simpl.
    destruct (VMAPService.extractVastUrl x); [right|]; exact Hd.
Qed.


(** ** Strings of decimal digits *)

Lemma digit_not_blank c : JsString.isDigit c = true -> JsString.isWhiteSpace c = false.
Proof.
  unfold JsString.isDigit, JsString.isWhiteSpace.
  generalize (nat_of_ascii c). intros n H.
  apply andb_true_iff in H. destruct H as [H1 H2].
  apply Nat.leb_le in H1. apply Nat.leb_le in H2.
  apply orb_false_iff. split; [apply orb_false_iff; split|].
  - apply andb_false_iff. right. apply Nat.leb_gt. lia.
  - apply Nat.eqb_neq. lia.
  - apply Nat.eqb_neq. lia.
Qed.

Lemma digit_not_colon c : JsString.isDigit c = true -> Ascii.eqb c ":" = false.
Proof.
  intros H. apply Ascii.eqb_neq. intros ->. vm_compute in H. discriminate.
Qed.

Lemma digit_not_sign c :
  JsString.isDigit c = true -> c <> "-"%char /\ c <> "+"%char /\ c <> "."%char.
Proof.
  intros H. repeat split; intros ->; vm_compute in H; discriminate.
Qed.

Lemma readSign_digit c s :
  JsString.isDigit c = true -> JsString.readSign (String c s) = (false, String c s).
Proof.
  intros H. destruct (digit_not_sign c H) as (Hm & Hp & _).
  unfold JsString.readSign.
  destruct c as [[|] [|] [|] [|] [|] [|] [|] [|]]; try reflexivity; congruence.
Qed.

Lemma spanDigits_all s :
  Forall (fun c => JsString.isDigit c = true) (list_ascii_of_string s) ->
  JsString.spanDigits s = (list_ascii_of_string s, EmptyString).
Proof.
  induction s as [|c s IH]; simpl; [reflexivity|].
  intros H. inversion H as [|? ? Hc Hs]; subst.
  rewrite Hc, (IH Hs). reflexivity.
Qed.

Lemma parseInt_digits s :
  isDigitString s -> JsString.parseInt s = Some (digitsValue s).
Proof.
  intros [Hne Hd]. destruct s as [|c s]; [congruence|].
  inversion Hd as [|? ? Hc Hs]; subst.
  unfold JsString.parseInt. simpl JsString.trimStart.
  rewrite (digit_not_blank c Hc), (readSign_digit c s Hc).
  rewrite (spanDigits_all (String c s) Hd). reflexivity.
Qed.

Lemma parseFloat_digits s :
  isDigitString s ->
  exists q, JsString.parseFloat s = Some q /\ q == inject_Z (digitsValue s).
Proof.
  intros [Hne Hd]. destruct s as [|c s]; [congruence|].
  inversion Hd as [|? ? Hc Hs]; subst.
  unfold JsString.parseFloat. simpl JsString.trimStart.
  rewrite (digit_not_blank c Hc), (readSign_digit c s Hc).
  rewrite (spanDigits_all (String c s) Hd).
  simpl list_ascii_of_string. cbv iota beta.
  eexists. split; [reflexivity|].
  rewrite app_nil_r. simpl length. simpl JsString.readExponent.
  unfold digitsValue. simpl list_ascii_of_string.
  change (inject_Z (10 ^ Z.of_nat 0)) with 1. change (Qpower 10 0) with 1.
  field.
Qed.

Lemma trimStart_digit c s :
  JsString.isDigit c = true -> JsString.trimStart (String c s) = String c s.
Proof. intros H. simpl. now rewrite (digit_not_blank c H). Qed.

Lemma trimEnd_noblank s :
  Forall (fun c => JsString.isWhiteSpace c = false) (list_ascii_of_string s) ->
  JsString.trimEnd s = s.
Proof.
  induction s as [|c s IH]; simpl; [reflexivity|].
  intros H. inversion H as [|? ? Hc Hs]; subst.
  rewrite (IH Hs). destruct s; [now rewrite Hc|reflexivity].
Qed.

Lemma list_ascii_app s1 s2 :
  list_ascii_of_string (s1 ++ s2)%string
  = list_ascii_of_string s1 ++ list_ascii_of_string s2.
Proof. induction s1 as [|c s1 IH]; simpl; [reflexivity|now rewrite IH]. Qed.

Lemma split_nonempty sep s : JsString.split sep s <> [].
Proof.
  induction s as [|c s IH]; simpl; [discriminate|].
  destruct (Ascii.eqb c sep); [discriminate|].
  destruct (JsString.split sep s); [congruence|discriminate].
Qed.

Lemma split_component s rest :
  Forall (fun c => JsString.isDigit c = true) (list_ascii_of_string s) ->
  JsString.split ":" (s ++ String ":" rest)%string = s :: JsString.split ":" rest.
Proof.
  induction s as [|c s IH]; simpl; [reflexivity|].
  intros H. inversion H as [|? ? Hc Hs]; subst.
  rewrite (digit_not_colon c Hc), (IH Hs). reflexivity.
Qed.

Lemma split_last s :
  Forall (fun c => JsString.isDigit c = true) (list_ascii_of_string s) ->
  JsString.split ":" s = [s].
Proof.
  induction s as [|c s IH]; simpl; [reflexivity|].
  intros H. inversion H as [|? ? Hc Hs]; subst.
  rewrite (digit_not_colon c Hc), (IH Hs). reflexivity.
Qed.

Lemma uintString_digits d :
  Forall (fun c => JsString.isDigit c = true)
         (list_ascii_of_string (NilEmpty.string_of_uint d)).
Proof. induction d; simpl; constructor; auto. Qed.

Lemma uintString_value d : forall acc,
  fold_left (fun a c => (10 * a + JsString.digitValue c)%Z)
            (list_ascii_of_string (NilEmpty.string_of_uint d)) (Z.of_nat acc)
  = Z.of_nat (Nat.of_uint_acc d acc).
Proof.
  induction d; intros acc; simpl; [reflexivity|..];
    rewrite <- IHd; f_equal; rewrite Nat.tail_mul_spec;
    match goal with
    | |- context [JsString.digitValue ?c] =>
        let v := eval vm_compute in (JsString.digitValue c) in
        change (JsString.digitValue c) with v
    end; lia.
Qed.

Lemma ofNat_digitString n : isDigitString (JsString.ofNat n).
Proof.
  unfold JsString.ofNat, NilZero.string_of_uint.
  destruct (Nat.to_uint n) eqn:E;
    (split; [discriminate|]); try apply (uintString_digits (Nat.to_uint n)) ;
    rewrite <- ?E; try apply uintString_digits.
  repeat constructor.
Qed.

Lemma ofNat_value n : digitsValue (JsString.ofNat n) = Z.of_nat n.
Proof.
  unfold digitsValue, JsString.ofNat, JsString.decimalValue.
  rewrite <- (DecimalNat.Unsigned.of_to n) at 2.
  unfold Nat.of_uint, NilZero.string_of_uint.
  destruct (Nat.to_uint n) eqn:E; try (rewrite <- E; apply (uintString_value _ 0%nat)).
  reflexivity.
Qed.

(** ** Time offsets *)

Lemma parseTimeOffset_components timeOffset cd p0 p1 p2 :
  timeOffset <> "start" -> timeOffset <> "end" ->
  JsString.split ":" (JsString.trim timeOffset) = [p0; p1; p2] ->
  VMAPService.parseTimeOffset timeOffset cd
  = VMAPService.intOrZero p0 * 3600 + VMAPService.intOrZero p1 * 60
    + VMAPService.floatOrZero p2.
Proof.
  intros Hs He Hsplit. unfold VMAPService.parseTimeOffset.
  apply String.eqb_neq in Hs. apply String.eqb_neq in He.
  rewrite Hs, He, Hsplit. reflexivity.
Qed.

Lemma parseTimeOffset_other timeOffset cd :
  timeOffset <> "start" -> timeOffset <> "end" ->
  length (JsString.split ":" (JsString.trim timeOffset)) <> 3%nat ->
  VMAPService.parseTimeOffset timeOffset cd = 0.
Proof.
  intros Hs He Hlen. unfold VMAPService.parseTimeOffset.
  apply String.eqb_neq in Hs. apply String.eqb_neq in He.
  rewrite Hs, He.
  destruct (JsString.split ":" (JsString.trim timeOffset)) as [|a [|b [|c [|d l]]]];
    try reflexivity.
  simpl in Hlen. congruence.
Qed.

Lemma parseTimeOffset_digits a b c cd :
  isDigitString a -> isDigitString b -> isDigitString c ->
  VMAPService.parseTimeOffset (a ++ ":" ++ b ++ ":" ++ c)%string cd
  == inject_Z (digitsValue a) * 3600 + inject_Z (digitsValue b) * 60
     + inject_Z (digitsValue c).
Proof.
  intros Ha Hb Hc.
  pose proof Ha as [Hane Had]. pose proof Hb as [Hbne Hbd]. pose proof Hc as [Hcne Hcd].
  set (t := (a ++ ":" ++ b ++ ":" ++ c)%string).
  assert (Hnb : Forall (fun x => JsString.isWhiteSpace x = false) (list_ascii_of_string t)).
  { subst t. simpl. rewrite !list_ascii_app. simpl.
    assert (Hd : forall s, Forall (fun x => JsString.isDigit x = true) (list_ascii_of_string s) ->
                           Forall (fun x => JsString.isWhiteSpace x = false)
                                  (list_ascii_of_string s)).
    { intros s Hs. eapply Forall_impl; [exact Hs|]. intros x. apply digit_not_blank. }
    apply Forall_app. split; [now apply Hd|].
    constructor; [reflexivity|].
    rewrite list_ascii_app. apply Forall_app. split; [now apply Hd|].
    constructor; [reflexivity|now apply Hd]. }
  assert (Hfirst : exists x r, t = String x r /\ JsString.isDigit x = true).
  { subst t. destruct a as [|x r]; [congruence|].
    inversion Had; subst. simpl. eauto. }
  destruct Hfirst as (x & r & Ht & Hx).
  assert (Htrim : JsString.trim t = t).
  { unfold JsString.trim. rewrite Ht, (trimStart_digit x r Hx), <- Ht.
    now apply trimEnd_noblank. }
  assert (Hsplit : JsString.split ":" (JsString.trim t) = [a; b; c]).
  { rewrite Htrim. subst t. simpl.
    rewrite (split_component a _ Had), (split_component b _ Hbd), (split_last c Hcd).
    reflexivity. }
  rewrite (parseTimeOffset_components t cd a b c); [| | |exact Hsplit].
  - unfold VMAPService.intOrZero, VMAPService.floatOrZero.
    rewrite (parseInt_digits a Ha), (parseInt_digits b Hb).
    destruct (parseFloat_digits c Hc) as (q & -> & Hq). rewrite Hq. reflexivity.
  - rewrite Ht. intros [= -> _]. vm_compute in Hx. discriminate.
  - rewrite Ht. intros [= -> _]. vm_compute in Hx. discriminate.
Qed.

(** [parseInt] and [parseFloat] read a leading number and ignore what
    follows it; [parseInt] stops at a decimal point. *)
Lemma parseTimeOffset_reads_prefixes cd :
  VMAPService.parseTimeOffset "1x:00:00" cd == 3600 /\
  VMAPService.parseTimeOffset "1.5:00:00" cd == 3600 /\
  VMAPService.parseTimeOffset "00:00:1.5s" cd == 3 # 2 /\
  VMAPService.parseTimeOffset "-1:00:00" cd == -3600.
Proof. repeat split; vm_compute; reflexivity. Qed.

(* ===================================================================== *)
(** * Facts about the stream-relative reconciler *)
(* ===================================================================== *)

(** The reconciler's [detectActiveBreak] is [find] over the array seen
    through the store. *)
Lemma manager_detect_breaks s t :
  Timeline.detectActiveBreak (Manager.breaks s) t =
  match Manager.detectActiveBreak s t with
  | Some (i, r) => Some (i, Manager.heap s r)
  | None => None
  end.
Proof.
  unfold Timeline.detectActiveBreak, Manager.detectActiveBreak.
  unfold Manager.breaks at 2. apply findFrom_fmap.
Qed.

Lemma manager_detect_position s t i r :
  Manager.detectActiveBreak s t = Some (i, r) -> Manager.adBreaks s !! i = Some r.
Proof.
  unfold Manager.detectActiveBreak. intros H.
  apply findFrom_Some in H. destruct H as (k & -> & Hk & _). exact Hk.
Qed.

Lemma manager_detect_iff s t i r :
  Manager.adBreaks s !! i = Some r ->
  (Manager.detectActiveBreak s t = Some (i, r) <->
   Timeline.detectActiveBreak (Manager.breaks s) t = Some (i, Manager.heap s r)).
Proof.
  intros Hi. rewrite manager_detect_breaks. split.
  - intros ->. reflexivity.
  - destruct (Manager.detectActiveBreak s t) as [[i' r']|] eqn:E; [|discriminate].
    intros [= -> Hh]. apply manager_detect_position in E. congruence.
Qed.

Lemma breaks_lookup s i r :
  Manager.adBreaks s !! i = Some r -> Manager.breaks s !! i = Some (Manager.heap s r).
Proof. intros H. unfold Manager.breaks. rewrite list_lookup_fmap, H. reflexivity. Qed.

(** An operation leaves the flag and the pointer alone, or sets both, or
    clears both. *)
Lemma exec_flag_and_pointer op s :
  let s' := Manager.state (Manager.exec op s) in
  (Manager.isInAdBreak s' = Manager.isInAdBreak s /\
   Manager.currentAdBreak s' = Manager.currentAdBreak s) \/
  (Manager.isInAdBreak s' = true /\ exists r, Manager.currentAdBreak s' = Some r) \/
  (Manager.isInAdBreak s' = false /\ Manager.currentAdBreak s' = None).
Proof.
  destruct op as [refs|t|b|b o| |e|p|]; simpl.
  - left. auto.
  - unfold Manager.update.
    destruct (Manager.adBreaks s); [left; auto|].
    destruct (Manager.detectActiveBreak s t) as [[i r]|];
      destruct (Manager.isInAdBreak s) eqn:Ein; simpl.
    + destruct (Manager.currentAdBreak s) eqn:Ec; simpl; [|left; rewrite ?Ec; auto].
      unfold Manager.updateProgress. rewrite Ec. simpl. left. rewrite ?Ec. auto.
    + right. left. eauto.
    + right. right. auto.
    + left. auto.
  - right. left. eauto.
  - unfold Manager.startAdBreak_resume.
    destruct (negb _); [left; auto|].
    destruct (Resolver.selectCreative o) as [[validAd creative]|]; [|left; auto].
    simpl. destruct (Manager.currentAdBreak s) as [cur|] eqn:Ec; simpl.
    + unfold Manager.applyToMasterList.
      destruct (_ =? -1)%Z; simpl; [left; auto|].
      destruct (_ !! _); simpl; left; auto.
    + left. auto.
  - right. right. auto.
  - unfold Manager.updateProgress.
    destruct (Manager.currentAdBreak s) eqn:Ec; simpl; left; rewrite ?Ec; auto.
  - unfold Manager.skipCurrentAd.
    destruct (Manager.currentAdBreak s) eqn:Ec; [destruct p|]; simpl; left;
      rewrite ?Ec; auto.
  - right. right. auto.
Qed.

Lemma exec_preserves_invariant op s :
  stateInvariant s -> stateInvariant (Manager.state (Manager.exec op s)).
Proof.
  unfold stateInvariant. intros Hinv.
  destruct (exec_flag_and_pointer op s) as [[-> ->]|[[-> [r ->]]|[-> ->]]].
  - exact Hinv.
  - split; [discriminate|reflexivity].
  - split; [discriminate|congruence].
Qed.

(** ** Writes of the resolution continuation *)

Lemma store_identity r f s a :
  (forall b, sameIdentity (f b) b) ->
  sameIdentity (Manager.heap (Manager.store r f s) a) (Manager.heap s a).
Proof.
  intros Hf. unfold Manager.store. simpl.
  destruct (Nat.eqb a r); [apply Hf|]. repeat split.
Qed.

Lemma sameIdentity_trans b1 b2 b3 :
  sameIdentity b1 b2 -> sameIdentity b2 b3 -> sameIdentity b1 b3.
Proof.
  unfold sameIdentity. intros (?&?&?&?&?) (?&?&?&?&?).
  repeat split; congruence.
Qed.

Lemma framedBy_refl s : framedBy s s.
Proof. repeat split. Qed.

Lemma framedBy_trans s1 s2 s3 : framedBy s1 s2 -> framedBy s2 s3 -> framedBy s1 s3.
Proof.
  intros (A1 & A2 & A3 & A4) (B1 & B2 & B3 & B4).
  repeat split; try congruence; destruct (A4 a) as (?&?&?&?&?);
    destruct (B4 a) as (?&?&?&?&?); congruence.
Qed.

Lemma framedBy_store r f s :
  (forall b, sameIdentity (f b) b) -> framedBy (Manager.store r f s) s.
Proof.
  intros Hf. split; [reflexivity|]. split; [reflexivity|]. split; [reflexivity|].
  intros a. now apply store_identity.
Qed.

Lemma framedBy_tracker t s : framedBy (Manager.set_vastTracker t s) s.
Proof. repeat split. Qed.

Lemma framedBy_masterList md z s : framedBy (Manager.applyToMasterList md z s) s.
Proof.
  unfold Manager.applyToMasterList.
  destruct (z =? -1)%Z; [apply framedBy_refl|].
  destruct (Manager.adBreaks s !! Z.to_nat z) as [r|]; [|apply framedBy_refl].
  apply framedBy_store. intros b. repeat split.
Qed.

Lemma startAdBreak_resume_cases breakInfo o s :
  let r := Manager.startAdBreak_resume breakInfo o s in
  (Manager.state r = s /\ Manager.thrown r = None) \/
  (exists validAd creative,
      Manager.vastUrl_truthy (vastUrl (Manager.heap s breakInfo)) = true /\
      Resolver.selectCreative o = Some (validAd, creative) /\
      Manager.currentAdBreak s = None /\
      Manager.state r = Manager.set_vastTracker (Some (validAd, creative)) s /\
      Manager.thrown r = Some Manager.TypeError) \/
  (exists validAd creative cur z,
      Manager.vastUrl_truthy (vastUrl (Manager.heap s breakInfo)) = true /\
      Resolver.selectCreative o = Some (validAd, creative) /\
      Manager.currentAdBreak s = Some cur /\
      Manager.state r
      = Manager.applyToMasterList (Resolver.metadataOf creative) z
          (Manager.store cur (Manager.applyMetadata (Resolver.metadataOf creative))
             (Manager.set_vastTracker (Some (validAd, creative)) s)) /\
      Manager.thrown r = None).
Proof.
  unfold Manager.startAdBreak_resume.
  destruct (Manager.vastUrl_truthy (vastUrl (Manager.heap s breakInfo))) eqn:Eu;
    cbn [negb]; [|left; split; reflexivity].
  destruct (Resolver.selectCreative o) as [[validAd creative]|] eqn:Es;
    [|left; split; reflexivity].
  cbv zeta. change (Manager.currentAdBreak (Manager.set_vastTracker _ s))
    with (Manager.currentAdBreak s).
  destruct (Manager.currentAdBreak s) as [cur|] eqn:Ec.
  - right. right. exists validAd, creative, cur. eexists. repeat split; reflexivity.
  - right. left. exists validAd, creative. repeat split; reflexivity.
Qed.

Lemma initializeAdTracking_resume_frame breakInfo o s :
  let r := Manager.initializeAdTracking_resume breakInfo o s in
  framedBy (Manager.state r) s /\ Manager.thrown r = None /\
  (Manager.currentAdBreak s = None -> Manager.state r = s).
Proof.
  unfold Manager.initializeAdTracking_resume.
  destruct (Manager.vastUrl_truthy (vastUrl (Manager.heap s breakInfo)));
    cbn [negb]; [|split; [apply framedBy_refl|split; reflexivity]].
  destruct o as [|ads]; [split; [apply framedBy_refl|split; reflexivity]|].
  destruct (Resolver.selectCreative (Vast.Response ads)) as [[validAd creative]|];
    [|split; [apply framedBy_refl|split; reflexivity]].
  destruct (Manager.currentAdBreak s) as [cur|] eqn:Ec;
    [|split; [apply framedBy_refl|split; reflexivity]].
  cbv zeta. cbn [Manager.state Manager.thrown].
  split; [|split; [reflexivity|discriminate]].
  eapply framedBy_trans; [apply framedBy_tracker|].
  match goal with
  | |- framedBy (if ?c then ?x else ?y) _ =>
      assert (H3 : framedBy (if c then x else y) x)
  end.
  { destruct (_ =? -1)%Z; [apply framedBy_refl|].
    destruct (_ !! _); [|apply framedBy_refl].
    apply framedBy_store. intros b. repeat split. }
  eapply framedBy_trans; [exact H3|].
  eapply framedBy_trans; [apply framedBy_store; intros b; repeat split|].
  destruct (Vast.clickThroughOf _); [|apply framedBy_refl].
  apply framedBy_store. intros b. repeat split.
Qed.




Lemma findIndexFrom_framed id (h h' : nat -> AdBreak) (refs : list nat) : forall i,
  (forall a, breakId (h' a) = breakId (h a)) ->
  Timeline.findIndexFrom id (h' <$> refs) i = Timeline.findIndexFrom id (h <$> refs) i.
Proof.
  induction refs as [|r refs IH]; intros i Hid; simpl; [reflexivity|].
  rewrite Hid. destruct (String.eqb (breakId (h r)) id); [reflexivity|]. now apply IH.
Qed.

Lemma findIndexById_framed s' s b :
  framedBy s' s ->
  Timeline.findIndexById (Manager.breaks s') (breakId (Manager.heap s' b))
  = Timeline.findIndexById (Manager.breaks s) (breakId (Manager.heap s b)).
Proof.
  intros (_ & _ & Ha & Hid). unfold Timeline.findIndexById, Manager.breaks.
  rewrite Ha. destruct (Hid b) as (_ & _ & _ & Hb & _). rewrite Hb.
  apply findIndexFrom_framed. intros a. now destruct (Hid a) as (_ & _ & _ & H & _).
Qed.

Lemma resolutions_agree breakInfo validAd creative o s cur :
  Manager.currentAdBreak s = Some cur ->
  Manager.vastUrl_truthy (vastUrl (Manager.heap s breakInfo)) = true ->
  o <> Vast.Rejected ->
  Resolver.selectCreative o = Some (validAd, creative) ->
  Manager.vastTracker (Manager.state (Manager.startAdBreak_resume breakInfo o s))
  = Manager.vastTracker (Manager.state (Manager.initializeAdTracking_resume breakInfo o s)) /\
  Manager.effects (Manager.startAdBreak_resume breakInfo o s)
  = Manager.effects (Manager.initializeAdTracking_resume breakInfo o s) /\
  Manager.thrown (Manager.startAdBreak_resume breakInfo o s) = None /\
  forall a,
    set_clickThrough None
      (Manager.heap (Manager.state (Manager.startAdBreak_resume breakInfo o s)) a)
    = set_clickThrough None
        (Manager.heap (Manager.state (Manager.initializeAdTracking_resume breakInfo o s)) a) /\
    clickThrough
      (Manager.heap (Manager.state (Manager.initializeAdTracking_resume breakInfo o s)) a)
    = (if Nat.eqb a cur then
         match Vast.clickThroughOf (Vast.videoClickThroughURLTemplate creative) with
         | Some c => Some c
         | None => clickThrough (Manager.heap s a)
         end
       else clickThrough (Manager.heap s a)) /\
    clickThrough (Manager.heap (Manager.state (Manager.startAdBreak_resume breakInfo o s)) a)
    = (if Nat.eqb a cur then Vast.clickThroughOf (Vast.videoClickThroughURLTemplate creative)
       else clickThrough (Manager.heap s a)).
Proof.
  intros Hcur Hurl Hrej Hsel.
  unfold Manager.startAdBreak_resume, Manager.initializeAdTracking_resume.
  rewrite Hurl. cbn [negb]. destruct o as [|ads]; [contradiction|]. rewrite Hsel. cbv zeta.
  cbn [Manager.currentAdBreak Manager.set_vastTracker]. rewrite Hcur.
  set (md := Resolver.metadataOf creative).
  set (s1 := Manager.set_vastTracker (Some (validAd, creative)) s).
  assert (F1 : framedBy (Manager.store cur (Manager.applyMetadata md) s1) s).
  { apply framedBy_trans with s1.
    - apply framedBy_store. intros b. now repeat split.
    - apply framedBy_tracker. }
  rewrite (findIndexById_framed _ s breakInfo F1).
  set (s1' := match Vast.clickThroughOf (Vast.videoClickThroughURLTemplate creative) with
              | Some c => Manager.store cur (set_clickThrough (Some c)) s
              | None => s
              end).
  assert (F1' : framedBy s1' s).
  { unfold s1'. destruct (Vast.clickThroughOf _); [|apply framedBy_refl].
    apply framedBy_store. intros b. now repeat split. }
  set (f2 := fun b : AdBreak =>
               set_skipOffset (JNum (or_default (Vast.skipDelay creative) 5))
                 (set_duration (JNum (or_default (Vast.duration creative) 30)) b)).
  assert (F2' : framedBy (Manager.store cur f2 s1') s).
  { apply framedBy_trans with s1'; [|exact F1'].
    apply framedBy_store. intros b. now repeat split. }
  rewrite (findIndexById_framed _ s breakInfo F2').
  set (idx := Timeline.findIndexById (Manager.breaks s) (breakId (Manager.heap s breakInfo))).
  assert (Ha : Manager.adBreaks (Manager.store cur f2 s1') = Manager.adBreaks s).
  { unfold s1'. now destruct (Vast.clickThroughOf _). }
  rewrite Ha. unfold Manager.applyToMasterList. clear F1. subst s1.
  cbn [Manager.adBreaks Manager.store Manager.set_vastTracker].
  destruct (idx =? -1)%Z.
  - cbn [Manager.state Manager.effects Manager.thrown Manager.vastTracker
         Manager.set_vastTracker Manager.store Manager.heap].
    do 3 (split; [reflexivity|]). intros a. unfold s1', md, f2, Manager.applyMetadata, Resolver.metadataOf.
      cbn [Resolver.clickThrough Resolver.duration Resolver.skipOffset].
    destruct (Vast.clickThroughOf (Vast.videoClickThroughURLTemplate creative));
      cbn [Manager.heap Manager.store Manager.set_vastTracker]; destruct (Nat.eqb a cur); repeat split.
  - destruct (Manager.adBreaks s !! Z.to_nat idx) as [r0|].
    + cbn [Manager.state Manager.effects Manager.thrown Manager.vastTracker
           Manager.set_vastTracker Manager.store Manager.heap].
      do 3 (split; [reflexivity|]). intros a. unfold s1', md, f2, Manager.applyMetadata, Resolver.metadataOf.
      cbn [Resolver.clickThrough Resolver.duration Resolver.skipOffset].
      destruct (Vast.clickThroughOf (Vast.videoClickThroughURLTemplate creative));
        cbn [Manager.heap Manager.store Manager.set_vastTracker]; rewrite ?Nat.eqb_refl;
        destruct (Nat.eqb a r0); destruct (Nat.eqb a cur); repeat split.
    + cbn [Manager.state Manager.effects Manager.thrown Manager.vastTracker
           Manager.set_vastTracker Manager.store Manager.heap].
      do 3 (split; [reflexivity|]). intros a. unfold s1', md, f2, Manager.applyMetadata, Resolver.metadataOf.
      cbn [Resolver.clickThrough Resolver.duration Resolver.skipOffset].
      destruct (Vast.clickThroughOf (Vast.videoClickThroughURLTemplate creative));
        cbn [Manager.heap Manager.store Manager.set_vastTracker]; destruct (Nat.eqb a cur); repeat split.
Qed.

Lemma masterList_keeps_applied md z s a b :
  Manager.heap s a = Manager.applyMetadata md b ->
  Manager.heap (Manager.applyToMasterList md z s) a = Manager.applyMetadata md b.
Proof.
  intros H. unfold Manager.applyToMasterList.
  destruct (z =? -1)%Z; [exact H|].
  destruct (Manager.adBreaks s !! Z.to_nat z) as [r|]; [|exact H].
  unfold Manager.store. simpl. destruct (Nat.eqb a r); [|exact H].
  now rewrite H.
Qed.

(** What the completion of a resolution writes when some break is
    active, whichever break the resolution was started for: in
    [startAdBreak] the three resolved fields of the active break; in
    [initializeAdTracking] its duration and skip offset, and its
    click-through when the creative has one. *)
Lemma late_resolution_writes breakInfo o s cur validAd creative :
  Manager.currentAdBreak s = Some cur ->
  Manager.vastUrl_truthy (vastUrl (Manager.heap s breakInfo)) = true ->
  Resolver.selectCreative o = Some (validAd, creative) ->
  let r := Manager.startAdBreak_resume breakInfo o s in
  let r' := Manager.initializeAdTracking_resume breakInfo o s in
  Manager.heap (Manager.state r) cur
  = Manager.applyMetadata (Resolver.metadataOf creative) (Manager.heap s cur) /\
  Manager.thrown r = None /\
  duration (Manager.heap (Manager.state r') cur)
  = JNum (or_default (Vast.duration creative) 30) /\
  skipOffset (Manager.heap (Manager.state r') cur)
  = JNum (or_default (Vast.skipDelay creative) 5) /\
  clickThrough (Manager.heap (Manager.state r') cur)
  = match Vast.clickThroughOf (Vast.videoClickThroughURLTemplate creative) with
    | Some c => Some c
    | None => clickThrough (Manager.heap s cur)
    end.
Proof.
  intros Hc Hu Hsel r r'.
  assert (Hr : Manager.heap (Manager.state r) cur
               = Manager.applyMetadata (Resolver.metadataOf creative) (Manager.heap s cur)).
  { subst r. unfold Manager.startAdBreak_resume.
    rewrite Hu, Hsel. cbn [negb]. cbv zeta.
    change (Manager.currentAdBreak (Manager.set_vastTracker (Some (validAd, creative)) s))
      with (Manager.currentAdBreak s).
    rewrite Hc. cbn [Manager.state].
    apply masterList_keeps_applied. unfold Manager.store. simpl.
    now rewrite Nat.eqb_refl. }
  assert (Ho : o <> Vast.Rejected) by (intros ->; discriminate).
  destruct (resolutions_agree breakInfo validAd creative o s cur Hc Hu Ho Hsel)
    as (_ & _ & Ht & Hall).
  destruct (Hall cur) as (Heq & Hclick & _).
  fold r in Ht, Heq. fold r' in Heq, Hclick.
  split; [exact Hr|]. split; [exact Ht|].
  rewrite Hr in Heq.
  split; [|split].
  - apply (f_equal duration) in Heq. simpl in Heq. now rewrite <- Heq.
  - apply (f_equal skipOffset) in Heq. simpl in Heq. now rewrite <- Heq.
  - rewrite Hclick, Nat.eqb_refl. reflexivity.
Qed.

(** A late completion at work.  In [midrollActive] the pre-roll (address
    0) has been left and the mid-roll (address 1) is active.  The
    pre-roll's resolution, arriving now with a declared duration of 15 and
    skip delay of 3, is written to the active mid-roll; the pre-roll's
    entry in the list, found by its identifier, gets the same duration.
    The mid-roll's window shrinks to [315, 330): the sample 331, which
    started it, now ends it.  In [prerollLeft], where no break is active,
    the same completion ends in a [TypeError]; the function-style player
    logs it. *)
Lemma late_resolution_examples :
  (Manager.currentAdBreak midrollActive = Some 1%nat /\
   duration (Manager.heap midrollActive 1) = JNum 30 /\
   skipOffset (Manager.heap midrollActive 1) = JNum 5 /\
   Manager.detectActiveBreak midrollActive 331 = Some (1%nat, 1%nat) /\
   duration (Manager.heap
               (Manager.state
                  (Manager.startAdBreak_resume 0 (responseWith (JNum 15) (JNum 3))
                                               midrollActive)) 1)
   = JNum 15 /\
   skipOffset (Manager.heap
                 (Manager.state
                    (Manager.startAdBreak_resume 0 (responseWith (JNum 15) (JNum 3))
                                                 midrollActive)) 1)
   = JNum 3 /\
   duration (Manager.heap
               (Manager.state
                  (Manager.startAdBreak_resume 0 (responseWith (JNum 15) (JNum 3))
                                               midrollActive)) 0)
   = JNum 15 /\
   Manager.detectActiveBreak
     (Manager.state (Manager.startAdBreak_resume 0 (responseWith (JNum 15) (JNum 3))
                                                 midrollActive)) 331
   = None /\
   ~ lateResultDiscarded 0 (responseWith (JNum 15) (JNum 3)) midrollActive) /\
  (Manager.currentAdBreak prerollLeft = None /\
   Manager.thrown (Manager.startAdBreak_resume 0 (responseWith (JNum 15) (JNum 3))
                                               prerollLeft)
   = Some Manager.TypeError /\
   Manager.thrown (Manager.initializeAdTracking_resume 0 (responseWith (JNum 15) (JNum 3))
                                                       prerollLeft)
   = None /\
   Manager.effects (Manager.initializeAdTracking_resume 0 (responseWith (JNum 15) (JNum 3))
                                                        prerollLeft)
   = [Manager.ConsoleError "[TRACKING] Failed to initialize VAST tracker"] /\
   ~ lateResultDiscarded 0 (responseWith (JNum 15) (JNum 3)) prerollLeft) /\
  (duration (Manager.heap
               (Manager.state
                  (Manager.initializeAdTracking_resume 0 (responseWith (JNum 15) (JNum 3))
                                                       midrollActive)) 1)
   = JNum 15 /\
   skipOffset (Manager.heap
                 (Manager.state
                    (Manager.initializeAdTracking_resume 0 (responseWith (JNum 15) (JNum 3))
                                                         midrollActive)) 1)
   = JNum 3).
Proof.
  split; [|split].
  - do 8 (split; [reflexivity|]).
    intros (_ & Hheap & _). specialize (Hheap 1%nat).
    apply (f_equal duration) in Hheap. vm_compute in Hheap. discriminate.
  - do 4 (split; [reflexivity|]).
    intros (Hthrown & _). vm_compute in Hthrown. discriminate.
  - split; reflexivity.
Qed.

(* ===================================================================== *)
(** * Facts about the client-swap reconciler *)
(* ===================================================================== *)

Lemma wellGuarded_app m l1 l2 :
  wellGuarded m (l1 ++ l2) <-> wellGuarded m l1 /\ wellGuarded (markAfter m l1) l2.
Proof.
  revert m. induction l1 as [|e l1 IH]; intros m; simpl; [tauto|].
  destruct e; simpl; rewrite ?IH; tauto.
Qed.

Lemma markAfter_app m l1 l2 : markAfter m (l1 ++ l2) = markAfter (markAfter m l1) l2.
Proof.
  revert m. induction l1 as [|e l1 IH]; intros m; simpl; [reflexivity|].
  destruct e; simpl; apply IH.
Qed.

Lemma neutral_log m l :
  Forall (fun e => isGuardEffect e = false) l -> wellGuarded m l /\ markAfter m l = m.
Proof.
  induction 1 as [|e l He _ IH]; simpl; [auto|].
  destruct e; simpl in He; try discriminate; exact IH.
Qed.

Lemma neutral_guarded m s out :
  guardAgrees m s -> neutralStep s out -> guardedStep m s out.
Proof.
  intros Hg (Hn & Hl & Ha). destruct (neutral_log m _ Hn) as (Hw & Hm).
  split; [exact Hw|]. split; [|exact Ha].
  rewrite Hm. intros p Hp. rewrite Hl. now apply Hg.
Qed.

Lemma neutral_refl s fx :
  Forall (fun e => isGuardEffect e = false) fx -> neutralStep s (s, fx).
Proof. intros H. repeat split; auto. Qed.

Lemma neutral_seq s s1 fx1 s2 fx2 :
  neutralStep s (s1, fx1) -> neutralStep s1 (s2, fx2) -> neutralStep s (s2, fx1 ++ fx2).
Proof.
  intros (A1 & A2 & A3) (B1 & B2 & B3). simpl in *.
  split; [apply Forall_app; auto|]. split; simpl; congruence.
Qed.

Lemma guarded_seq m s s1 fx1 s2 fx2 :
  guardedStep m s (s1, fx1) -> guardedStep (markAfter m fx1) s1 (s2, fx2) ->
  guardedStep m s (s2, fx1 ++ fx2).
Proof.
  intros (A1 & A2 & A3) (B1 & B2 & B3). simpl in *.
  split; [apply wellGuarded_app; auto|].
  split; simpl; [rewrite markAfter_app; exact B2|congruence].
Qed.

Ltac neutral_effects := simpl; repeat (constructor; try reflexivity).

Lemma seekContentPastAd_neutral a d s :
  neutralStep s (ClientSwap.seekContentPastAd a d s).
Proof.
  unfold ClientSwap.seekContentPastAd.
  destruct (ClientSwap.contentSource s) as [c|]; [destruct (str_truthy c)|];
    repeat split; neutral_effects.
Qed.

Lemma cleanupAdAndResume_neutral w s :
  neutralStep s (ClientSwap.cleanupAdAndResume w s).
Proof.
  unfold ClientSwap.cleanupAdAndResume.
  destruct (ClientSwap.currentAd s) as [cur|]; [|repeat split; neutral_effects].
  match goal with
  | |- context [ClientSwap.seekContentPastAd ?a ?d ?s1] =>
      pose proof (seekContentPastAd_neutral a d s1) as H;
      destruct (ClientSwap.seekContentPastAd a d s1) as [s2 fx2]
  end.
  destruct H as (H1 & H2 & H3). simpl in *.
  split; [|split; simpl; auto].
  simpl. apply Forall_app. split.
  - destruct w; [destruct (ClientSwap.vastTracker s)|]; neutral_effects.
  - repeat (constructor; try reflexivity). exact H1.
Qed.

Lemma onAdTimeUpdate_neutral t s :
  neutralStep s (ClientSwap.onAdTimeUpdate t s).
Proof.
  unfold ClientSwap.onAdTimeUpdate.
  destruct (ClientSwap.currentAd s) as [cur|]; [|repeat split; neutral_effects].
  destruct (ClientSwap.vastTracker s) as [tr|]; [|repeat split; neutral_effects].
  destruct (Qge_bool t (ClientSwap.duration cur)); [|repeat split; neutral_effects].
  match goal with
  | |- context [ClientSwap.cleanupAdAndResume ?w ?s1] =>
      pose proof (cleanupAdAndResume_neutral w s1) as H;
      destruct (ClientSwap.cleanupAdAndResume w s1) as [s2 fx2]
  end.
  destruct H as (H1 & H2 & H3). simpl in *.
  split; [|split; simpl; auto].
  simpl. repeat (constructor; try reflexivity). exact H1.
Qed.

Lemma onAdEnded_neutral s s0 :
  ClientSwap.lastTriggeredBreakIndex s0 = ClientSwap.lastTriggeredBreakIndex s ->
  ClientSwap.adBreaks s0 = ClientSwap.adBreaks s ->
  neutralStep s (ClientSwap.onAdEnded s0).
Proof.
  intros Hl Ha. unfold ClientSwap.onAdEnded.
  destruct (ClientSwap.currentAd s0) as [cur|] eqn:Ec;
    [|repeat split; simpl; auto; neutral_effects].
  pose proof (cleanupAdAndResume_neutral false s0) as H.
  destruct (ClientSwap.cleanupAdAndResume false s0) as [s2 fx2].
  destruct H as (H1 & H2 & H3). simpl in *.
  split; [|split; simpl; congruence].
  simpl. apply Forall_app.
  split; [destruct (ClientSwap.vastTracker s0); neutral_effects|exact H1].
Qed.

Lemma skipAd_neutral s : neutralStep s (ClientSwap.skipAd s).
Proof.
  unfold ClientSwap.skipAd.
  destruct (ClientSwap.currentAd s) as [cur|]; [|repeat split; neutral_effects].
  pose proof (cleanupAdAndResume_neutral true s) as H.
  destruct (ClientSwap.cleanupAdAndResume true s) as [s2 fx2].
  destruct H as (H1 & H2 & H3). simpl in *.
  split; [|split; simpl; auto].
  simpl. constructor; [reflexivity|exact H1].
Qed.

Lemma scanBreaks_not_last last cd t rest : forall i pos,
  ClientSwap.scanBreaks last cd t rest i = Some pos -> last <> Z.of_nat pos.
Proof.
  induction rest as [|br rest IH]; intros i pos; simpl; [discriminate|].
  destruct (last =? Z.of_nat i)%Z eqn:E; [apply IH|].
  apply Z.eqb_neq in E.
  repeat match goal with
         | |- context [if ?c then _ else _] => destruct c
         end; try apply IH; intros [= <-]; exact E.
Qed.

Lemma handleContentTimeUpdate_guarded m t s :
  ClientSwap.indexIsPosition (ClientSwap.adBreaks s) ->
  guardAgrees m s ->
  guardedStep m s (ClientSwap.handleContentTimeUpdate t s).
Proof.
  intros Hidx Hg.
  assert (Hnone : guardedStep m s (s, [])).
  { apply neutral_guarded; [exact Hg|]. apply neutral_refl. constructor. }
  unfold ClientSwap.handleContentTimeUpdate.
  destruct (ClientSwap.currentAd s) as [cur|] eqn:Ec; [exact Hnone|].
  destruct (ClientSwap.contentSource s) as [c|]; [|exact Hnone].
  destruct (ClientSwap.playerSrc s) as [p|]; [|exact Hnone].
  destruct (negb _); [exact Hnone|].
  destruct (ClientSwap.scanBreaks _ _ _ _ _) as [pos|] eqn:Es; [|exact Hnone].
  apply scanBreaks_not_last in Es.
  unfold ClientSwap.triggerAdBreak. rewrite Ec.
  destruct (ClientSwap.adBreaks s !! pos) as [br|] eqn:Eb; [|exact Hnone].
  rewrite (Hidx pos br Eb).
  split; [|split].
  - simpl. split; [|exact I]. intros ->. apply Es. now apply Hg.
  - simpl. intros p' [= <-]. reflexivity.
  - reflexivity.
Qed.

Lemma triggerAdBreak_settled_guarded m pos o s :
  guardAgrees m s ->
  guardedStep m s (ClientSwap.triggerAdBreak_settled pos o s).
Proof.
  intros Hg.
  assert (Hnone : guardedStep m s (s, [])).
  { apply neutral_guarded; [exact Hg|]. apply neutral_refl. constructor. }
  unfold ClientSwap.triggerAdBreak_settled.
  destruct (ClientSwap.adBreaks s !! pos) as [br|]; [|exact Hnone].
  destruct o as [|ads].
  - split; [exact I|]. split; [|reflexivity]. simpl. intros p'. discriminate.
  - destruct (Resolver.selectCreative _) as [[validAd creative]|]; [|exact Hnone].
    destruct (Vast.getMediaFileUrl creative) as [mediaUrl|]; [|exact Hnone].
    apply neutral_guarded; [exact Hg|].
    repeat split; neutral_effects.
Qed.

Lemma step_guarded m e s :
  ClientSwap.indexIsPosition (ClientSwap.adBreaks s) ->
  guardAgrees m s ->
  guardedStep m s (ClientSwap.step e s).
Proof.
  intros Hidx Hg.
  assert (Hnone : guardedStep m s (s, [])).
  { apply neutral_guarded; [exact Hg|]. apply neutral_refl. constructor. }
  destruct e as [t|pos o| | | | | |]; simpl.
  - assert (H1 : guardedStep m s
                   (if ClientSwap.contentListener s
                    then ClientSwap.handleContentTimeUpdate t s else (s, []))).
    { destruct (ClientSwap.contentListener s); [|exact Hnone].
      now apply handleContentTimeUpdate_guarded. }
    destruct (if ClientSwap.contentListener s then _ else _) as [s1 fx1].
    assert (H2 : neutralStep s1
                   (if ClientSwap.adTimeListener s
                    then ClientSwap.onAdTimeUpdate t s1 else (s1, []))).
    { destruct (ClientSwap.adTimeListener s);
        [apply onAdTimeUpdate_neutral|apply neutral_refl; constructor]. }
    destruct (if ClientSwap.adTimeListener s then _ else _) as [s2 fx2].
    apply (guarded_seq m s s1 fx1 s2 fx2 H1).
    apply neutral_guarded; [|exact H2]. apply H1.
  - now apply triggerAdBreak_settled_guarded.
  - destruct (ClientSwap.pendingCanPlay s); [|exact Hnone].
    apply neutral_guarded; [exact Hg|].
    destruct (ClientSwap.vastTracker s); [destruct (ClientSwap.currentAd s)|];
      repeat split; neutral_effects.
  - destruct (ClientSwap.adEndedListener s); [|exact Hnone].
    apply neutral_guarded; [exact Hg|]. apply onAdEnded_neutral; reflexivity.
  - apply neutral_guarded; [exact Hg|]. apply skipAd_neutral.
  - destruct (ClientSwap.pendingLoadedMetadata s); [|exact Hnone].
    apply neutral_guarded; [exact Hg|]. repeat split; neutral_effects.
  - destruct (ClientSwap.pendingPlay s); [|exact Hnone].
    apply neutral_guarded; [exact Hg|]. repeat split; neutral_effects.
  - destruct (ClientSwap.pendingError s); [|exact Hnone].
    apply neutral_guarded; [exact Hg|]. repeat split; neutral_effects.
Qed.

Lemma run_guarded events : forall m s,
  ClientSwap.indexIsPosition (ClientSwap.adBreaks s) ->
  guardAgrees m s ->
  guardedStep m s (ClientSwap.run events s).
Proof.
  induction events as [|e events IH]; intros m s Hidx Hg; simpl.
  - apply neutral_guarded; [exact Hg|]. apply neutral_refl. constructor.
  - pose proof (step_guarded m e s Hidx Hg) as H1.
    destruct (ClientSwap.step e s) as [s1 fx1].
    destruct H1 as (W1 & G1 & A1). simpl in *.
    assert (Hidx1 : ClientSwap.indexIsPosition (ClientSwap.adBreaks s1))
      by (rewrite A1; exact Hidx).
    pose proof (IH (markAfter m fx1) s1 Hidx1 G1) as H2.
    destruct (ClientSwap.run events s1) as [s2 fx2].
    apply (guarded_seq m s s1 fx1 s2 fx2); [repeat split; auto|exact H2].
Qed.

Lemma wellGuarded_between p l2 l3 :
  wellGuarded (Some p) (l2 ++ ClientSwap.Triggered p :: l3) ->
  exists e, In e l2 /\ ClientSwap.releasesGuard p e.
Proof.
  induction l2 as [|e l2 IH]; simpl.
  - intros [H _]. congruence.
  - destruct e as [q| | | | | | | | | | | | |]; simpl;
      try (intros H; destruct (IH H) as (e' & He' & Hr); exists e'; split; [right|]; assumption).
    + intros [Hq _]. exists (ClientSwap.Triggered q). split; [left; reflexivity|].
      right. exists q. split; [congruence|reflexivity].
    + intros _. exists ClientSwap.GuardCleared. split; [left; reflexivity|].
      left. reflexivity.
Qed.

Lemma clientSwapSchedule_indexed : ClientSwap.indexIsPosition clientSwapSchedule.
Proof.
  intros [|[|i]] br; vm_compute; intros [= <-] || discriminate; reflexivity.
Qed.

(** The replay guard compares a document index with an array position.
    In [reindexedSchedule] the mid-roll is at position 0 with index 1:
    while its ad is still being fetched, the next clock sample triggers it
    again. *)
Lemma replay_guard_misses_reindexed_break :
  ~ ClientSwap.indexIsPosition reindexedSchedule /\
  snd (ClientSwap.run [ClientSwap.TimeUpdate 300; ClientSwap.TimeUpdate (3001 # 10)]
         (ClientSwap.loaded reindexedSchedule 596 "https://cdn.example/content.mp4"))
  = [ClientSwap.Triggered 0; ClientSwap.Triggered 0].
Proof.
  split; [|vm_compute; reflexivity].
  intros H. specialize (H 0%nat _ eq_refl). vm_compute in H. discriminate.
Qed.

(* ===================================================================== *)
(** * Facts about the timeline in double precision *)
(* ===================================================================== *)

Lemma double_leb_refl x y :
  PrimFloat.ltb x y = true -> PrimFloat.leb x x = true.
Proof.
  rewrite ltb_spec, leb_spec. unfold SFltb, SFleb.
  destruct (Prim2SF x) as [s| s| |s m e]; simpl.
  - reflexivity.
  - now destruct s.
  - discriminate.
  - intros _. rewrite Z.compare_refl, Pos.compare_cont_refl. now destruct s.
Qed.

Lemma double_inBreakWindow_iff l t b i :
  Double.inBreakWindow l t b i = true <-> Double.inWindow l i b t.
Proof.
  unfold Double.inBreakWindow, Double.inWindow, Double.endTime, Double.startTime,
    Double.ge_bool, Double.lt_bool.
  now rewrite andb_true_iff.
Qed.

Lemma double_detect_first l t i b :
  Double.detectActiveBreak l t = Some (i, b) <->
  l !! i = Some b /\ Double.inWindow l i b t /\
  forall j y, (j < i)%nat -> l !! j = Some y -> ~ Double.inWindow l j y t.
Proof.
  unfold Double.detectActiveBreak. rewrite findFrom_Some. split.
  - intros (k & -> & Hk & Hp & Hfirst). simpl.
    repeat split; auto.
    + now apply double_inBreakWindow_iff.
    + apply double_inBreakWindow_iff. exact Hp.
    + intros j y Hj Hy Hw. apply double_inBreakWindow_iff in Hw.
      specialize (Hfirst j y Hj Hy). simpl in Hfirst. congruence.
  - intros (Hi & Hw & Hfirst). exists i. repeat split; auto.
    + apply double_inBreakWindow_iff. exact Hw.
    + intros k' y Hk Hy. simpl.
      destruct (Double.inBreakWindow l t y k') eqn:E; [|reflexivity].
      apply double_inBreakWindow_iff in E. exfalso. exact (Hfirst k' y Hk Hy E).
Qed.

Lemma double_detect_none l t :
  Double.detectActiveBreak l t = None <->
  forall j y, l !! j = Some y -> ~ Double.inWindow l j y t.
Proof.
  unfold Double.detectActiveBreak. rewrite findFrom_None. split.
  - intros H j y Hy Hw. apply double_inBreakWindow_iff in Hw.
    specialize (H j y Hy). simpl in H. congruence.
  - intros H k y Hy. simpl.
    destruct (Double.inBreakWindow l t y k) eqn:E; [|reflexivity].
    apply double_inBreakWindow_iff in E. exfalso. exact (H k y Hy E).
Qed.

(** A sample inside some window is detected, as the break of the first
    window that contains it. *)
Lemma double_detect_some l t i b :
  l !! i = Some b -> Double.inWindow l i b t ->
  exists j b', Double.detectActiveBreak l t = Some (j, b') /\ (j <= i)%nat /\
               (j = i <-> forall k y, (k < i)%nat -> l !! k = Some y ->
                                      ~ Double.inWindow l k y t).
Proof.
  intros Hi Hw.
  destruct (Double.detectActiveBreak l t) as [[j b']|] eqn:Hd.
  - exists j, b'. split; [reflexivity|].
    pose proof (proj1 (double_detect_first l t j b') Hd) as (Hj & Hwj & Hfirst).
    assert (Hle : (j <= i)%nat).
    { destruct (Nat.le_gt_cases j i) as [H|H]; [exact H|].
      exfalso. exact (Hfirst i b H Hi Hw). }
    split; [exact Hle|]. split.
    + intros ->. exact Hfirst.
    + intros Hnone. destruct (Nat.eq_dec j i) as [E|E]; [exact E|].
      exfalso. apply (Hnone j b'); [lia|exact Hj|exact Hwj].
  - exfalso. exact (proj1 (double_detect_none l t) Hd i b Hi Hw).
Qed.

Lemma double_findIndexFrom_first id rest : forall i k b,
  rest !! k = Some b -> Double.breakId b = id ->
  (forall k' y, (k' < k)%nat -> rest !! k' = Some y -> Double.breakId y <> id) ->
  Double.findIndexFrom id rest i = Z.of_nat (i + k).
Proof.
  induction rest as [|x rest IH]; intros i k b Hk Hb Hfirst; [discriminate|].
  simpl. destruct k as [|k].
  - injection Hk as ->. rewrite Hb, String.eqb_refl. now rewrite Nat.add_0_r.
  - assert (Hx : Double.breakId x <> id) by (apply (Hfirst 0%nat x); [lia|reflexivity]).
    apply String.eqb_neq in Hx. rewrite Hx.
    rewrite (IH (S i) k b Hk Hb).
    + f_equal. lia.
    + intros k' y Hlt Hy. apply (Hfirst (S k') y); [lia|exact Hy].
Qed.

Lemma double_findIndexById_NoDup l i b :
  NoDup (map Double.breakId l) -> l !! i = Some b ->
  Double.findIndexById l (Double.breakId b) = Z.of_nat i.
Proof.
  intros Hnd Hi. unfold Double.findIndexById.
  rewrite (double_findIndexFrom_first (Double.breakId b) l 0 i b Hi eq_refl); [reflexivity|].
  intros k' y Hk Hy Heq.
  assert (Hik : k' = i).
  { eapply (NoDup_lookup (map Double.breakId l)); [exact Hnd| |].
    - change (map Double.breakId l) with (Double.breakId <$> l).
      rewrite list_lookup_fmap, Hy. simpl. rewrite Heq. reflexivity.
    - change (map Double.breakId l) with (Double.breakId <$> l).
      rewrite list_lookup_fmap, Hi. reflexivity. }
  lia.
Qed.

Lemma double_markers_characterised cd l :
  NoDup (map Double.breakId l) ->
  forall m,
    In m (map (fun br =>
                 Double.mkMarker
                   (PrimFloat.add (Double.timeInSeconds br)
                      (Double.getCumulativeAdDuration l
                         (Double.findIndexById l (Double.breakId br))))
                   (if str_truthy (Double.breakId br) then Double.breakId br
                    else "Ad " ++ VideoPlayerManager.ofZ
                                    (Double.findIndexById l (Double.breakId br) + 1)))
              (List.filter (Double.isMidroll cd) l)) <->
    exists i br,
      l !! i = Some br /\
      PrimFloat.ltb 0 (Double.timeInSeconds br) = true /\
      PrimFloat.ltb (Double.timeInSeconds br) cd = true /\
      m = Double.mkMarker
            (Double.startTime l i br)
            (if str_truthy (Double.breakId br) then Double.breakId br
             else "Ad " ++ JsString.ofNat (i + 1)).
Proof.
  intros Hnd m. rewrite in_map_iff. split.
  - intros (br & <- & Hbr). apply filter_In in Hbr. destruct Hbr as [Hin Hmid].
    apply list_elem_of_In, list_elem_of_lookup in Hin. destruct Hin as [i Hi].
    unfold Double.isMidroll, Double.lt_bool in Hmid. apply andb_true_iff in Hmid.
    destruct Hmid as [H0 Hcd].
    exists i, br. rewrite (double_findIndexById_NoDup l i br Hnd Hi).
    repeat split; try assumption. unfold Double.startTime. f_equal. f_equal.
    unfold VideoPlayerManager.ofZ.
    replace (Z.of_nat i + 1)%Z with (Z.of_nat (i + 1)) by lia.
    rewrite Nat2Z.id. now destruct (Z.of_nat (i + 1)) eqn:E; try lia.
  - intros (i & br & Hi & H0 & Hcd & ->). exists br. split.
    + rewrite (double_findIndexById_NoDup l i br Hnd Hi). unfold Double.startTime.
      f_equal. f_equal.
      unfold VideoPlayerManager.ofZ.
      replace (Z.of_nat i + 1)%Z with (Z.of_nat (i + 1)) by lia.
      rewrite Nat2Z.id. now destruct (Z.of_nat (i + 1)) eqn:E; try lia.
    + apply filter_In. split.
      * apply list_elem_of_In, list_elem_of_lookup. eauto.
      * unfold Double.isMidroll, Double.lt_bool. now apply andb_true_iff.
Qed.

Lemma double_cumulativeLoop_step rest : forall k i b total,
  rest !! i = Some b ->
  Double.cumulativeLoop rest k (Z.of_nat (k + S i)) total
  = PrimFloat.add (Double.cumulativeLoop rest k (Z.of_nat (k + i)) total)
                  (Double.adDuration b).
Proof.
  induction rest as [|x rest IH]; intros k i b total Hi; [discriminate|].
  simpl. destruct i as [|i].
  - injection Hi as ->. rewrite Nat.add_0_r.
    replace (Z.of_nat k <? Z.of_nat (k + 1))%Z with true by (symmetry; apply Z.ltb_lt; lia).
    rewrite Z.ltb_irrefl.
    destruct rest as [|y rest]; simpl; [reflexivity|].
    replace (Z.of_nat (S k) <? Z.of_nat (k + 1))%Z with false
      by (symmetry; apply Z.ltb_ge; lia).
    reflexivity.
  - replace (Z.of_nat k <? Z.of_nat (k + S (S i)))%Z with true
      by (symmetry; apply Z.ltb_lt; lia).
    replace (Z.of_nat k <? Z.of_nat (k + S i))%Z with true
      by (symmetry; apply Z.ltb_lt; lia).
    replace (k + S (S i))%nat with (S k + S i)%nat by lia.
    replace (k + S i)%nat with (S k + i)%nat by lia.
    now apply IH.
Qed.

(** In double precision, the cumulative duration up to and including a
    position is the one up to it plus that break's duration, rounded. *)
Lemma double_getCumulative_step l i b :
  l !! i = Some b ->
  Double.getCumulativeAdDuration l (Z.of_nat (S i))
  = PrimFloat.add (Double.getCumulativeAdDuration l (Z.of_nat i)) (Double.adDuration b).
Proof.
  intros Hi. unfold Double.getCumulativeAdDuration.
  exact (double_cumulativeLoop_step l 0 i b 0%float Hi).
Qed.

Lemma double_adDuration_default b :
  Double.truthy (Double.duration b) = false -> Double.adDuration b = 30%float.
Proof.
  unfold Double.adDuration, Double.or_default. intros H.
  destruct (Double.duration b) as [| |x]; try reflexivity.
  now rewrite H.
Qed.

(** A window that is not empty contains its own start. *)
Lemma double_window_contains_start l i br :
  PrimFloat.ltb (Double.startTime l i br) (Double.endTime l i br) = true ->
  Double.inWindow l i br (Double.startTime l i br).
Proof.
  intros H. split; [exact (double_leb_refl _ _ H)|exact H].
Qed.

(** Rounding makes consecutive windows overlap.  In [roundedSchedule],
    sorted and with positive durations, the second window ends at
    [(300 + 10.1) + 10.1 = 320.20000000000005] and the third starts at
    [300 + (10.1 + 10.1) = 320.2]: the sample 320.2 lies in both, and
    the second break is the one detected. *)
Lemma rounded_windows_overlap :
  Double.sortedByTime Double.roundedSchedule /\
  Double.nonNegativeDurations Double.roundedSchedule /\
  Double.roundedSchedule !! 1%nat
  = Some (Double.exampleBreak 1 300 "break_1" (Double.JNum 10.1)) /\
  Double.roundedSchedule !! 2%nat
  = Some (Double.exampleBreak 2 300 "break_2" (Double.JNum 30)) /\
  Double.startTime Double.roundedSchedule 2
    (Double.exampleBreak 2 300 "break_2" (Double.JNum 30)) = 320.2%float /\
  Double.endTime Double.roundedSchedule 1
    (Double.exampleBreak 1 300 "break_1" (Double.JNum 10.1)) = 320.20000000000005%float /\
  Double.inWindow Double.roundedSchedule 1
    (Double.exampleBreak 1 300 "break_1" (Double.JNum 10.1)) 320.2 /\
  Double.inWindow Double.roundedSchedule 2
    (Double.exampleBreak 2 300 "break_2" (Double.JNum 30)) 320.2 /\
  Double.detectActiveBreak Double.roundedSchedule 320.2
  = Some (1%nat, Double.exampleBreak 1 300 "break_1" (Double.JNum 10.1)).
Proof.
  split; [|split].
  - intros i j bi bj Hij Hi Hj.
    destruct i as [|[|[|i]]]; destruct j as [|[|[|j]]]; simpl in Hi, Hj;
      try discriminate; try lia; injection Hi as <-; injection Hj as <-; reflexivity.
  - repeat constructor.
  - repeat split; vm_compute; reflexivity.
Qed.

(* ===================================================================== *)
(** * Stream-relative detection (C1) *)
(* ===================================================================== *)

(** C1, counterexample.  In the sorted schedule [negativeDurationSchedule]
    the sample 29.5 lies in the shifted window [29, 59) of the break at
    position 2, yet [detectActiveBreak] returns the break at position 0,
    whose window [0, 30) also contains the sample.  Windows also overlap
    without a negative duration, by rounding: in [Double.roundedSchedule],
    sorted and with positive durations, the sample 320.2 lies in the
    window of the break at position 2, which starts at
    [300 + (10.1 + 10.1) = 320.2], yet the break at position 1 is
    returned, whose window ends at [(300 + 10.1) + 10.1], one unit in the
    last place later. *)
Lemma C1_counterexample :
  (sortedByTime negativeDurationSchedule /\
   negativeDurationSchedule !! 2%nat = Some (exampleBreak 2 0 "break_2" (JNum 30)) /\
   inWindow negativeDurationSchedule 2 (exampleBreak 2 0 "break_2" (JNum 30)) (59 # 2) /\
   Timeline.detectActiveBreak negativeDurationSchedule (59 # 2)
   = Some (0%nat, exampleBreak 0 0 "break_0" (JNum 30)) /\
   Timeline.detectActiveBreak negativeDurationSchedule (59 # 2)
   <> Some (2%nat, exampleBreak 2 0 "break_2" (JNum 30))) /\
  (Double.sortedByTime Double.roundedSchedule /\
   Double.nonNegativeDurations Double.roundedSchedule /\
   Double.roundedSchedule !! 2%nat
   = Some (Double.exampleBreak 2 300 "break_2" (Double.JNum 30)) /\
   Double.inWindow Double.roundedSchedule 2
     (Double.exampleBreak 2 300 "break_2" (Double.JNum 30)) 320.2 /\
   Double.detectActiveBreak Double.roundedSchedule 320.2
   = Some (1%nat, Double.exampleBreak 1 300 "break_1" (Double.JNum 10.1)) /\
   Double.detectActiveBreak Double.roundedSchedule 320.2
   <> Some (2%nat, Double.exampleBreak 2 300 "break_2" (Double.JNum 30))).
Proof.
  split.
  - split; [|split; [reflexivity|split; [|split; [reflexivity|discriminate]]]].
    + intros i j bi bj _ Hi Hj.
      assert (Ht : forall k b, negativeDurationSchedule !! k = Some b -> timeInSeconds b = 0).
      { intros [|[|[|k]]] b; simpl; intros [= <-] || discriminate; reflexivity. }
      rewrite (Ht _ _ Hi), (Ht _ _ Hj). lra.
    + unfold inWindow. split; vm_compute; [discriminate|reflexivity].
  - destruct rounded_windows_overlap as (Hs & Hn & _ & H2 & _ & _ & _ & Hw2 & Hd).
    split; [exact Hs|]. split; [exact Hn|]. split; [exact H2|]. split; [exact Hw2|].
    split; [exact Hd|]. rewrite Hd. discriminate.
Qed.

(** C1 (amended).  In stream-relative mode, for every clock sample [t]
    and every break list, the break at position [i] is the one
    [detectActiveBreak] returns if and only if [t] lies in its shifted
    window
    [timeInSeconds_i + cumulative(i) <= t < timeInSeconds_i + cumulative(i) + duration_i],
    computed in the player's double-precision arithmetic, and in the
    window of no earlier position: the first position whose window
    contains [t] is returned, and none is returned exactly when no window
    contains [t].  The same holds of the windows of the exact-arithmetic
    embedding, and [update] on an idle reconciler enters exactly the
    break detected.
    With a pre-roll of duration 30 and a mid-roll declared at 300 seconds
    (whose own duration reaches past the sample), the sample 329.9
    matches no break and 330.1 matches the mid-roll. *)
Theorem C1_interval_detection :
  (forall l t i b,
      Double.detectActiveBreak l t = Some (i, b) <->
      l !! i = Some b /\ Double.inWindow l i b t /\
      forall j y, (j < i)%nat -> l !! j = Some y -> ~ Double.inWindow l j y t) /\
  (forall l t i b,
      l !! i = Some b ->
      (forall j y, (j < i)%nat -> l !! j = Some y -> ~ Double.inWindow l j y t) ->
      (Double.detectActiveBreak l t = Some (i, b) <-> Double.inWindow l i b t)) /\
  (forall l t,
      Double.detectActiveBreak l t = None <->
      forall j y, l !! j = Some y -> ~ Double.inWindow l j y t) /\
  (forall l t i b,
      Timeline.detectActiveBreak l t = Some (i, b) <->
      l !! i = Some b /\ inWindow l i b t /\
      forall j y, (j < i)%nat -> l !! j = Some y -> ~ inWindow l j y t) /\
  (forall s t i r,
      Manager.isInAdBreak s = false ->
      Manager.detectActiveBreak s t = Some (i, r) ->
      Manager.currentAdBreak (Manager.state (Manager.update t s)) = Some r /\
      Manager.isInAdBreak (Manager.state (Manager.update t s)) = true) /\
  (forall pre mid,
      Double.timeInSeconds pre = 0%float -> Double.adDuration pre = 30%float ->
      Double.timeInSeconds mid = 300%float ->
      PrimFloat.ltb 330.1 (PrimFloat.add 330 (Double.adDuration mid)) = true ->
      Double.detectActiveBreak [pre; mid] 329.9 = None /\
      Double.detectActiveBreak [pre; mid] 330.1 = Some (1%nat, mid)).
Proof.
  split; [exact double_detect_first|]. split; [|split; [exact double_detect_none|]].
  { intros l t i b Hi Hfirst. rewrite double_detect_first. split.
    - intros (_ & Hw & _). exact Hw.
    - intros Hw. repeat split; auto; apply Hw. }
  split; [exact detectActiveBreak_first|]. split.
  - intros s t i r Hidle Hd.
    unfold Manager.update. rewrite Hd, Hidle.
    pose proof (manager_detect_position _ _ _ _ Hd) as Hpos.
    destruct (Manager.adBreaks s) as [|r0 rs]; [discriminate|].
    simpl. auto.
  - intros pre mid Hp0 Hpd Hm0 Hmd.
    assert (Hs0 : Double.startTime [pre; mid] 0 pre = 0%float).
    { unfold Double.startTime. rewrite Hp0. reflexivity. }
    assert (He0 : Double.endTime [pre; mid] 0 pre = 30%float).
    { unfold Double.endTime. rewrite Hs0, Hpd. reflexivity. }
    assert (Hs1 : Double.startTime [pre; mid] 1 mid = 330%float).
    { unfold Double.startTime, Double.getCumulativeAdDuration. simpl.
      rewrite Hm0, Hpd. reflexivity. }
    split.
    + apply double_detect_none.
      intros [|[|j]] y; simpl; intros [= <-] || discriminate;
        unfold Double.inWindow; intros [Ha Hb].
      * rewrite He0 in Hb. discriminate.
      * rewrite Hs1 in Ha. discriminate.
    + apply double_detect_first. split; [reflexivity|]. split.
      * unfold Double.inWindow, Double.endTime. rewrite Hs1. split; [reflexivity|exact Hmd].
      * intros [|j] y Hj; [|lia]. simpl. intros [= <-].
        unfold Double.inWindow. rewrite He0. intros [_ Hb]. discriminate.
Qed.

(** C1, instance: the schedule [Double.prerollMidroll] at the sample
    330.1, which the pre-roll's window does not contain. *)
Lemma C1_witness :
  Double.prerollMidroll !! 1%nat
  = Some (Double.exampleBreak 1 300 "break_1" (Double.JNum 30)) /\
  (Double.detectActiveBreak Double.prerollMidroll 330.1
   = Some (1%nat, Double.exampleBreak 1 300 "break_1" (Double.JNum 30))
   <-> Double.inWindow Double.prerollMidroll 1
         (Double.exampleBreak 1 300 "break_1" (Double.JNum 30)) 330.1).
Proof.
  split; [reflexivity|].
  apply (proj1 (proj2 C1_interval_detection) Double.prerollMidroll 330.1%float 1%nat _ eq_refl).
  intros [|j] y Hj; [|lia]. simpl. intros [= <-] [_ Hb]. vm_compute in Hb. discriminate.
Defined.

(* ===================================================================== *)
(** * Cumulative duration (C2) *)
(* ===================================================================== *)



(* ===================================================================== *)
(** * The replay guard (C3) *)
(* ===================================================================== *)

(** C3, counterexample.  With a pre-roll (position 0) and a mid-roll
    (position 1), each carrying its position as index: the pre-roll is
    triggered and its ad left, then the mid-roll is triggered and its ad
    left, then the user seeks back to the start; the sample 0.2 triggers
    the pre-roll a second time. *)
Lemma C3_counterexample :
  ClientSwap.indexIsPosition clientSwapSchedule /\
  List.filter isLifecycleEffect replayLog
  = [ClientSwap.Triggered 0; ClientSwap.AdExited 0;
     ClientSwap.Triggered 1; ClientSwap.AdExited 1;
     ClientSwap.Triggered 0] /\
  ~ ClientSwap.neverRetriggered replayLog.
Proof.
  split; [exact clientSwapSchedule_indexed|]. split; [vm_compute; reflexivity|].
  intros H.
  apply (H 0%nat [] (firstn 7 (skipn 1 replayLog)) (skipn 9 replayLog)).
  - vm_compute. reflexivity.
  - vm_compute. repeat (try (left; reflexivity); right).
Qed.

(** C3 (amended).  In content-relative client-swap mode, for every
    schedule whose breaks carry their position in the sorted list as
    index, and every sequence of player and network events: once a break
    has been triggered, no later clock sample triggers that break again
    unless, in between, a different break was triggered or a failed ad
    fetch cleared the guard.  The guard remembers the most recently
    triggered break only: a sample never triggers the break whose position
    [lastTriggeredBreakIndex] holds. *)
Theorem C3_replay_guard :
  forall s events,
    ClientSwap.indexIsPosition (ClientSwap.adBreaks s) ->
    (forall pos l1 l2 l3,
        snd (ClientSwap.run events s)
        = l1 ++ ClientSwap.Triggered pos :: l2 ++ ClientSwap.Triggered pos :: l3 ->
        exists e, In e l2 /\ ClientSwap.releasesGuard pos e) /\
    (forall t pos,
        ClientSwap.lastTriggeredBreakIndex s = Z.of_nat pos ->
        ~ In (ClientSwap.Triggered pos) (snd (ClientSwap.handleContentTimeUpdate t s))).
Proof.
  intros s events Hidx. split.
  - intros pos l1 l2 l3 Hlog.
    assert (Hg : guardAgrees None s) by (intros p; discriminate).
    destruct (run_guarded events None s Hidx Hg) as (Hw & _).
    rewrite Hlog in Hw. apply wellGuarded_app in Hw. destruct Hw as (_ & Hw).
    simpl in Hw. destruct Hw as (_ & Hw).
    now apply wellGuarded_between in Hw.
  - intros t pos Hlast.
    unfold ClientSwap.handleContentTimeUpdate.
    destruct (ClientSwap.currentAd s) as [cur|] eqn:Ec; [intros []|].
    destruct (ClientSwap.contentSource s) as [c|]; [|intros []].
    destruct (ClientSwap.playerSrc s) as [p|]; [|intros []].
    destruct (negb _); [intros []|].
    destruct (ClientSwap.scanBreaks _ _ _ _ _) as [q|] eqn:Es; [|intros []].
    apply scanBreaks_not_last in Es.
    unfold ClientSwap.triggerAdBreak. rewrite Ec.
    destruct (ClientSwap.adBreaks s !! q) as [br|]; [|intros []].
    simpl. intros [[= ->]|[]]. apply Es. exact Hlast.
Qed.

(** C3, instance: in [replayLog] the two triggerings of the pre-roll are
    separated by the triggering of the mid-roll. *)
Lemma C3_witness :
  ClientSwap.indexIsPosition
    (ClientSwap.adBreaks
       (ClientSwap.loaded clientSwapSchedule 596 "https://cdn.example/content.mp4")) /\
  (exists e,
      In e (firstn 27 (skipn 1 replayLog)) /\ ClientSwap.releasesGuard 0%nat e).
Proof.
  split; [exact clientSwapSchedule_indexed|].
  refine (proj1 (C3_replay_guard
                   (ClientSwap.loaded clientSwapSchedule 596
                                      "https://cdn.example/content.mp4")
                   replayTrace clientSwapSchedule_indexed)
                0%nat [] (firstn 27 (skipn 1 replayLog)) [] _).
  vm_compute. reflexivity.
Defined.

(* ===================================================================== *)
(** * Late metadata resolution (C4) *)
(* ===================================================================== *)

(** C4.  When an ad-metadata resolution completes, the code compares no
    break identity: whatever break is active at that moment receives the
    result.  The completion leaves [isInAdBreak], the [currentAdBreak]
    reference and the break array unchanged, so it never makes an exited
    break active again, and it never changes a break's index, time,
    identifier or locator.  But when a break is active -- the triggering
    one or another -- and the response holds a playable creative,
    [startAdBreak] writes the resolved click-through, duration and skip
    offset to that break, and [initializeAdTracking] its duration and
    skip offset, and its click-through when the creative has one.  When no
    break is active, no break field is written, [startAdBreak] ends in a
    [TypeError] and [initializeAdTracking] catches it.
    In [midrollActive], where the pre-roll has been left and the mid-roll
    is active, the pre-roll's late result (duration 15, skip delay 3) is
    written to the mid-roll, whose window shrinks from [330, 360) to
    [315, 330), so that the next clock sample ends it; in [prerollLeft]
    the completion raises. *)
Theorem C4_late_resolution :
  (forall breakInfo o s,
      let r := Manager.startAdBreak_resume breakInfo o s in
      let r' := Manager.initializeAdTracking_resume breakInfo o s in
      (Manager.isInAdBreak (Manager.state r) = Manager.isInAdBreak s /\
       Manager.currentAdBreak (Manager.state r) = Manager.currentAdBreak s /\
       Manager.adBreaks (Manager.state r) = Manager.adBreaks s /\
       (forall a, sameIdentity (Manager.heap (Manager.state r) a) (Manager.heap s a))) /\
      (Manager.currentAdBreak s = None ->
       forall a, Manager.heap (Manager.state r) a = Manager.heap s a) /\
      (forall cur validAd creative,
          Manager.currentAdBreak s = Some cur ->
          Manager.vastUrl_truthy (vastUrl (Manager.heap s breakInfo)) = true ->
          Resolver.selectCreative o = Some (validAd, creative) ->
          duration (Manager.heap (Manager.state r) cur)
          = JNum (Resolver.duration (Resolver.metadataOf creative)) /\
          skipOffset (Manager.heap (Manager.state r) cur)
          = JNum (Resolver.skipOffset (Resolver.metadataOf creative)) /\
          clickThrough (Manager.heap (Manager.state r) cur)
          = Resolver.clickThrough (Resolver.metadataOf creative) /\
          Manager.thrown r = None /\
          duration (Manager.heap (Manager.state r') cur)
          = JNum (or_default (Vast.duration creative) 30) /\
          skipOffset (Manager.heap (Manager.state r') cur)
          = JNum (or_default (Vast.skipDelay creative) 5) /\
          clickThrough (Manager.heap (Manager.state r') cur)
          = match Vast.clickThroughOf (Vast.videoClickThroughURLTemplate creative) with
            | Some c => Some c
            | None => clickThrough (Manager.heap s cur)
            end) /\
      (forall validAd creative,
          Manager.currentAdBreak s = None ->
          Manager.vastUrl_truthy (vastUrl (Manager.heap s breakInfo)) = true ->
          Resolver.selectCreative o = Some (validAd, creative) ->
          Manager.thrown r = Some Manager.TypeError) /\
      (Manager.isInAdBreak (Manager.state r') = Manager.isInAdBreak s /\
       Manager.currentAdBreak (Manager.state r') = Manager.currentAdBreak s /\
       Manager.adBreaks (Manager.state r') = Manager.adBreaks s /\
       (forall a, sameIdentity (Manager.heap (Manager.state r') a) (Manager.heap s a))) /\
      (Manager.currentAdBreak s = None ->
       forall a, Manager.heap (Manager.state r') a = Manager.heap s a) /\
      Manager.thrown r' = None) /\
  (Manager.currentAdBreak midrollActive = Some 1%nat /\
   duration (Manager.heap midrollActive 1) = JNum 30 /\
   skipOffset (Manager.heap midrollActive 1) = JNum 5 /\
   Manager.detectActiveBreak midrollActive 331 = Some (1%nat, 1%nat) /\
   duration (Manager.heap
               (Manager.state
                  (Manager.startAdBreak_resume 0 (responseWith (JNum 15) (JNum 3))
                                               midrollActive)) 1)
   = JNum 15 /\
   skipOffset (Manager.heap
                 (Manager.state
                    (Manager.startAdBreak_resume 0 (responseWith (JNum 15) (JNum 3))
                                                 midrollActive)) 1)
   = JNum 3 /\
   duration (Manager.heap
               (Manager.state
                  (Manager.startAdBreak_resume 0 (responseWith (JNum 15) (JNum 3))
                                               midrollActive)) 0)
   = JNum 15 /\
   Manager.detectActiveBreak
     (Manager.state (Manager.startAdBreak_resume 0 (responseWith (JNum 15) (JNum 3))
                                                 midrollActive)) 331
   = None /\
   ~ lateResultDiscarded 0 (responseWith (JNum 15) (JNum 3)) midrollActive) /\
  (Manager.currentAdBreak prerollLeft = None /\
   Manager.thrown (Manager.startAdBreak_resume 0 (responseWith (JNum 15) (JNum 3))
                                               prerollLeft)
   = Some Manager.TypeError /\
   Manager.thrown (Manager.initializeAdTracking_resume 0 (responseWith (JNum 15) (JNum 3))
                                                       prerollLeft)
   = None /\
   Manager.effects (Manager.initializeAdTracking_resume 0 (responseWith (JNum 15) (JNum 3))
                                                        prerollLeft)
   = [Manager.ConsoleError "[TRACKING] Failed to initialize VAST tracker"] /\
   ~ lateResultDiscarded 0 (responseWith (JNum 15) (JNum 3)) prerollLeft) /\
  (duration (Manager.heap
               (Manager.state
                  (Manager.initializeAdTracking_resume 0 (responseWith (JNum 15) (JNum 3))
                                                       midrollActive)) 1)
   = JNum 15 /\
   skipOffset (Manager.heap
                 (Manager.state
                    (Manager.initializeAdTracking_resume 0 (responseWith (JNum 15) (JNum 3))
                                                         midrollActive)) 1)
   = JNum 3).
Proof.
  split; [|exact late_resolution_examples].
  intros breakInfo o s r r'.
  destruct (initializeAdTracking_resume_frame breakInfo o s) as (L1 & L2 & L3).
  fold r' in L1, L2, L3.
  assert (Hwr : forall cur validAd creative,
            Manager.currentAdBreak s = Some cur ->
            Manager.vastUrl_truthy (vastUrl (Manager.heap s breakInfo)) = true ->
            Resolver.selectCreative o = Some (validAd, creative) ->
            duration (Manager.heap (Manager.state r) cur)
            = JNum (Resolver.duration (Resolver.metadataOf creative)) /\
            skipOffset (Manager.heap (Manager.state r) cur)
            = JNum (Resolver.skipOffset (Resolver.metadataOf creative)) /\
            clickThrough (Manager.heap (Manager.state r) cur)
            = Resolver.clickThrough (Resolver.metadataOf creative) /\
            Manager.thrown r = None /\
            duration (Manager.heap (Manager.state r') cur)
            = JNum (or_default (Vast.duration creative) 30) /\
            skipOffset (Manager.heap (Manager.state r') cur)
            = JNum (or_default (Vast.skipDelay creative) 5) /\
            clickThrough (Manager.heap (Manager.state r') cur)
            = match Vast.clickThroughOf (Vast.videoClickThroughURLTemplate creative) with
              | Some c => Some c
              | None => clickThrough (Manager.heap s cur)
              end).
  { intros cur validAd creative Hc Hu Hsel.
    destruct (late_resolution_writes breakInfo o s cur validAd creative Hc Hu Hsel)
      as (Hr & Ht & Hd' & Hk' & Hc').
    fold r in Hr, Ht. fold r' in Hd', Hk', Hc'. rewrite Hr.
    repeat split; try reflexivity; assumption. }
  assert (Hthrow : forall validAd creative,
            Manager.currentAdBreak s = None ->
            Manager.vastUrl_truthy (vastUrl (Manager.heap s breakInfo)) = true ->
            Resolver.selectCreative o = Some (validAd, creative) ->
            Manager.thrown r = Some Manager.TypeError).
  { intros validAd creative Hc Hu Hsel. subst r. unfold Manager.startAdBreak_resume.
    rewrite Hu, Hsel. cbn [negb]. cbv zeta.
    change (Manager.currentAdBreak (Manager.set_vastTracker (Some (validAd, creative)) s))
      with (Manager.currentAdBreak s).
    now rewrite Hc. }
  assert (HL : Manager.currentAdBreak s = None ->
               forall a, Manager.heap (Manager.state r') a = Manager.heap s a).
  { intros Hn a. now rewrite (L3 Hn). }
  assert (HF : framedBy (Manager.state r) s /\
               (Manager.currentAdBreak s = None ->
                forall a, Manager.heap (Manager.state r) a = Manager.heap s a)).
  { destruct (startAdBreak_resume_cases breakInfo o s) as
      [(Hs & Ht)|[(validAd & creative & Hu & Hsel & Hc & Hs & Ht)
                 |(validAd & creative & cur & z & Hu & Hsel & Hc & Hs & Ht)]];
      fold r in Hs, Ht; rewrite Hs.
    - split; [apply framedBy_refl|reflexivity].
    - split; [apply framedBy_tracker|reflexivity].
    - split; [|intros; congruence].
      eapply framedBy_trans; [apply framedBy_masterList|].
      eapply framedBy_trans; [apply framedBy_store; intros b; repeat split|].
      apply framedBy_tracker. }
  destruct HF as (HF & HN).
  split; [exact HF|]. split; [exact HN|]. split; [exact Hwr|]. split; [exact Hthrow|].
  split; [exact L1|]. split; [exact HL|exact L2].
Qed.

(** C4, instance: the late completion in [prerollLeft] writes no break
    field and raises; in [midrollActive] it writes to the mid-roll. *)
Lemma C4_witness :
  (Manager.currentAdBreak prerollLeft = None /\
   forall a,
     Manager.heap (Manager.state (Manager.startAdBreak_resume
                                    0 (responseWith (JNum 15) (JNum 3)) prerollLeft)) a
     = Manager.heap prerollLeft a) /\
  (Manager.currentAdBreak midrollActive = Some 1%nat /\
   duration (Manager.heap (Manager.state (Manager.startAdBreak_resume
                                            0 (responseWith (JNum 15) (JNum 3))
                                            midrollActive)) 1)
   = JNum (Resolver.duration (Resolver.metadataOf (creativeWith (JNum 15) (JNum 3))))).
Proof.
  split.
  - split; [reflexivity|].
    apply (proj1 (proj2 (proj1 C4_late_resolution 0%nat (responseWith (JNum 15) (JNum 3))
                           prerollLeft))).
    reflexivity.
  - split; [reflexivity|].
    exact (proj1 (proj1 (proj2 (proj2 (proj1 C4_late_resolution 0%nat
                                         (responseWith (JNum 15) (JNum 3)) midrollActive)))
                    1%nat _ (creativeWith (JNum 15) (JNum 3)) eq_refl eq_refl eq_refl)).
Defined.

(* ===================================================================== *)
(** * State invariant and single match (C5) *)
(* ===================================================================== *)

(** C5, counterexample.  The shifted windows of a sorted schedule with
    non-negative durations can overlap.  In [Double.roundedSchedule] the
    window of the break at position 1 ends at
    [(300 + 10.1) + 10.1 = 320.20000000000005] and the window of the
    break at position 2 starts at [300 + (10.1 + 10.1) = 320.2]: the
    sample 320.2 lies in both. *)
Lemma C5_counterexample :
  Double.sortedByTime Double.roundedSchedule /\
  Double.nonNegativeDurations Double.roundedSchedule /\
  Double.roundedSchedule !! 1%nat
  = Some (Double.exampleBreak 1 300 "break_1" (Double.JNum 10.1)) /\
  Double.roundedSchedule !! 2%nat
  = Some (Double.exampleBreak 2 300 "break_2" (Double.JNum 30)) /\
  PrimFloat.ltb
    (Double.startTime Double.roundedSchedule 2
       (Double.exampleBreak 2 300 "break_2" (Double.JNum 30)))
    (Double.endTime Double.roundedSchedule 1
       (Double.exampleBreak 1 300 "break_1" (Double.JNum 10.1))) = true /\
  Double.inWindow Double.roundedSchedule 1
    (Double.exampleBreak 1 300 "break_1" (Double.JNum 10.1)) 320.2 /\
  Double.inWindow Double.roundedSchedule 2
    (Double.exampleBreak 2 300 "break_2" (Double.JNum 30)) 320.2 /\
  ~ (forall i j bi bj t,
        Double.roundedSchedule !! i = Some bi -> Double.roundedSchedule !! j = Some bj ->
        Double.inWindow Double.roundedSchedule i bi t ->
        Double.inWindow Double.roundedSchedule j bj t -> i = j).
Proof.
  destruct rounded_windows_overlap as (Hs & Hn & H1 & H2 & Hs2 & He1 & Hw1 & Hw2 & _).
  split; [exact Hs|]. split; [exact Hn|]. split; [exact H1|]. split; [exact H2|].
  split; [rewrite Hs2, He1; reflexivity|]. split; [exact Hw1|]. split; [exact Hw2|].
  intros H. specialize (H 1%nat 2%nat _ _ _ H1 H2 Hw1 Hw2). discriminate.
Qed.

(** C5 (amended).  The reconciler's invariant
    [isInAdBreak <-> currentAdBreak non-null] holds after construction and
    is kept by every operation ([setAdBreaks], [update], [startAdBreak]
    and its continuation, [endAdBreak], [updateProgress], [skipCurrentAd],
    [reset]), hence after any sequence of them.  At most one break is
    matched for a clock sample and at most one is active: when several
    shifted windows contain the sample, [detectActiveBreak] returns the
    break of the first of them; an idle reconciler enters the break
    detected, if any; and while a break is active [update] keeps it or
    ends it, and never replaces it by another break. *)
Theorem C5_invariant_and_single_match :
  (forall h, stateInvariant (Manager.constructor h)) /\
  (forall op s, stateInvariant s -> stateInvariant (Manager.state (Manager.exec op s))) /\
  (forall ops h, stateInvariant (Manager.run ops (Manager.constructor h))) /\
  (forall l t i b j b',
      Double.detectActiveBreak l t = Some (i, b) ->
      l !! j = Some b' -> Double.inWindow l j b' t -> (i <= j)%nat) /\
  (forall l t j b',
      l !! j = Some b' -> Double.inWindow l j b' t ->
      exists i b, Double.detectActiveBreak l t = Some (i, b) /\ (i <= j)%nat) /\
  (forall s t i r j r',
      Manager.detectActiveBreak s t = Some (i, r) ->
      Manager.adBreaks s !! j = Some r' ->
      inWindow (Manager.breaks s) j (Manager.heap s r') t -> (i <= j)%nat) /\
  (forall s t,
      stateInvariant s -> Manager.currentAdBreak s = None ->
      match Manager.detectActiveBreak s t with
      | Some (_, r) =>
          Manager.currentAdBreak (Manager.state (Manager.update t s)) = Some r
      | None => Manager.state (Manager.update t s) = s
      end) /\
  (forall s t cur,
      stateInvariant s -> Manager.currentAdBreak s = Some cur ->
      Manager.currentAdBreak (Manager.state (Manager.update t s)) = Some cur \/
      Manager.currentAdBreak (Manager.state (Manager.update t s)) = None).
Proof.
  split; [|split; [|split; [|split; [|split; [|split; [|split]]]]]].
  - intros h. unfold stateInvariant. simpl. split; [discriminate|congruence].
  - exact exec_preserves_invariant.
  - intros ops h.
    assert (H : forall s, stateInvariant s -> stateInvariant (Manager.run ops s)).
    { induction ops as [|op ops IH]; intros s Hs; simpl; [exact Hs|].
      apply IH. now apply exec_preserves_invariant. }
    apply H. unfold stateInvariant. simpl. split; [discriminate|congruence].
  - intros l t i b j b' Hd Hj Hw.
    apply double_detect_first in Hd. destruct Hd as (_ & _ & Hfirst).
    destruct (Nat.le_gt_cases i j) as [H|H]; [exact H|].
    exfalso. exact (Hfirst j b' H Hj Hw).
  - intros l t j b' Hj Hw.
    destruct (double_detect_some l t j b' Hj Hw) as (i & b & Hd & Hle & _).
    exists i, b. now split.
  - intros s t i r j r' Hd Hj Hw.
    pose proof (manager_detect_position _ _ _ _ Hd) as Hi.
    apply (manager_detect_iff s t i r Hi) in Hd.
    apply detectActiveBreak_first in Hd. destruct Hd as (_ & _ & Hfirst).
    destruct (Nat.le_gt_cases i j) as [H|H]; [exact H|].
    exfalso. apply (Hfirst j (Manager.heap s r') H); [|exact Hw].
    now apply breaks_lookup.
  - intros s t Hinv Hcur.
    assert (Hflag : Manager.isInAdBreak s = false).
    { destruct (Manager.isInAdBreak s) eqn:E; [|reflexivity].
      exfalso. now apply (proj1 Hinv). }
    unfold Manager.update. rewrite Hflag.
    destruct (Manager.detectActiveBreak s t) as [[i r]|] eqn:Hd.
    + pose proof (manager_detect_position _ _ _ _ Hd) as Hpos.
      destruct (Manager.adBreaks s); [discriminate|reflexivity].
    + now destruct (Manager.adBreaks s).
  - intros s t cur Hinv Hcur.
    assert (Hflag : Manager.isInAdBreak s = true).
    { apply (proj2 Hinv). congruence. }
    unfold Manager.update. rewrite Hflag, Hcur.
    destruct (Manager.adBreaks s); [left; exact Hcur|].
    destruct (Manager.detectActiveBreak s t) as [[i r]|].
    + left. unfold Manager.updateProgress. rewrite Hcur. exact Hcur.
    + right. reflexivity.
Qed.

(** C5, instance: the invariant after a sample inside the pre-roll of
    [prerollMidroll], and the sample 320.2 in [Double.roundedSchedule],
    which two windows contain. *)
Lemma C5_witness :
  stateInvariant
    (Manager.state (Manager.exec (Manager.OUpdate (1 # 10))
                                 (managerWith prerollMidroll None None))) /\
  Double.detectActiveBreak Double.roundedSchedule 320.2
  = Some (1%nat, Double.exampleBreak 1 300 "break_1" (Double.JNum 10.1)) /\
  Double.inWindow Double.roundedSchedule 2
    (Double.exampleBreak 2 300 "break_2" (Double.JNum 30)) 320.2 /\
  (1 <= 2)%nat.
Proof.
  destruct rounded_windows_overlap as (_ & _ & _ & H2 & _ & _ & _ & Hw2 & Hd).
  split.
  - apply (proj1 (proj2 C5_invariant_and_single_match)).
    unfold stateInvariant. simpl. split; [discriminate|congruence].
  - split; [exact Hd|]. split; [exact Hw2|].
    exact (proj1 (proj2 (proj2 (proj2 C5_invariant_and_single_match)))
             _ _ _ _ _ _ Hd H2 Hw2).
Defined.

(* ===================================================================== *)
(** * Skip (C6) *)
(* ===================================================================== *)

(** [skipCurrentAd] with a duplicated identifier.  In [duplicateIdState]
    the active break is the second of two breaks that carry the same
    [breakId]; its shifted window is [330, 360), yet [skipCurrentAd]
    seeks to 330: the position is looked up by [breakId] and the first
    holder is found.  A clock sample at 330 is still inside the active
    break, which [update] keeps. *)
Lemma skip_with_duplicate_id :
  Manager.currentAdBreak duplicateIdState = Some 1%nat /\
  Manager.adBreaks duplicateIdState !! 1%nat = Some 1%nat /\
  Manager.detectActiveBreak duplicateIdState (3301 # 10) = Some (1%nat, 1%nat) /\
  Timeline.startTime (Manager.breaks duplicateIdState) 1
                     (Manager.heap duplicateIdState 1) == 330 /\
  adDuration (Manager.heap duplicateIdState 1) == 30 /\
  Manager.effects (Manager.skipCurrentAd true duplicateIdState)
  = [Manager.EmitterCall Manager.MTrackSkip; Manager.Seek (300 + 0 + 30)] /\
  300 + 0 + 30 == 330 /\
  ~ 300 + 0 + 30
    == Timeline.startTime (Manager.breaks duplicateIdState) 1
                          (Manager.heap duplicateIdState 1)
       + adDuration (Manager.heap duplicateIdState 1) /\
  Manager.detectActiveBreak duplicateIdState (300 + 0 + 30) = Some (1%nat, 1%nat) /\
  Manager.currentAdBreak
    (Manager.state (Manager.update (300 + 0 + 30)
                      (Manager.state (Manager.skipCurrentAd true duplicateIdState))))
  = Some 1%nat /\
  Manager.detectActiveBreak duplicateIdState 360 = None.
Proof.
  repeat split; try reflexivity. vm_compute. discriminate.
Qed.

(** C6.  When a break is active in stream-relative mode and no earlier
    entry of the break list carries the same [breakId], [skipCurrentAd]
    computes its seek target as the break's shifted start
    ([timeInSeconds] plus the cumulative prior ad durations) plus its
    duration -- a shifted start of 330 and a duration of 30 give 360 --
    calls the tracking emitter's [trackSkip] exactly once (the session's
    skip event goes out when a session exists), issues exactly one seek,
    to that target, and leaves the reconciler's state, [isInAdBreak] and
    [currentAdBreak] included, unchanged.
    The position of the active break is looked up by [breakId], not
    taken from the array position [detectActiveBreak] uses for the same
    window.  In [duplicateIdState], where the active break is the second
    of two breaks with the same identifier and its window is [330, 360),
    the seek goes to 330, the start of that window: the next clock
    sample is still inside the break and the ad is not left. *)
Theorem C6_skip_current_ad :
  (forall s cur p,
      Manager.currentAdBreak s = Some cur ->
      Manager.adBreaks s !! p = Some cur ->
      (forall j r, (j < p)%nat -> Manager.adBreaks s !! j = Some r ->
                   breakId (Manager.heap s r) <> breakId (Manager.heap s cur)) ->
      let target := Timeline.startTime (Manager.breaks s) p (Manager.heap s cur)
                    + adDuration (Manager.heap s cur) in
      let r := Manager.skipCurrentAd true s in
      Manager.effects r
      = Manager.tracker_event Manager.MTrackSkip Manager.Skip s ++ [Manager.Seek target] /\
      Manager.countEffects Manager.isSeek (Manager.effects r) = 1%nat /\
      Manager.countEffects Manager.isTrackSkipCall (Manager.effects r) = 1%nat /\
      Manager.countEffects Manager.isSkipPixel (Manager.effects r)
      = match Manager.vastTracker s with Some _ => 1%nat | None => 0%nat end /\
      Manager.state r = s /\ Manager.thrown r = None /\
      (Timeline.startTime (Manager.breaks s) p (Manager.heap s cur) == 330 ->
       adDuration (Manager.heap s cur) == 30 -> target == 360)) /\
  Manager.effects
    (Manager.skipCurrentAd true (managerWith prerollMidroll (Some 1%nat) None))
  = [Manager.EmitterCall Manager.MTrackSkip; Manager.Seek (330 + 30)] /\
  (Manager.currentAdBreak duplicateIdState = Some 1%nat /\
   Manager.adBreaks duplicateIdState !! 1%nat = Some 1%nat /\
   Manager.detectActiveBreak duplicateIdState (3301 # 10) = Some (1%nat, 1%nat) /\
   Timeline.startTime (Manager.breaks duplicateIdState) 1
                      (Manager.heap duplicateIdState 1) == 330 /\
   adDuration (Manager.heap duplicateIdState 1) == 30 /\
   Manager.effects (Manager.skipCurrentAd true duplicateIdState)
   = [Manager.EmitterCall Manager.MTrackSkip; Manager.Seek (300 + 0 + 30)] /\
   300 + 0 + 30 == 330 /\
   ~ 300 + 0 + 30
     == Timeline.startTime (Manager.breaks duplicateIdState) 1
                           (Manager.heap duplicateIdState 1)
        + adDuration (Manager.heap duplicateIdState 1) /\
   Manager.detectActiveBreak duplicateIdState (300 + 0 + 30) = Some (1%nat, 1%nat) /\
   Manager.currentAdBreak
     (Manager.state (Manager.update (300 + 0 + 30)
                       (Manager.state (Manager.skipCurrentAd true duplicateIdState))))
   = Some 1%nat /\
   Manager.detectActiveBreak duplicateIdState 360 = None).
Proof.
  split; [|split; [reflexivity|exact skip_with_duplicate_id]].
  intros s cur p Hc Hp Hfirst target r.
  assert (Hidx : Timeline.findIndexById (Manager.breaks s) (breakId (Manager.heap s cur))
                 = Z.of_nat p).
  { unfold Timeline.findIndexById.
    rewrite (findIndexFrom_first _ _ 0 p (Manager.heap s cur)); [reflexivity| |reflexivity|].
    - now apply breaks_lookup.
    - intros k' y Hlt Hy. unfold Manager.breaks in Hy.
      rewrite list_lookup_fmap in Hy.
      destruct (Manager.adBreaks s !! k') as [r'|] eqn:Er; [|discriminate].
      injection Hy as <-. exact (Hfirst k' r' Hlt Er). }
  assert (Hfx : Manager.effects r
                = Manager.tracker_event Manager.MTrackSkip Manager.Skip s
                    ++ [Manager.Seek target]).
  { subst r target. unfold Manager.skipCurrentAd. rewrite Hc. simpl.
    rewrite Hidx. reflexivity. }
  split; [exact Hfx|].
  rewrite Hfx. unfold Manager.tracker_event, Manager.countEffects.
  repeat split.
  - destruct (Manager.vastTracker s); reflexivity.
  - destruct (Manager.vastTracker s); reflexivity.
  - destruct (Manager.vastTracker s); reflexivity.
  - subst r. unfold Manager.skipCurrentAd. now rewrite Hc.
  - subst r. unfold Manager.skipCurrentAd. now rewrite Hc.
  - intros H1 H2. subst target. lra.
Qed.

(** C6, instance: the mid-roll of [prerollMidroll] is active. *)
Lemma C6_witness :
  Manager.currentAdBreak (managerWith prerollMidroll (Some 1%nat) None) = Some 1%nat /\
  Manager.adBreaks (managerWith prerollMidroll (Some 1%nat) None) !! 1%nat = Some 1%nat /\
  Manager.countEffects Manager.isSeek
    (Manager.effects (Manager.skipCurrentAd true
                        (managerWith prerollMidroll (Some 1%nat) None))) = 1%nat.
Proof.
  split; [reflexivity|]. split; [reflexivity|].
  refine (proj1 (proj2 (proj1 C6_skip_current_ad
            (managerWith prerollMidroll (Some 1%nat) None) 1%nat 1%nat
            eq_refl eq_refl _))).
  intros [|[|j]] r Hlt; [|lia|lia]. simpl. intros [= <-]. discriminate.
Defined.

(* ===================================================================== *)
(** * Time-offset parsing (C7) *)
(* ===================================================================== *)

(** C7.  [parseTimeOffset] is a total function of the offset string and
    the content duration (it has no error result: nothing in it can
    throw).  It returns 0 for the literal ["start"]; the content duration
    for the literal ["end"]; for any other string whose trimmed text
    splits at [":"] into exactly three components,
    [H * 3600 + M * 60 + S], where [H] and [M] are what [parseInt] reads
    from the first two components and [S] what [parseFloat] reads from the
    third, each taken as 0 when nothing numeric is read; in particular for
    components that are strings of decimal digits it is their values so
    combined (["00:01:30"] yields 90, and printed naturals [h:m:s] yield
    [h*3600 + m*60 + s]); and 0 for every other string. *)
Theorem C7_parse_time_offset :
  (forall timeOffset cd, exists v, VMAPService.parseTimeOffset timeOffset cd = v) /\
  (forall cd, VMAPService.parseTimeOffset "start" cd = 0) /\
  (forall cd, VMAPService.parseTimeOffset "end" cd = cd) /\
  (forall timeOffset cd p0 p1 p2,
      timeOffset <> "start" -> timeOffset <> "end" ->
      JsString.split ":" (JsString.trim timeOffset) = [p0; p1; p2] ->
      VMAPService.parseTimeOffset timeOffset cd
      = VMAPService.intOrZero p0 * 3600 + VMAPService.intOrZero p1 * 60
        + VMAPService.floatOrZero p2) /\
  (forall p, JsString.parseInt p = None -> VMAPService.intOrZero p = 0) /\
  (forall p, JsString.parseFloat p = None -> VMAPService.floatOrZero p = 0) /\
  (JsString.parseInt "" = None /\ JsString.parseFloat "" = None /\
   JsString.parseInt "abc" = None /\ JsString.parseFloat "abc" = None) /\
  (forall a b c cd,
      isDigitString a -> isDigitString b -> isDigitString c ->
      VMAPService.parseTimeOffset (a ++ ":" ++ b ++ ":" ++ c)%string cd
      == inject_Z (digitsValue a) * 3600 + inject_Z (digitsValue b) * 60
         + inject_Z (digitsValue c)) /\
  (forall h m s cd,
      VMAPService.parseTimeOffset
        (JsString.ofNat h ++ ":" ++ JsString.ofNat m ++ ":" ++ JsString.ofNat s)%string cd
      == inject_Z (Z.of_nat (h * 3600 + m * 60 + s))) /\
  (forall cd, VMAPService.parseTimeOffset "00:01:30" cd == 90) /\
  (forall cd, VMAPService.parseTimeOffset "::30" cd == 30 /\
              VMAPService.parseTimeOffset "abc:01:30" cd == 90 /\
              VMAPService.parseTimeOffset "00:01:" cd == 60) /\
  (forall timeOffset cd,
      timeOffset <> "start" -> timeOffset <> "end" ->
      length (JsString.split ":" (JsString.trim timeOffset)) <> 3%nat ->
      VMAPService.parseTimeOffset timeOffset cd = 0) /\
  (forall cd, VMAPService.parseTimeOffset "" cd = 0 /\
              VMAPService.parseTimeOffset "90" cd = 0 /\
              VMAPService.parseTimeOffset "01:30" cd = 0 /\
              VMAPService.parseTimeOffset "50%" cd = 0 /\
              VMAPService.parseTimeOffset "1:2:3:4" cd = 0 /\
              VMAPService.parseTimeOffset " end " cd = 0).
Proof.
  split; [intros; eexists; reflexivity|].
  split; [reflexivity|]. split; [reflexivity|].
  split; [exact parseTimeOffset_components|].
  split; [intros p H; unfold VMAPService.intOrZero; now rewrite H|].
  split; [intros p H; unfold VMAPService.floatOrZero; now rewrite H|].
  split; [repeat split; reflexivity|].
  split; [exact parseTimeOffset_digits|].
  split.
  { intros h m s cd.
    rewrite (parseTimeOffset_digits _ _ _ cd (ofNat_digitString h) (ofNat_digitString m)
                                    (ofNat_digitString s)).
    rewrite !ofNat_value, !Nat2Z.inj_add, !Nat2Z.inj_mul, !inject_Z_plus, !inject_Z_mult.
    reflexivity. }
  split; [intros cd; vm_compute; reflexivity|].
  split; [intros cd; repeat split; vm_compute; reflexivity|].
  split; [exact parseTimeOffset_other|].
  intros cd. repeat split; reflexivity.
Qed.

(** C7, instance: the offset ["00:01:30"], component by component. *)
Lemma C7_witness :
  isDigitString "00" /\ isDigitString "01" /\ isDigitString "30" /\
  VMAPService.parseTimeOffset ("00" ++ ":" ++ "01" ++ ":" ++ "30")%string 596
  == inject_Z (digitsValue "00") * 3600 + inject_Z (digitsValue "01") * 60
     + inject_Z (digitsValue "30").
Proof.
  assert (H0 : isDigitString "00") by (split; [discriminate|repeat constructor]).
  assert (H1 : isDigitString "01") by (split; [discriminate|repeat constructor]).
  assert (H2 : isDigitString "30") by (split; [discriminate|repeat constructor]).
  split; [exact H0|]. split; [exact H1|]. split; [exact H2|].
  apply (proj1 (proj2 (proj2 (proj2 (proj2 (proj2 (proj2 (proj2 C7_parse_time_offset)))))))
           "00" "01" "30" 596 H0 H1 H2).
Defined.

(* ===================================================================== *)
(** * Ordinals and identifiers (C8) *)
(* ===================================================================== *)

(** C8, counterexample.  In [skippedFirstDocument] the first entry has no
    locator and is discarded; the only descriptor returned is the first
    (and only) kept entry, yet it carries index 1 and the generated
    identifier [break_1]. *)
Lemma C8_counterexample :
  VMAPService.buildAdBreakList skippedFirstDocument 596
  = [mkAdBreak 1 "00:05:00" 300 "break_1" (UriString "https://ads.example/mid")
               (JNum 30) (JNum 5) None] /\
  VMAPService.keptInDocumentOrder skippedFirstDocument 596 !! 0%nat
  = Some (mkAdBreak 1 "00:05:00" 300 "break_1" (UriString "https://ads.example/mid")
                    (JNum 30) (JNum 5) None) /\
  ~ ordinalIsKeptPosition skippedFirstDocument 596.
Proof.
  split; [vm_compute; reflexivity|]. split; [vm_compute; reflexivity|].
  intros H.
  destruct (H 0%nat (mkAdBreak 1 "00:05:00" 300 "break_1"
                               (UriString "https://ads.example/mid")
                               (JNum 30) (JNum 5) None))
    as (_ & Hidx & _); [vm_compute; reflexivity|].
  simpl in Hidx. discriminate.
Qed.

(** C8 (amended).  For every schedule document, each descriptor returned
    by [buildAdBreakList] carries as index the position of its entry in
    the document's break array -- entries discarded for lacking a locator
    do advance it: the indices of the kept entries, in document order, are
    their document positions -- and when the source break provides no
    identifier, the generated one is [break_] followed by that index.
    Every entry with a locator yields a descriptor.  The same holds for
    the client-swap builder. *)
Theorem C8_index_is_document_position :
  forall doc cd,
    map index (VMAPService.keptInDocumentOrder doc cd) = keptPositions doc 0 /\
    (forall d,
        In d (VMAPService.buildAdBreakList doc cd) <->
        In d (VMAPService.keptInDocumentOrder doc cd)) /\
    (forall d,
        In d (VMAPService.buildAdBreakList doc cd) \/
        In d (VMAPService.buildAdBreakList_clientSwap doc cd) ->
        exists br,
          doc !! index d = Some br /\
          VMAPService.extractVastUrl br = Some (vastUrl d) /\
          breakId d = VMAPService.strOr (VMAPService.breakId br)
                                        ("break_" ++ JsString.ofNat (index d))%string /\
          (VMAPService.breakId br = None ->
           breakId d = ("break_" ++ JsString.ofNat (index d))%string)) /\
    (forall i br,
        doc !! i = Some br -> VMAPService.extractVastUrl br <> None ->
        exists d, In d (VMAPService.buildAdBreakList doc cd) /\ index d = i).
Proof.
  intros doc cd. split; [apply buildLoop_index|]. split; [|split].
  - intros d. apply sortByTime_In.
  - intros d Hd.
    assert (Hin : exists d0 k0, In d (VMAPService.buildLoop d0 k0 doc 0 cd)).
    { destruct Hd as [Hd|Hd];
        [unfold VMAPService.buildAdBreakList in Hd
        |unfold VMAPService.buildAdBreakList_clientSwap in Hd];
        apply (proj1 (sortByTime_In _ _)) in Hd; do 2 eexists; exact Hd. }
    destruct Hin as (d0 & k0 & Hin).
    destruct (buildLoop_In d0 k0 cd doc 0 d Hin) as (k & br & Hk & Hi & Hu & Hid & _).
    simpl in Hi. subst k. exists br. repeat split; auto.
    intros Hnone. rewrite Hid, Hnone. reflexivity.
  - intros i br Hi Hu.
    destruct (buildLoop_kept (JNum CONFIG.DEFAULT_AD_DURATION)
                (JNum CONFIG.DEFAULT_SKIP_OFFSET) cd doc 0 i br Hi Hu) as (d & Hd & Hidx).
    exists d. split; [apply sortByTime_In; exact Hd|exact Hidx].
Qed.

(** C8, instance: the second entry of [skippedFirstDocument]. *)
Lemma C8_witness :
  skippedFirstDocument !! 1%nat
  = Some (VMAPService.mkVmapAdBreak (Some "00:05:00") None
            (Some (VMAPService.mkAdSource (Some (UriString "https://ads.example/mid"))))) /\
  exists d, In d (VMAPService.buildAdBreakList skippedFirstDocument 596) /\ index d = 1%nat.
Proof.
  split; [reflexivity|].
  apply (proj2 (proj2 (proj2 (C8_index_is_document_position skippedFirstDocument 596)))
           1%nat _ eq_refl).
  discriminate.
Defined.

(* ===================================================================== *)
(** * Resolver defaults (C9) *)
(* ===================================================================== *)

(** C9.  The resolver is specified to return the declared duration when
    it is a positive number and 30 otherwise, and the declared skip delay
    when it is present and non-negative (0 included) and 5 otherwise
    ([Resolver.specDuration], [Resolver.specSkipOffset]).
    [AdTracker.initialize] agrees on positive numbers and on missing
    values, but it returns 5 for a declared skip delay of 0 and passes a
    negative duration or skip delay through; the client-swap
    [triggerAdBreak] tests as specified, with 15 as its default
    duration. *)
Theorem C9_resolver_defaults :
  (Resolver.skipOffset (Resolver.metadataOf (creativeWith (JNum 20) (JNum 0))) = 5 /\
   Resolver.specSkipOffset (creativeWith (JNum 20) (JNum 0)) = 0) /\
  (Resolver.duration (Resolver.metadataOf (creativeWith (JNum (-1)) (JNum 5))) = -1 /\
   Resolver.specDuration (creativeWith (JNum (-1)) (JNum 5)) = 30) /\
  (Resolver.skipOffset (Resolver.metadataOf (creativeWith (JNum 20) (JNum (-1)))) = -1 /\
   Resolver.specSkipOffset (creativeWith (JNum 20) (JNum (-1))) = 5) /\
  (Resolver.clientSwapDuration (creativeWith JUndefined JUndefined) = 15 /\
   Resolver.specDuration (creativeWith JUndefined JUndefined) = 30) /\
  (forall c, Resolver.clientSwapSkipOffset c = Resolver.specSkipOffset c) /\
  (forall c q, Vast.duration c = JNum q -> 0 < q ->
               Resolver.duration (Resolver.metadataOf c) = q /\
               Resolver.clientSwapDuration c = q /\
               Resolver.specDuration c = q) /\
  (forall c q, Vast.skipDelay c = JNum q -> 0 < q ->
               Resolver.skipOffset (Resolver.metadataOf c) = q /\
               Resolver.specSkipOffset c = q) /\
  (forall c, truthy (Vast.duration c) = false ->
             Resolver.duration (Resolver.metadataOf c) = 30 /\
             Resolver.specDuration c = 30).
Proof.
  repeat split; try reflexivity.
  - simpl. rewrite H. simpl.
    destruct (Qeq_bool q 0) eqn:E; [|reflexivity].
    apply Qeq_bool_iff in E. lra.
  - unfold Resolver.clientSwapDuration. rewrite H.
    apply Qlt_bool_iff in H0. now rewrite H0.
  - unfold Resolver.specDuration. rewrite H.
    apply Qlt_bool_iff in H0. now rewrite H0.
  - simpl. rewrite H. simpl.
    destruct (Qeq_bool q 0) eqn:E; [|reflexivity].
    apply Qeq_bool_iff in E. lra.
  - unfold Resolver.specSkipOffset. rewrite H.
    assert (Hge : Qge_bool q 0 = true) by (apply Qge_bool_iff; lra).
    now rewrite Hge.
  - simpl. now apply or_default_falsy.
  - unfold Resolver.specDuration.
    destruct (Vast.duration c) as [| | |q]; try reflexivity.
    simpl in H. apply negb_false_iff, Qeq_bool_iff in H.
    destruct (Qlt_bool 0 q) eqn:E; [|reflexivity].
    apply Qlt_bool_iff in E. lra.
Qed.

(** C9, instance: a declared duration of 20. *)
Lemma C9_witness :
  Vast.duration (creativeWith (JNum 20) (JNum 0)) = JNum 20 /\ 0 < 20 /\
  Resolver.duration (Resolver.metadataOf (creativeWith (JNum 20) (JNum 0))) = 20.
Proof.
  split; [reflexivity|]. split; [reflexivity|].
  apply (proj1 (proj2 (proj2 (proj2 (proj2 (proj2 C9_resolver_defaults)))))
           (creativeWith (JNum 20) (JNum 0)) 20 eq_refl eq_refl).
Defined.

(* ===================================================================== *)
(** * The default duration in the timeline arithmetic (C10) *)
(* ===================================================================== *)

(** C10.  A break whose [duration] field is 0, [null], [undefined] (or
    [NaN]) is read with the 30-second default by all timeline arithmetic:
    [getCumulativeAdDuration] adds 30 for it, [detectActiveBreak] gives it
    a window 30 seconds long, which contains its own start and so is never
    empty, [skipCurrentAd] adds 30 to the seek target and [updateProgress]
    reports a duration of 30.  Two schedules that differ only in how such
    a field is written (0, missing, or the default 30) yield the same
    cumulative durations, the same detected position for every sample and
    the same position look-ups.
    [detectActiveBreak] returns such a break for a sample [t] exactly when
    [start <= t < start + 30], [start] being its shifted start, and no
    earlier window contains [t]; alone in the schedule, it is returned
    exactly for the samples in [timeInSeconds, timeInSeconds + 30); a
    sample at its shifted start is always inside some break.  The same
    reading is made in double precision, where [-0] is a further falsy
    value. *)
Theorem C10_default_duration :
  (truthy (JNum 0) = false /\ truthy JNull = false /\ truthy JUndefined = false /\
   truthy JNaN = false) /\
  (forall b, truthy (duration b) = false -> adDuration b = 30) /\
  (forall l i b,
      l !! i = Some b -> truthy (duration b) = false ->
      Timeline.getCumulativeAdDuration l (Z.of_nat (S i))
      == Timeline.getCumulativeAdDuration l (Z.of_nat i) + 30) /\
  (forall l i b,
      truthy (duration b) = false ->
      Timeline.endTime l i b == Timeline.startTime l i b + 30 /\
      Timeline.inBreakWindow l (Timeline.startTime l i b) b i = true) /\
  (forall s cur,
      Manager.currentAdBreak s = Some cur ->
      truthy (duration (Manager.heap s cur)) = false ->
      Manager.effects (Manager.skipCurrentAd true s)
      = Manager.tracker_event Manager.MTrackSkip Manager.Skip s ++
        [Manager.Seek
           (timeInSeconds (Manager.heap s cur)
            + Manager.getCumulativeAdDuration s
                (Timeline.findIndexById (Manager.breaks s) (breakId (Manager.heap s cur)))
            + 30)]) /\
  (forall s cur elapsed,
      Manager.currentAdBreak s = Some cur ->
      truthy (duration (Manager.heap s cur)) = false ->
      exists k, head (Manager.effects (Manager.updateProgress elapsed s))
                = Some (Manager.UpdateSkipButton elapsed 30 k)) /\
  (forall b v, truthy v = false -> sameTimeline (set_duration v b) (set_duration (JNum 30) b)) /\
  (forall l l',
      Forall2 sameTimeline l l' ->
      (forall n, Timeline.getCumulativeAdDuration l n = Timeline.getCumulativeAdDuration l' n) /\
      (forall t, option_map fst (Timeline.detectActiveBreak l t)
                 = option_map fst (Timeline.detectActiveBreak l' t)) /\
      (forall id, Timeline.findIndexById l id = Timeline.findIndexById l' id)) /\
  (forall l t i b,
      truthy (duration b) = false ->
      Timeline.inBreakWindow l t b i
      = Qge_bool t (Timeline.startTime l i b)
        && Qlt_bool t (Timeline.startTime l i b + 30)) /\
  (forall l t i b,
      l !! i = Some b -> truthy (duration b) = false ->
      (Timeline.detectActiveBreak l t = Some (i, b) <->
       (Timeline.startTime l i b <= t /\ t < Timeline.startTime l i b + 30) /\
       forall j y, (j < i)%nat -> l !! j = Some y -> ~ inWindow l j y t)) /\
  (forall b t,
      truthy (duration b) = false ->
      (Timeline.detectActiveBreak [b] t = Some (0%nat, b) <->
       timeInSeconds b <= t /\ t < timeInSeconds b + 30)) /\
  (forall s t i r,
      Manager.adBreaks s !! i = Some r ->
      truthy (duration (Manager.heap s r)) = false ->
      (Manager.detectActiveBreak s t = Some (i, r) <->
       (Timeline.startTime (Manager.breaks s) i (Manager.heap s r) <= t /\
        t < Timeline.startTime (Manager.breaks s) i (Manager.heap s r) + 30) /\
       forall j y, (j < i)%nat -> Manager.breaks s !! j = Some y ->
                   ~ inWindow (Manager.breaks s) j y t)) /\
  (forall l i b,
      l !! i = Some b -> truthy (duration b) = false ->
      exists j b',
        Timeline.detectActiveBreak l (Timeline.startTime l i b) = Some (j, b') /\
        (j <= i)%nat) /\
  (Double.truthy (Double.JNum 0) = false /\ Double.truthy (Double.JNum (-0)) = false /\
   Double.truthy (Double.JNum nan) = false /\ Double.truthy Double.JNull = false /\
   Double.truthy Double.JUndefined = false) /\
  (forall b, Double.truthy (Double.duration b) = false -> Double.adDuration b = 30%float) /\
  (forall l i b,
      l !! i = Some b -> Double.truthy (Double.duration b) = false ->
      Double.getCumulativeAdDuration l (Z.of_nat (S i))
      = PrimFloat.add (Double.getCumulativeAdDuration l (Z.of_nat i)) 30) /\
  (forall l t i b,
      l !! i = Some b -> Double.truthy (Double.duration b) = false ->
      (Double.detectActiveBreak l t = Some (i, b) <->
       (PrimFloat.leb (Double.startTime l i b) t = true /\
        PrimFloat.ltb t (PrimFloat.add (Double.startTime l i b) 30) = true) /\
       forall j y, (j < i)%nat -> l !! j = Some y -> ~ Double.inWindow l j y t)).
Proof.
  assert (Hd : forall b, truthy (duration b) = false -> adDuration b = 30).
  { intros b Hb. unfold adDuration. now rewrite or_default_falsy. }
  assert (Hiff : forall l t i b,
      l !! i = Some b -> truthy (duration b) = false ->
      (Timeline.detectActiveBreak l t = Some (i, b) <->
       (Timeline.startTime l i b <= t /\ t < Timeline.startTime l i b + 30) /\
       forall j y, (j < i)%nat -> l !! j = Some y -> ~ inWindow l j y t)).
  { intros l t i b Hi Hb. rewrite detectActiveBreak_first.
    unfold inWindow at 1. unfold Timeline.endTime. rewrite (Hd b Hb). tauto. }
  split; [repeat split|]. split; [exact Hd|].
  split; [|split; [|split; [|split; [|split; [|split]]]]].
  - intros l i b Hi Hb. rewrite !getCumulative_sum, !Nat2Z.id.
    rewrite (sum_firstn_S l i b Hi), (Hd b Hb). reflexivity.
  - intros l i b Hb. split.
    + unfold Timeline.endTime. rewrite (Hd b Hb). reflexivity.
    + apply inBreakWindow_iff. unfold inWindow, Timeline.endTime.
      rewrite (Hd b Hb). lra.
  - intros s cur Hc Hb. unfold Manager.skipCurrentAd. rewrite Hc. simpl.
    now rewrite (Hd _ Hb).
  - intros s cur elapsed Hc Hb. unfold Manager.updateProgress. rewrite Hc. simpl.
    rewrite (Hd _ Hb). eauto.
  - intros b v Hv. unfold sameTimeline, adDuration. simpl.
    rewrite (or_default_falsy v _ Hv). repeat split; reflexivity.
  - intros l l' HF.
    assert (Hc : forall n, Timeline.getCumulativeAdDuration l n
                           = Timeline.getCumulativeAdDuration l' n).
    { intros n. now apply cumulativeLoop_sameTimeline. }
    split; [exact Hc|]. split.
    + intros t. unfold Timeline.detectActiveBreak.
      apply (findFrom_related sameTimeline); [exact HF|].
      intros x x' i (Ht & _ & Hx). unfold Timeline.inBreakWindow.
      now rewrite Ht, Hx, Hc.
    + intros id. now apply findIndexFrom_sameTimeline.
  - split; [|split; [exact Hiff|split; [|split; [|split; [|split; [|split; [|split]]]]]]].
    + intros l t i b Hb. unfold Timeline.inBreakWindow, Timeline.startTime.
      now rewrite (Hd b Hb).
    + intros b t Hb. rewrite (Hiff [b] t 0%nat b eq_refl Hb).
      unfold Timeline.startTime, Timeline.getCumulativeAdDuration. simpl. split.
      * intros [[Ha Hc] _]. split; lra.
      * intros [Ha Hc]. split; [split; lra|]. intros j y Hj. lia.
    + intros s t i r Hi Hb. rewrite (manager_detect_iff s t i r Hi).
      apply Hiff; [now apply breaks_lookup|exact Hb].
    + intros l i b Hi Hb.
      assert (Hw : inWindow l i b (Timeline.startTime l i b)).
      { unfold inWindow, Timeline.endTime. rewrite (Hd b Hb). lra. }
      destruct (Timeline.detectActiveBreak l (Timeline.startTime l i b))
        as [[j b']|] eqn:Hdet.
      * exists j, b'. split; [reflexivity|].
        apply detectActiveBreak_first in Hdet. destruct Hdet as (_ & _ & Hfirst).
        destruct (Nat.le_gt_cases j i) as [H|H]; [exact H|].
        exfalso. exact (Hfirst i b H Hi Hw).
      * exfalso. exact (proj1 (detectActiveBreak_none l _) Hdet i b Hi Hw).
    + repeat split.
    + exact double_adDuration_default.
    + intros l i b Hi Hb. rewrite (double_getCumulative_step l i b Hi).
      now rewrite (double_adDuration_default b Hb).
    + intros l t i b Hi Hb. rewrite double_detect_first.
      unfold Double.inWindow at 1. unfold Double.endTime.
      rewrite (double_adDuration_default b Hb). tauto.
Qed.

(** C10, instance: the first break of [zeroDurationSchedule], whose
    window is [0, 30): the sample 15 is detected as being in it. *)
Lemma C10_witness :
  truthy (duration (exampleBreak 0 0 "break_0" (JNum 0))) = false /\
  adDuration (exampleBreak 0 0 "break_0" (JNum 0)) = 30 /\
  Timeline.getCumulativeAdDuration zeroDurationSchedule (Z.of_nat 1)
  == Timeline.getCumulativeAdDuration zeroDurationSchedule (Z.of_nat 0) + 30 /\
  Timeline.detectActiveBreak zeroDurationSchedule 15
  = Some (0%nat, exampleBreak 0 0 "break_0" (JNum 0)).
Proof.
  split; [reflexivity|]. split; [|split].
  - apply (proj1 (proj2 C10_default_duration)). reflexivity.
  - apply (proj1 (proj2 (proj2 C10_default_duration)) zeroDurationSchedule 0%nat
             (exampleBreak 0 0 "break_0" (JNum 0))); reflexivity.
  - apply (proj1 (proj2 (proj2 (proj2 (proj2 (proj2 (proj2 (proj2 (proj2 (proj2
             C10_default_duration)))))))))
             zeroDurationSchedule 15 0%nat (exampleBreak 0 0 "break_0" (JNum 0))
             eq_refl eq_refl).
    split.
    + unfold Timeline.startTime, Timeline.getCumulativeAdDuration. simpl. split; lra.
    + intros j y Hj. lia.
Defined.

(* ===================================================================== *)
(** * The schedule builder: what sorting keeps (X1) *)
(* ===================================================================== *)

Lemma insertByTime_Permutation x l :
  Permutation (VMAPService.insertByTime x l) (x :: l).
Proof.
  induction l as [|y l IH]; simpl.
  - reflexivity.
  - destruct (Qle_bool (timeInSeconds x) (timeInSeconds y)).
    + reflexivity.
    + rewrite IH. apply perm_swap.
Qed.

Lemma sortByTime_Permutation l : Permutation (VMAPService.sortByTime l) l.
Proof.
  induction l as [|x l IH]; simpl.
  - reflexivity.
  - rewrite insertByTime_Permutation. now constructor.
Qed.

Lemma buildLoop_length d0 k0 cd rest : forall i,
  length (VMAPService.buildLoop d0 k0 rest i cd) = length (List.filter hasLocator rest).
Proof.
  induction rest as [|br rest IH]; intros i; simpl.
  - reflexivity.
  - unfold hasLocator at 1. destruct (VMAPService.extractVastUrl br); simpl; now rewrite IH.
Qed.

Lemma filter_nil_Forall {A} (p : A -> bool) l :
  List.filter p l = [] <-> Forall (fun x => p x = false) l.
Proof.
  induction l as [|x l IH]; simpl.
  - split; [constructor | reflexivity].
  - destruct (p x) eqn:E.
    + split; [discriminate | intros H; inversion H; congruence].
    + rewrite IH. split; [now constructor | intros H; now inversion H].
Qed.

(** X1.  Sorting neither drops nor duplicates a break: the list
    [buildAdBreakList] returns is a rearrangement of the descriptors
    pushed by its loop, one for each document entry that has a locator, in
    both versions of the builder.  Hence it holds as many breaks as the
    document has entries with a locator (never more than the document has
    entries), each kept document position occurs exactly once among the
    indices, and the result is empty exactly when no entry has a
    locator. *)
Theorem X1_buildAdBreakList_rearranges_kept_entries :
  forall doc cd,
    Permutation (VMAPService.buildAdBreakList doc cd)
                (VMAPService.keptInDocumentOrder doc cd) /\
    Permutation (map index (VMAPService.buildAdBreakList doc cd)) (keptPositions doc 0) /\
    Permutation (map index (VMAPService.buildAdBreakList_clientSwap doc cd))
                (keptPositions doc 0) /\
    length (VMAPService.buildAdBreakList doc cd) = length (List.filter hasLocator doc) /\
    length (VMAPService.buildAdBreakList_clientSwap doc cd)
    = length (List.filter hasLocator doc) /\
    (length (VMAPService.buildAdBreakList doc cd) <= length doc)%nat /\
    (VMAPService.buildAdBreakList doc cd = [] <->
     Forall (fun br => VMAPService.extractVastUrl br = None) doc).
Proof.
  intros doc cd.
  assert (Hlen : forall d0 k0,
             length (VMAPService.sortByTime (VMAPService.buildLoop d0 k0 doc 0 cd))
             = length (List.filter hasLocator doc)).
  { intros d0 k0. rewrite (Permutation_length (sortByTime_Permutation _)).
    apply buildLoop_length. }
  assert (Hidx : forall d0 k0,
             Permutation
               (map index (VMAPService.sortByTime (VMAPService.buildLoop d0 k0 doc 0 cd)))
               (keptPositions doc 0)).
  { intros d0 k0. rewrite <- (buildLoop_index d0 k0 cd doc 0).
    apply Permutation_map, sortByTime_Permutation. }
  split; [apply sortByTime_Permutation|].
  split; [apply Hidx|]. split; [apply Hidx|].
  split; [apply Hlen|]. split; [apply Hlen|].
  split.
  - unfold VMAPService.buildAdBreakList. rewrite Hlen. apply List.filter_length_le.
  - split.
    + intros H.
      assert (Hf : List.filter hasLocator doc = []).
      { apply length_zero_iff_nil. rewrite <- (Hlen (JNum CONFIG.DEFAULT_AD_DURATION)
                                                     (JNum CONFIG.DEFAULT_SKIP_OFFSET)).
        unfold VMAPService.buildAdBreakList in H. now rewrite H. }
      apply filter_nil_Forall in Hf.
      eapply Forall_impl; [exact Hf|]. intros br Hbr. unfold hasLocator in Hbr.
      now destruct (VMAPService.extractVastUrl br).
    + intros H. apply length_zero_iff_nil.
      unfold VMAPService.buildAdBreakList. rewrite Hlen.
      apply length_zero_iff_nil, filter_nil_Forall.
      eapply Forall_impl; [exact H|]. intros br Hbr. unfold hasLocator. now rewrite Hbr.
Qed.

(* ===================================================================== *)
(** * The schedule builder: ties keep document order (X2) *)
(* ===================================================================== *)

Lemma playsBefore_time a b : playsBefore a b -> timeInSeconds a <= timeInSeconds b.
Proof.
  intros [H | [H _]]; [now apply Qlt_le_weak | rewrite H; apply Qle_refl].
Qed.

Lemma insertByTime_playsBefore x l :
  Forall (fun y => (index x < index y)%nat) l ->
  StronglySorted playsBefore l ->
  StronglySorted playsBefore (VMAPService.insertByTime x l).
Proof.
  intros Hidx Hs. induction Hs as [|y l Hs IH Hy]; simpl.
  - repeat constructor.
  - inversion Hidx as [|? ? Hxy Hidx']; subst.
    destruct (Qle_bool (timeInSeconds x) (timeInSeconds y)) eqn:E.
    + apply Qle_bool_iff in E.
      assert (Hx : forall z, timeInSeconds y <= timeInSeconds z ->
                             (index x < index z)%nat -> playsBefore x z).
      { intros z Hz Hi. unfold playsBefore.
        destruct (Qlt_le_dec (timeInSeconds x) (timeInSeconds z)) as [Hlt | Hle].
        - now left.
        - right. split; [|exact Hi]. apply Qle_antisym; [|exact Hle].
          eapply Qle_trans; eassumption. }
      constructor; [now constructor|].
      constructor; [apply Hx; [apply Qle_refl | exact Hxy]|].
      rewrite Forall_forall in Hy, Hidx'. apply Forall_forall. intros z Hz.
      apply Hx; [apply playsBefore_time, Hy, Hz | apply Hidx', Hz].
    + constructor; [apply IH, Hidx'|].
      apply insertByTime_Forall; [|exact Hy].
      left. apply Qnot_le_lt. intros H. apply Qle_bool_iff in H. congruence.
Qed.

Lemma buildLoop_index_bounds d0 k0 cd rest : forall i,
  Forall (fun y => (i <= index y)%nat) (VMAPService.buildLoop d0 k0 rest i cd).
Proof.
  induction rest as [|br rest IH]; intros i; simpl.
  - constructor.
  - assert (Hrest : Forall (fun y => (i <= index y)%nat)
                           (VMAPService.buildLoop d0 k0 rest (S i) cd)).
    { eapply Forall_impl; [apply IH|]. simpl. intros; lia. }
    destruct (VMAPService.extractVastUrl br); [constructor; [simpl; lia | exact Hrest] | exact Hrest].
Qed.

Lemma sortByTime_buildLoop_stable d0 k0 cd rest : forall i,
  StronglySorted playsBefore
    (VMAPService.sortByTime (VMAPService.buildLoop d0 k0 rest i cd)).
Proof.
  induction rest as [|br rest IH]; intros i; simpl.
  - constructor.
  - destruct (VMAPService.extractVastUrl br); [|apply IH].
    simpl. apply insertByTime_playsBefore; [|apply IH].
    apply sortByTime_Forall. eapply Forall_impl; [apply buildLoop_index_bounds|].
    simpl. intros; lia.
Qed.

Lemma stronglySorted_playsBefore_lookup l :
  StronglySorted playsBefore l ->
  forall i j bi bj, (i < j)%nat -> l !! i = Some bi -> l !! j = Some bj -> playsBefore bi bj.
Proof.
  induction 1 as [|x l Hs IH Hx]; intros i j bi bj Hij Hi Hj.
  - destruct i; discriminate.
  - destruct j as [|j]; [lia|]. simpl in Hj. destruct i as [|i]; simpl in Hi.
    + injection Hi as <-. rewrite Forall_forall in Hx. apply Hx.
      apply list_elem_of_lookup. eauto.
    + eapply IH; [|eassumption|eassumption]. lia.
Qed.

(** X2.  The sort of [buildAdBreakList] is stable: breaks come out in
    order of [timeInSeconds], and breaks declared at the same time keep
    their document order (the smaller document index first).  So two
    entries scheduled at the same offset play in the order the document
    lists them; the same holds for the client-swap builder. *)
Theorem X2_buildAdBreakList_keeps_document_order_on_ties :
  forall doc cd i j bi bj,
    (i < j)%nat ->
    (VMAPService.buildAdBreakList doc cd !! i = Some bi ->
     VMAPService.buildAdBreakList doc cd !! j = Some bj ->
     playsBefore bi bj /\
     (timeInSeconds bi == timeInSeconds bj -> (index bi < index bj)%nat)) /\
    (VMAPService.buildAdBreakList_clientSwap doc cd !! i = Some bi ->
     VMAPService.buildAdBreakList_clientSwap doc cd !! j = Some bj ->
     playsBefore bi bj /\
     (timeInSeconds bi == timeInSeconds bj -> (index bi < index bj)%nat)).
Proof.
  intros doc cd i j bi bj Hij.
  assert (H : forall a b, playsBefore a b ->
                          playsBefore a b /\
                          (timeInSeconds a == timeInSeconds b -> (index a < index b)%nat)).
  { intros a b Hab. split; [exact Hab|]. intros Heq.
    destruct Hab as [Hlt | [_ Hi]]; [|exact Hi].
    rewrite Heq in Hlt. exfalso. revert Hlt. apply Qlt_irrefl. }
  split; intros Hi Hj; apply H;
    eapply stronglySorted_playsBefore_lookup; try eassumption;
    apply sortByTime_buildLoop_stable.
Qed.

(** X2, instance: a document with two entries declared at offset 0. *)
Lemma X2_witness :
  playsBefore
    (mkAdBreak 0 "start" 0 "break_0" (UriString "https://ads.example/pre")
               (JNum 30) (JNum 5) None)
    (mkAdBreak 1 "00:00:00" 0 "break_1" (UriString "https://ads.example/mid")
               (JNum 30) (JNum 5) None).
Proof.
  refine (proj1 (proj1 (X2_buildAdBreakList_keeps_document_order_on_ties
            [VMAPService.mkVmapAdBreak (Some "start") None
               (Some (VMAPService.mkAdSource (Some (UriString "https://ads.example/pre"))));
             VMAPService.mkVmapAdBreak (Some "00:00:00") None
               (Some (VMAPService.mkAdSource (Some (UriString "https://ads.example/mid"))))]
            596 0%nat 1%nat _ _ _) _ _)).
  - lia.
  - vm_compute. reflexivity.
  - vm_compute. reflexivity.
Defined.

(* ===================================================================== *)
(** * The schedule builder: fields of the descriptors (X3) *)
(* ===================================================================== *)

Lemma strOr_nonempty v fallback : fallback <> "" -> VMAPService.strOr v fallback <> "".
Proof.
  intros Hf. unfold VMAPService.strOr. destruct v as [s|]; [|exact Hf].
  unfold str_truthy. destruct (String.eqb s "") eqn:E; simpl; [exact Hf|].
  now apply String.eqb_neq in E.
Qed.

Lemma extractVastUrl_truthy br u :
  VMAPService.extractVastUrl br = Some u -> Manager.vastUrl_truthy u = true.
Proof.
  unfold VMAPService.extractVastUrl.
  destruct (VMAPService.adSource br) as [src|]; [|discriminate].
  destruct (VMAPService.adTagURI src) as [[s | [w|]]|]; try discriminate.
  - destruct (str_truthy s) eqn:E; [|discriminate]. intros [= <-]. exact E.
  - destruct (str_truthy w) eqn:E; intros [= <-]; [exact E | reflexivity].
  - intros [= <-]. reflexivity.
Qed.

Lemma buildLoop_fields d0 k0 cd rest : forall i,
  Forall (fun d =>
            timeInSeconds d = VMAPService.parseTimeOffset (timeOffset d) cd /\
            timeOffset d <> "" /\ breakId d <> "" /\
            Manager.vastUrl_truthy (vastUrl d) = true /\
            duration d = d0 /\ skipOffset d = k0 /\ clickThrough d = None)
         (VMAPService.buildLoop d0 k0 rest i cd).
Proof.
  induction rest as [|br rest IH]; intros i; simpl.
  - constructor.
  - destruct (VMAPService.extractVastUrl br) as [u|] eqn:E; [|apply IH].
    constructor; [|apply IH]. simpl.
    split; [reflexivity|]. split; [now apply strOr_nonempty|].
    split; [now apply strOr_nonempty|].
    split; [now apply extractVastUrl_truthy with br|]. auto.
Qed.

(** X3.  Every break [buildAdBreakList] returns is well formed: its
    [timeInSeconds] is [parseTimeOffset] of its own [timeOffset] field,
    its [timeOffset] and [breakId] are non-empty strings, its locator is
    truthy, it starts with the default duration 30 and skip offset 5 and
    has no [clickThrough] yet (the client-swap builder leaves duration and
    skip offset unset).  Consequently [startAdBreak] on such a break
    always issues the VAST fetch: the [No VAST URL available] exit of
    [AdTracker.initialize] is not taken. *)
Theorem X3_built_breaks_are_well_formed :
  forall doc cd d,
    (In d (VMAPService.buildAdBreakList doc cd) ->
     timeInSeconds d = VMAPService.parseTimeOffset (timeOffset d) cd /\
     timeOffset d <> "" /\ breakId d <> "" /\
     Manager.vastUrl_truthy (vastUrl d) = true /\
     duration d = JNum 30 /\ skipOffset d = JNum 5 /\ clickThrough d = None /\
     (forall s r,
         Manager.heap s r = d ->
         Manager.effects (Manager.startAdBreak r s)
         = [Manager.OverlayShow; Manager.EmitterCall Manager.MInitialize;
            Manager.VastGet r])) /\
    (In d (VMAPService.buildAdBreakList_clientSwap doc cd) ->
     timeInSeconds d = VMAPService.parseTimeOffset (timeOffset d) cd /\
     timeOffset d <> "" /\ breakId d <> "" /\
     Manager.vastUrl_truthy (vastUrl d) = true /\
     duration d = JUndefined /\ skipOffset d = JUndefined /\ clickThrough d = None).
Proof.
  intros doc cd d. split; intros Hd.
  - apply (proj1 (sortByTime_In _ _)) in Hd.
    pose proof (buildLoop_fields (JNum CONFIG.DEFAULT_AD_DURATION)
                                 (JNum CONFIG.DEFAULT_SKIP_OFFSET) cd doc 0) as HF.
    rewrite Forall_forall in HF. apply list_elem_of_In in Hd.
    destruct (HF d Hd) as (H1 & H2 & H3 & H4 & H5 & H6 & H7).
    repeat (split; [assumption|]).
    intros s r Hr. unfold Manager.startAdBreak. simpl. rewrite Hr, H4. reflexivity.
  - apply (proj1 (sortByTime_In _ _)) in Hd.
    pose proof (buildLoop_fields JUndefined JUndefined cd doc 0) as HF.
    rewrite Forall_forall in HF. apply list_elem_of_In in Hd.
    destruct (HF d Hd) as (H1 & H2 & H3 & H4 & H5 & H6 & H7).
    repeat (split; [assumption|]). assumption.
Qed.

(** X3, instance: the mid-roll of [twoBreakDocument]. *)
Lemma X3_witness :
  In (mkAdBreak 1 "00:05:00" 300 "break_1" (UriString "https://ads.example/mid")
                (JNum 30) (JNum 5) None)
     (VMAPService.buildAdBreakList twoBreakDocument 596) /\
  Manager.vastUrl_truthy (UriString "https://ads.example/mid") = true.
Proof.
  assert (H : In (mkAdBreak 1 "00:05:00" 300 "break_1" (UriString "https://ads.example/mid")
                            (JNum 30) (JNum 5) None)
                 (VMAPService.buildAdBreakList twoBreakDocument 596)).
  { vm_compute. right. left. reflexivity. }
  split; [exact H|].
  exact (proj1 (proj2 (proj2 (proj2
           (proj1 (X3_built_breaks_are_well_formed twoBreakDocument 596 _) H))))).
Defined.

(* ===================================================================== *)
(** * The schedule builder: generated identifiers (X4) *)
(* ===================================================================== *)

Lemma ofNat_inj n m : JsString.ofNat n = JsString.ofNat m -> n = m.
Proof.
  intros H. apply Nat2Z.inj. rewrite <- !ofNat_value. now rewrite H.
Qed.

Lemma NoDup_map_inj {A B} (f : A -> B) l :
  (forall x y, f x = f y -> x = y) -> NoDup l -> NoDup (map f l).
Proof.
  intros Hf. induction 1 as [|x l Hx Hl IH]; simpl; constructor; [|exact IH].
  intros Hin. apply list_elem_of_In, in_map_iff in Hin. destruct Hin as (y & Hy & Hin).
  apply Hf in Hy. subst y. apply Hx, list_elem_of_In, Hin.
Qed.

Lemma keptPositions_increasing rest : forall i,
  Forall (fun k => (i <= k)%nat) (keptPositions rest i) /\ NoDup (keptPositions rest i).
Proof.
  induction rest as [|br rest IH]; intros i; simpl.
  - split; constructor.
  - destruct (IH (S i)) as [Hge Hnd].
    assert (Hge' : Forall (fun k => (i <= k)%nat) (keptPositions rest (S i))).
    { eapply Forall_impl; [exact Hge|]. simpl. intros; lia. }
    destruct (VMAPService.extractVastUrl br); [|now split].
    split; [now constructor|]. constructor; [|exact Hnd].
    intros Hin. rewrite Forall_forall in Hge. specialize (Hge _ Hin). simpl in Hge. lia.
Qed.

Lemma strOr_anonymous br fallback :
  anonymous br -> VMAPService.strOr (VMAPService.breakId br) fallback = fallback.
Proof.
  intros [H | H]; rewrite H; reflexivity.
Qed.

Lemma buildLoop_anonymous_ids d0 k0 cd rest : forall i,
  Forall anonymous rest ->
  map breakId (VMAPService.buildLoop d0 k0 rest i cd)
  = map (fun k => ("break_" ++ JsString.ofNat k)%string) (keptPositions rest i).
Proof.
  induction rest as [|br rest IH]; intros i Ha; simpl.
  - reflexivity.
  - inversion Ha as [|? ? Hbr Ha']; subst.
    destruct (VMAPService.extractVastUrl br); simpl; [|now apply IH].
    rewrite (strOr_anonymous _ _ Hbr). f_equal. now apply IH.
Qed.

Lemma findIndexById_NoDup l i b :
  NoDup (map breakId l) -> l !! i = Some b ->
  Timeline.findIndexById l (breakId b) = Z.of_nat i.
Proof.
  intros Hnd Hi. unfold Timeline.findIndexById.
  rewrite (findIndexFrom_first (breakId b) l 0 i b Hi eq_refl); [reflexivity|].
  intros k' y Hk Hy Heq.
  assert (Hik : k' = i).
  { eapply (NoDup_lookup (map breakId l)); [exact Hnd| |].
    - change (map breakId l) with (breakId <$> l). rewrite list_lookup_fmap, Hy. simpl.
      rewrite Heq. reflexivity.
    - change (map breakId l) with (breakId <$> l). rewrite list_lookup_fmap, Hi.
      reflexivity. }
  lia.
Qed.

Lemma buildAdBreakList_anonymous_NoDup doc cd :
  Forall anonymous doc -> NoDup (map breakId (VMAPService.buildAdBreakList doc cd)).
Proof.
  intros Ha. unfold VMAPService.buildAdBreakList.
  rewrite (Permutation_map breakId (sortByTime_Permutation _)).
  rewrite buildLoop_anonymous_ids by exact Ha.
  apply NoDup_map_inj; [|apply keptPositions_increasing].
  intros x y Hxy. apply ofNat_inj. simpl in Hxy. now injection Hxy.
Qed.

(** X4.  When no entry of the document provides an identifier, the
    identifiers [buildAdBreakList] generates ([break_] followed by the
    document position) are pairwise distinct; and in any schedule with
    pairwise distinct identifiers the look-up
    [adBreaks.findIndex(b => b.breakId === br.breakId)], used by [update],
    [skipCurrentAd], [startAdBreak] and [initializeMarkers], returns the
    break's own position.  Distinctness is not guaranteed otherwise: a
    document whose first entry is named [break_1] and whose second entry
    is unnamed yields two breaks called [break_1]. *)
Theorem X4_generated_identifiers_are_distinct :
  (forall doc cd,
      Forall anonymous doc -> NoDup (map breakId (VMAPService.buildAdBreakList doc cd))) /\
  (forall l i b,
      NoDup (map breakId l) -> l !! i = Some b ->
      Timeline.findIndexById l (breakId b) = Z.of_nat i) /\
  (forall doc cd i b,
      Forall anonymous doc ->
      VMAPService.buildAdBreakList doc cd !! i = Some b ->
      Timeline.findIndexById (VMAPService.buildAdBreakList doc cd) (breakId b)
      = Z.of_nat i) /\
  map breakId
    (VMAPService.buildAdBreakList
       [VMAPService.mkVmapAdBreak (Some "start") (Some "break_1")
          (Some (VMAPService.mkAdSource (Some (UriString "https://ads.example/pre"))));
        VMAPService.mkVmapAdBreak (Some "00:05:00") None
          (Some (VMAPService.mkAdSource (Some (UriString "https://ads.example/mid"))))]
       596)
  = ["break_1"; "break_1"].
Proof.
  split; [apply buildAdBreakList_anonymous_NoDup|]. split; [apply findIndexById_NoDup|].
  split; [|vm_compute; reflexivity].
  intros doc cd i b Ha Hi.
  apply findIndexById_NoDup; [now apply buildAdBreakList_anonymous_NoDup | exact Hi].
Qed.

(** X4, instance: the two unnamed entries of [twoBreakDocument]. *)
Lemma X4_witness :
  Forall anonymous twoBreakDocument /\
  NoDup (map breakId (VMAPService.buildAdBreakList twoBreakDocument 596)).
Proof.
  assert (H : Forall anonymous twoBreakDocument).
  { repeat constructor. }
  split; [exact H|].
  exact (proj1 X4_generated_identifiers_are_distinct twoBreakDocument 596 H).
Defined.

(* ===================================================================== *)
(** * The resolver: which creative is read (X5) *)
(* ===================================================================== *)

Lemma find_first {A} (p : A -> bool) l x :
  List.find p l = Some x <->
  exists l1 l2, l = l1 ++ x :: l2 /\ Forall (fun y => p y = false) l1 /\ p x = true.
Proof.
  induction l as [|y l IH]; simpl.
  - split; [discriminate|]. intros (l1 & l2 & H & _). now destruct l1.
  - destruct (p y) eqn:E.
    + split.
      * intros [= <-]. exists [], l. repeat split; [constructor | exact E].
      * intros (l1 & l2 & H & Hl1 & Hx). destruct l1 as [|z l1]; simpl in H.
        -- now injection H as -> _.
        -- injection H as -> _. inversion Hl1; congruence.
    + rewrite IH. split.
      * intros (l1 & l2 & -> & Hl1 & Hx). exists (y :: l1), l2.
        repeat split; [now constructor | exact Hx].
      * intros (l1 & l2 & H & Hl1 & Hx). destruct l1 as [|z l1]; simpl in H.
        -- injection H as -> _. congruence.
        -- injection H as -> ->. exists l1, l2. inversion Hl1; subst. now repeat split.
Qed.

Lemma find_none_Forall {A} (p : A -> bool) l :
  List.find p l = None <-> Forall (fun y => p y = false) l.
Proof.
  induction l as [|y l IH]; simpl.
  - split; [constructor | reflexivity].
  - destruct (p y) eqn:E.
    + split; [discriminate | intros H; inversion H; congruence].
    + rewrite IH. split; [now constructor | intros H; now inversion H].
Qed.

(** X5.  [AdTracker.initialize] takes its ad and creative from the first
    ad of the response that has any creative, and from that ad the first
    creative that is linear and has a media file; it yields nothing when
    the fetch is rejected, when no ad has a creative, or when that first
    ad has no such creative -- later ads are not looked at, even when one
    of them holds a playable linear creative.  When it yields nothing, the
    continuation of [startAdBreak] changes no state, sends no pixel and
    raises nothing: the break keeps its metadata. *)
Theorem X5_initialize_reads_the_first_ad_with_creatives :
  (forall ads ad c,
      Resolver.selectCreative (Vast.Response ads) = Some (ad, c) <->
      exists ads1 ads2 cs1 cs2,
        ads = ads1 ++ ad :: ads2 /\
        Forall (fun a => Vast.hasCreatives a = false) ads1 /\
        Vast.creatives ad = Some (cs1 ++ c :: cs2) /\
        Forall (fun x => Vast.isPlayableLinear x = false) cs1 /\
        Vast.isPlayableLinear c = true) /\
  Resolver.selectCreative Vast.Rejected = None /\
  (forall ads1 ad ads2,
      Forall (fun a => Vast.hasCreatives a = false) ads1 ->
      Vast.hasCreatives ad = true ->
      Vast.getLinearCreative ad = None ->
      Resolver.selectCreative (Vast.Response (ads1 ++ ad :: ads2)) = None) /\
  (forall breakInfo o s,
      Resolver.selectCreative o = None ->
      Manager.state (Manager.startAdBreak_resume breakInfo o s) = s /\
      Manager.thrown (Manager.startAdBreak_resume breakInfo o s) = None /\
      List.filter isAnyPixel (Manager.effects (Manager.startAdBreak_resume breakInfo o s))
      = []).
Proof.
  split; [|split; [reflexivity|split]].
  - intros ads ad c. unfold Resolver.selectCreative. split.
    + destruct (List.find Vast.hasCreatives ads) as [validAd|] eqn:Ef; [|discriminate].
      destruct (Vast.getLinearCreative validAd) as [creative|] eqn:Eg; [|discriminate].
      intros [= -> ->]. apply find_first in Ef. destruct Ef as (ads1 & ads2 & -> & H1 & H2).
      unfold Vast.getLinearCreative in Eg.
      destruct (Vast.creatives ad) as [cs|] eqn:Ec; [|discriminate].
      apply find_first in Eg. destruct Eg as (cs1 & cs2 & -> & H3 & H4).
      exists ads1, ads2, cs1, cs2. now repeat split.
    + intros (ads1 & ads2 & cs1 & cs2 & -> & H1 & Hc & H3 & H4).
      assert (Ef : List.find Vast.hasCreatives (ads1 ++ ad :: ads2) = Some ad).
      { apply find_first. exists ads1, ads2. repeat split; [exact H1|].
        unfold Vast.hasCreatives. rewrite Hc. now destruct cs1. }
      rewrite Ef.
      assert (Eg : Vast.getLinearCreative ad = Some c).
      { unfold Vast.getLinearCreative. rewrite Hc. apply find_first.
        exists cs1, cs2. now repeat split. }
      now rewrite Eg.
  - intros ads1 ad ads2 H1 H2 H3. unfold Resolver.selectCreative.
    assert (Ef : List.find Vast.hasCreatives (ads1 ++ ad :: ads2) = Some ad).
    { apply find_first. exists ads1, ads2. now repeat split. }
    now rewrite Ef, H3.
  - intros breakInfo o s Ho. unfold Manager.startAdBreak_resume.
    destruct (negb (Manager.vastUrl_truthy (vastUrl (Manager.heap s breakInfo)))).
    + now repeat split.
    + rewrite Ho. destruct o; now repeat split.
Qed.

(** X5, instance: the first ad has a creative that is not linear, the
    second a playable linear one; nothing is selected. *)
Lemma X5_witness :
  Resolver.selectCreative
    (Vast.Response
       ([] ++ Vast.mkAd (Some [Vast.mkCreative "companion" None JUndefined JUndefined
                                               None None]) None
           :: [Vast.mkAd (Some [creativeWith (JNum 20) (JNum 5)]) None]))
  = None.
Proof.
  apply (proj1 (proj2 (proj2 X5_initialize_reads_the_first_ad_with_creatives))).
  - constructor.
  - reflexivity.
  - reflexivity.
Defined.

(* ===================================================================== *)
(** * The client-swap player: entering an ad (X6) *)
(* ===================================================================== *)

Lemma getMediaFileUrl_first c u :
  Vast.getMediaFileUrl c = Some u <->
  exists fs1 f fs2,
    Vast.mediaFiles c = Some (fs1 ++ f :: fs2) /\ Vast.fileURL f = Some u /\
    str_truthy u = true /\
    Forall (fun g => forall w, Vast.fileURL g = Some w -> str_truthy w = false) fs1.
Proof.
  unfold Vast.getMediaFileUrl.
  set (p := fun f => match Vast.fileURL f with Some u => str_truthy u | None => false end).
  assert (Hp : forall fs,
             match List.find p fs with Some f => Vast.fileURL f | None => None end = Some u <->
             exists fs1 f fs2,
               fs = fs1 ++ f :: fs2 /\ Vast.fileURL f = Some u /\ str_truthy u = true /\
               Forall (fun g => forall w, Vast.fileURL g = Some w -> str_truthy w = false) fs1).
  { intros fs. split.
    - destruct (List.find p fs) as [f|] eqn:Ef; [|discriminate].
      intros Hu. apply find_first in Ef. destruct Ef as (fs1 & fs2 & -> & H1 & H2).
      exists fs1, f, fs2. split; [reflexivity|]. split; [exact Hu|].
      split; [unfold p in H2; now rewrite Hu in H2|].
      eapply Forall_impl; [exact H1|]. intros g Hg w Hw. unfold p in Hg. now rewrite Hw in Hg.
    - intros (fs1 & f & fs2 & -> & Hu & Ht & H1).
      assert (Ef : List.find p (fs1 ++ f :: fs2) = Some f).
      { apply find_first. exists fs1, fs2. split; [reflexivity|]. split.
        - eapply Forall_impl; [exact H1|]. intros g Hg. unfold p.
          destruct (Vast.fileURL g) as [w|] eqn:Eg; [now apply Hg | reflexivity].
        - unfold p. now rewrite Hu. }
      now rewrite Ef. }
  destruct (Vast.mediaFiles c) as [[|f0 fs]|].
  - split; [discriminate|]. intros (fs1 & f & fs2 & H & _). injection H as H. now destruct fs1.
  - rewrite (Hp (f0 :: fs)). split; intros (fs1 & f & fs2 & H & Hr).
    + exists fs1, f, fs2. now rewrite H.
    + exists fs1, f, fs2. injection H as H. now split.
  - split; [discriminate|]. intros (fs1 & f & fs2 & H & _). discriminate.
Qed.

Lemma clientSwapDuration_pos c : 0 < Resolver.clientSwapDuration c.
Proof.
  unfold Resolver.clientSwapDuration. destruct (Vast.duration c) as [| | |q]; try reflexivity.
  destruct (Qlt_bool 0 q) eqn:E; [now apply Qlt_bool_iff in E | reflexivity].
Qed.

Lemma clientSwapSkipOffset_nonneg c : 0 <= Resolver.clientSwapSkipOffset c.
Proof.
  unfold Resolver.clientSwapSkipOffset. destruct (Vast.skipDelay c) as [| | |q]; try discriminate.
  destruct (Qge_bool q 0) eqn:E; [now apply Qge_bool_iff in E | discriminate].
Qed.

(** X6.  In the client-swap player a settled VAST fetch starts an ad
    exactly when the response yields a creative (first ad with creatives,
    its first playable linear creative) that has a media file with a
    non-empty URL; the URL played is that of the first such media file.
    The ad then recorded has a positive duration and a non-negative skip
    offset, starts at the break's content time, the player is switched to
    the media URL with the content listener removed and the previous
    source saved as content source, and one impression is sent.  A
    response that yields no such creative changes no state and touches
    neither player, overlay nor tracker (a warning is logged). *)
Theorem X6_client_swap_ad_entry :
  forall pos br o s,
    ClientSwap.adBreaks s !! pos = Some br ->
    (In (ClientSwap.AdEntered pos) (snd (ClientSwap.triggerAdBreak_settled pos o s)) <->
     exists ad c u, Resolver.selectCreative o = Some (ad, c) /\
                    Vast.getMediaFileUrl c = Some u) /\
    (forall ad c u,
        Resolver.selectCreative o = Some (ad, c) -> Vast.getMediaFileUrl c = Some u ->
        (exists fs1 f fs2,
            Vast.mediaFiles c = Some (fs1 ++ f :: fs2) /\ Vast.fileURL f = Some u /\
            u <> "" /\
            Forall (fun g => Vast.fileURL g = None \/ Vast.fileURL g = Some "") fs1) /\
        exists cur,
          ClientSwap.currentAd (fst (ClientSwap.triggerAdBreak_settled pos o s)) = Some cur /\
          ClientSwap.breakInfo cur = pos /\ ClientSwap.mediaUrl cur = u /\
          0 < ClientSwap.duration cur /\ 0 <= ClientSwap.skipOffset cur /\
          ClientSwap.startContentTime cur = timeInSeconds br /\
          ClientSwap.vastTracker (fst (ClientSwap.triggerAdBreak_settled pos o s))
          = Some (ad, c) /\
          ClientSwap.playerSrc (fst (ClientSwap.triggerAdBreak_settled pos o s)) = Some u /\
          ClientSwap.contentSource (fst (ClientSwap.triggerAdBreak_settled pos o s))
          = ClientSwap.playerSrc s /\
          ClientSwap.contentListener (fst (ClientSwap.triggerAdBreak_settled pos o s))
          = false /\
          snd (ClientSwap.triggerAdBreak_settled pos o s)
          = [ClientSwap.Pixel Manager.Impression; ClientSwap.AdEntered pos;
             ClientSwap.OverlayShow; ClientSwap.Pause; ClientSwap.SetSource u]) /\
    (forall ads,
        o = Vast.Response ads ->
        (forall ad c, Resolver.selectCreative o = Some (ad, c) ->
                      Vast.getMediaFileUrl c = None) ->
        ClientSwap.triggerAdBreak_settled pos o s = (s, [])).
Proof.
  intros pos br o s Hbr. unfold ClientSwap.triggerAdBreak_settled. rewrite Hbr.
  split; [|split].
  - destruct o as [|ads].
    + simpl. split; [intros [H|[]]; discriminate | intros (ad & c & u & H & _); discriminate].
    + destruct (Resolver.selectCreative (Vast.Response ads)) as [[validAd creative]|].
      * destruct (Vast.getMediaFileUrl creative) as [mediaUrl|] eqn:Em; simpl.
        -- split; [intros _; now exists validAd, creative, mediaUrl | intros _; auto].
        -- split; [intros [] | intros (ad & c & u & [= <- <-] & Hu); congruence].
      * simpl. split; [intros [] | intros (ad & c & u & H & _); discriminate].
  - intros ad c u Hsel Hu. split.
    + apply getMediaFileUrl_first in Hu. destruct Hu as (fs1 & f & fs2 & H1 & H2 & H3 & H4).
      exists fs1, f, fs2. split; [exact H1|]. split; [exact H2|]. split.
      * intros ->. discriminate.
      * eapply Forall_impl; [exact H4|]. intros g Hg. simpl in Hg.
        destruct (Vast.fileURL g) as [w|]; [|now left]. right. f_equal.
        specialize (Hg w eq_refl). unfold str_truthy in Hg.
        apply negb_false_iff, String.eqb_eq in Hg. exact Hg.
    + destruct o as [|ads]; [discriminate|]. rewrite Hsel, Hu. simpl.
      eexists. split; [reflexivity|]. simpl.
      repeat split; [apply clientSwapDuration_pos | apply clientSwapSkipOffset_nonneg].
  - intros ads -> Hnone.
    destruct (Resolver.selectCreative (Vast.Response ads)) as [[validAd creative]|];
      [|reflexivity].
    now rewrite (Hnone validAd creative eq_refl).
Qed.

(** X6, instance: the pre-roll of [clientSwapSchedule] and a response with
    one playable creative. *)
Lemma X6_witness :
  clientSwapSchedule !! 0%nat
  = Some (mkAdBreak 0 "start" 0 "break_0" (UriString "https://ads.example/pre")
                    JUndefined JUndefined None) /\
  In (ClientSwap.AdEntered 0)
     (snd (ClientSwap.triggerAdBreak_settled 0 (responseWith (JNum 15) (JNum 5))
             (ClientSwap.loaded clientSwapSchedule 596 "https://cdn.example/content.mp4"))).
Proof.
  assert (H : ClientSwap.adBreaks
                (ClientSwap.loaded clientSwapSchedule 596 "https://cdn.example/content.mp4")
              !! 0%nat
              = Some (mkAdBreak 0 "start" 0 "break_0" (UriString "https://ads.example/pre")
                                JUndefined JUndefined None)).
  { vm_compute. reflexivity. }
  split; [exact H|].
  apply (proj2 (proj1 (X6_client_swap_ad_entry 0 _ (responseWith (JNum 15) (JNum 5)) _ H))).
  eexists _, _, _. split; reflexivity.
Defined.

(* ===================================================================== *)
(** * The overlay: the skip button (X7) *)
(* ===================================================================== *)

Lemma Qceiling_pos x : 0 < x -> (1 <= Qceiling x)%Z.
Proof.
  intros Hx. pose proof (Qle_ceiling x) as H.
  assert (H0 : 0 < inject_Z (Qceiling x)) by (eapply Qlt_le_trans; eassumption).
  unfold Qlt in H0. simpl in H0. lia.
Qed.

Lemma Qceiling_upper x : inject_Z (Qceiling x) < x + 1.
Proof.
  pose proof (Qceiling_lt x) as H.
  assert (E : inject_Z (Qceiling x - 1) == inject_Z (Qceiling x) - 1).
  { unfold Z.sub. rewrite inject_Z_plus. reflexivity. }
  rewrite E in H. set (c := inject_Z (Qceiling x)) in *. lra.
Qed.

(** X7.  [updateSkipButton(elapsed, duration, skipOffset)]: the button is
    enabled, and reads [Skip Ad], exactly when [elapsed >= skipOffset];
    before that it is disabled and shows a countdown that is a whole
    number, at least 1, namely the remaining time [skipOffset - elapsed]
    rounded up (so the button never shows [Skip in 0s]); the countdown
    never increases as [elapsed] grows.  What the button showed before
    does not matter for what it shows now, and the [Skip button enabled]
    line is logged only on the change from disabled to enabled: a second
    update of an enabled button logs nothing. *)
Theorem X7_skip_button_countdown :
  forall elapsed duration skipOffset btn,
    (AdOverlayController.disabled
       (fst (AdOverlayController.updateSkipButton elapsed duration skipOffset btn)) = false
     <-> skipOffset <= elapsed) /\
    (skipOffset <= elapsed ->
     AdOverlayController.updateSkipButton elapsed duration skipOffset btn
     = (AdOverlayController.mkSkipButton false AdOverlayController.SkipAd,
        AdOverlayController.disabled btn)) /\
    (elapsed < skipOffset ->
     exists n,
       AdOverlayController.updateSkipButton elapsed duration skipOffset btn
       = (AdOverlayController.mkSkipButton true (AdOverlayController.SkipIn n), false) /\
       (1 <= n)%Z /\
       skipOffset - elapsed <= inject_Z n /\ inject_Z n < skipOffset - elapsed + 1) /\
    (forall elapsed' n n',
        elapsed <= elapsed' ->
        AdOverlayController.innerHTML
          (fst (AdOverlayController.updateSkipButton elapsed duration skipOffset btn))
        = AdOverlayController.SkipIn n ->
        AdOverlayController.innerHTML
          (fst (AdOverlayController.updateSkipButton elapsed' duration skipOffset btn))
        = AdOverlayController.SkipIn n' ->
        (n' <= n)%Z) /\
    (forall btn',
        fst (AdOverlayController.updateSkipButton elapsed duration skipOffset btn')
        = fst (AdOverlayController.updateSkipButton elapsed duration skipOffset btn)) /\
    (forall elapsed',
        skipOffset <= elapsed -> skipOffset <= elapsed' ->
        snd (AdOverlayController.updateSkipButton elapsed' duration skipOffset
               (fst (AdOverlayController.updateSkipButton elapsed duration skipOffset btn)))
        = false).
Proof.
  intros elapsed duration skipOffset btn. unfold AdOverlayController.updateSkipButton.
  split; [|split; [|split; [|split; [|split]]]].
  - destruct (Qge_bool elapsed skipOffset) eqn:E; simpl.
    + apply Qge_bool_iff in E. tauto.
    + split; [discriminate|]. intros H. apply Qge_bool_iff in H. congruence.
  - intros H. apply Qge_bool_iff in H. now rewrite H.
  - intros H. destruct (Qge_bool elapsed skipOffset) eqn:E.
    + apply Qge_bool_iff in E. lra.
    + eexists. split; [reflexivity|]. split; [apply Qceiling_pos; lra|].
      split; [apply Qle_ceiling | apply Qceiling_upper].
  - intros elapsed' n n' Hle.
    destruct (Qge_bool elapsed skipOffset); simpl; [discriminate|].
    destruct (Qge_bool elapsed' skipOffset); simpl; [discriminate|].
    intros [= <-] [= <-]. apply Qceiling_resp_le. lra.
  - intros btn'. now destruct (Qge_bool elapsed skipOffset).
  - intros elapsed' H H'. apply Qge_bool_iff in H, H'. now rewrite H, H'.
Qed.

(** X7, instance: two seconds into an ad that can be skipped after five,
    the button reads [Skip in 3s]. *)
Lemma X7_witness :
  2 < 5 /\
  exists n,
    AdOverlayController.updateSkipButton 2 30 5
      (AdOverlayController.mkSkipButton true (AdOverlayController.SkipIn 5))
    = (AdOverlayController.mkSkipButton true (AdOverlayController.SkipIn n), false) /\
    (1 <= n)%Z /\ 5 - 2 <= inject_Z n /\ inject_Z n < 5 - 2 + 1.
Proof.
  assert (H : 2 < 5) by reflexivity.
  split; [exact H|].
  exact (proj1 (proj2 (proj2
           (X7_skip_button_countdown 2 30 5
              (AdOverlayController.mkSkipButton true (AdOverlayController.SkipIn 5))))) H).
Defined.

(* ===================================================================== *)
(** * The stream-relative reconciler: progress (X8) *)
(* ===================================================================== *)

Lemma manager_findIndex_position s p cur :
  Manager.adBreaks s !! p = Some cur ->
  (forall j r, (j < p)%nat -> Manager.adBreaks s !! j = Some r ->
               breakId (Manager.heap s r) <> breakId (Manager.heap s cur)) ->
  Timeline.findIndexById (Manager.breaks s) (breakId (Manager.heap s cur)) = Z.of_nat p.
Proof.
  intros Hp Huniq. unfold Timeline.findIndexById.
  rewrite (findIndexFrom_first _ (Manager.breaks s) 0 p (Manager.heap s cur));
    [reflexivity | now apply breaks_lookup | reflexivity |].
  intros k' y Hk Hy. unfold Manager.breaks in Hy. rewrite list_lookup_fmap in Hy.
  destruct (Manager.adBreaks s !! k') as [r|] eqn:Er; [|discriminate].
  injection Hy as <-. now apply (Huniq k').
Qed.

Lemma manager_detect_window s t p r :
  Manager.detectActiveBreak s t = Some (p, r) ->
  Manager.adBreaks s !! p = Some r /\ inWindow (Manager.breaks s) p (Manager.heap s r) t.
Proof.
  intros Hd. pose proof (manager_detect_position _ _ _ _ Hd) as Hp. split; [exact Hp|].
  apply (manager_detect_iff s t p r Hp) in Hd. now apply detectActiveBreak_first in Hd.
Qed.

Lemma update_in_break s t p r cur :
  Manager.isInAdBreak s = true -> Manager.currentAdBreak s = Some cur ->
  Manager.detectActiveBreak s t = Some (p, r) ->
  Manager.update t s
  = Manager.updateProgress
      (t - (timeInSeconds (Manager.heap s cur)
            + Manager.getCumulativeAdDuration s
                (Timeline.findIndexById (Manager.breaks s) (breakId (Manager.heap s cur)))))
      s.
Proof.
  intros Hin Hcur Hd. unfold Manager.update.
  destruct (Manager.adBreaks s) as [|a l] eqn:El.
  - unfold Manager.detectActiveBreak in Hd. rewrite El in Hd. discriminate.
  - rewrite Hd, Hin, Hcur. reflexivity.
Qed.

(** X8.  While the active break is the one the clock sample falls in, and
    no earlier break shares its identifier, [update] leaves the state
    alone and reports progress measured from the break's shifted start:
    the elapsed time handed to the skip button and to the tracker is
    [hlsTime - start], and it lies in [0, duration).  So the skip button
    is enabled by that update exactly when the sample is at least
    [skipOffset || 5] seconds into the break's window, and the overlay
    stays as shown or hidden as it was. *)
Theorem X8_progress_is_measured_from_the_window_start :
  forall s t p cur,
    Manager.isInAdBreak s = true ->
    Manager.currentAdBreak s = Some cur ->
    Manager.detectActiveBreak s t = Some (p, cur) ->
    (forall j r, (j < p)%nat -> Manager.adBreaks s !! j = Some r ->
                 breakId (Manager.heap s r) <> breakId (Manager.heap s cur)) ->
    let elapsed := t - Timeline.startTime (Manager.breaks s) p (Manager.heap s cur) in
    let k := or_default (skipOffset (Manager.heap s cur)) CONFIG.DEFAULT_SKIP_OFFSET in
    Manager.state (Manager.update t s) = s /\
    Manager.effects (Manager.update t s)
    = Manager.UpdateSkipButton elapsed (adDuration (Manager.heap s cur)) k
        :: Manager.tracker_event (Manager.MSetProgress elapsed) (Manager.Progress elapsed) s /\
    0 <= elapsed /\ elapsed < adDuration (Manager.heap s cur) /\
    (forall o,
        (AdOverlayController.disabled
           (AdOverlayController.skipButton
              (AdOverlayController.perform (Manager.effects (Manager.update t s)) o)) = false
         <-> Timeline.startTime (Manager.breaks s) p (Manager.heap s cur) + k <= t) /\
        AdOverlayController.active
          (AdOverlayController.perform (Manager.effects (Manager.update t s)) o)
        = AdOverlayController.active o).
Proof.
  intros s t p cur Hin Hcur Hd Huniq elapsed k.
  destruct (manager_detect_window _ _ _ _ Hd) as [Hp [Hlo Hhi]].
  rewrite (update_in_break s t p cur cur Hin Hcur Hd).
  rewrite (manager_findIndex_position s p cur Hp Huniq).
  unfold Manager.updateProgress. rewrite Hcur. cbv zeta.
  change (t - (timeInSeconds (Manager.heap s cur)
               + Manager.getCumulativeAdDuration s (Z.of_nat p))) with elapsed.
  change (or_default (skipOffset (Manager.heap s cur)) CONFIG.DEFAULT_SKIP_OFFSET) with k.
  split; [reflexivity|]. split; [reflexivity|].
  unfold Timeline.endTime in Hhi. subst elapsed.
  split; [lra|]. split; [lra|].
  intros o. simpl Manager.effects. unfold Manager.tracker_event.
  assert (Hperf : AdOverlayController.perform
                    (Manager.UpdateSkipButton
                       (t - Timeline.startTime (Manager.breaks s) p (Manager.heap s cur))
                       (adDuration (Manager.heap s cur)) k
                       :: Manager.EmitterCall
                            (Manager.MSetProgress
                               (t - Timeline.startTime (Manager.breaks s) p (Manager.heap s cur)))
                       :: match Manager.vastTracker s with
                          | Some _ =>
                              [Manager.Pixel
                                 (Manager.Progress
                                    (t - Timeline.startTime (Manager.breaks s) p
                                           (Manager.heap s cur)))]
                          | None => []
                          end) o
                  = AdOverlayController.mkOverlay (AdOverlayController.active o)
                      (fst (AdOverlayController.updateSkipButton
                              (t - Timeline.startTime (Manager.breaks s) p (Manager.heap s cur))
                              (adDuration (Manager.heap s cur)) k
                              (AdOverlayController.skipButton o)))).
  { simpl. now destruct (Manager.vastTracker s). }
  rewrite Hperf. simpl. split; [|reflexivity].
  unfold AdOverlayController.updateSkipButton.
  destruct (Qge_bool (t - Timeline.startTime (Manager.breaks s) p (Manager.heap s cur)) k)
    eqn:E; simpl.
  - apply Qge_bool_iff in E. split; [intros _; lra | reflexivity].
  - split; [discriminate|]. intros H. exfalso.
    assert (E' : Qge_bool (t - Timeline.startTime (Manager.breaks s) p (Manager.heap s cur)) k
                 = true) by (apply Qge_bool_iff; lra).
    congruence.
Qed.

(** X8, instance: the mid-roll of [prerollMidroll] is active and the clock
    reads 331. *)
Lemma X8_witness :
  Manager.isInAdBreak (managerWith prerollMidroll (Some 1%nat) None) = true /\
  Manager.detectActiveBreak (managerWith prerollMidroll (Some 1%nat) None) 331
  = Some (1%nat, 1%nat) /\
  Manager.state (Manager.update 331 (managerWith prerollMidroll (Some 1%nat) None))
  = managerWith prerollMidroll (Some 1%nat) None.
Proof.
  assert (H1 : Manager.isInAdBreak (managerWith prerollMidroll (Some 1%nat) None) = true)
    by reflexivity.
  assert (H2 : Manager.detectActiveBreak (managerWith prerollMidroll (Some 1%nat) None) 331
               = Some (1%nat, 1%nat)) by (vm_compute; reflexivity).
  split; [exact H1|]. split; [exact H2|].
  refine (proj1 (X8_progress_is_measured_from_the_window_start
                   (managerWith prerollMidroll (Some 1%nat) None) 331 1 1 H1 eq_refl H2 _)).
  intros j r Hj Hr. destruct j as [|[|j]]; [|lia|lia].
  vm_compute in Hr. injection Hr as <-. vm_compute. discriminate.
Defined.

(* ===================================================================== *)
(** * The stream-relative reconciler: one break at a time (X9) *)
(* ===================================================================== *)

Lemma detectActiveBreak_frame s s' t :
  Manager.heap s' = Manager.heap s -> Manager.adBreaks s' = Manager.adBreaks s ->
  Manager.detectActiveBreak s' t = Manager.detectActiveBreak s t.
Proof.
  intros Hh Ha. unfold Manager.detectActiveBreak, Manager.breaks. now rewrite Hh, Ha.
Qed.

Lemma updateProgress_quiet elapsed s :
  Manager.state (Manager.updateProgress elapsed s) = s /\
  List.filter isVastGet (Manager.effects (Manager.updateProgress elapsed s)) = [] /\
  List.filter isInitializeCall (Manager.effects (Manager.updateProgress elapsed s)) = [] /\
  List.filter isOverlayShow (Manager.effects (Manager.updateProgress elapsed s)) = [].
Proof.
  unfold Manager.updateProgress, Manager.tracker_event.
  destruct (Manager.currentAdBreak s); [|now repeat split].
  destruct (Manager.vastTracker s); now repeat split.
Qed.

Lemma countEffects_app p l1 l2 :
  Manager.countEffects p (l1 ++ l2)
  = (Manager.countEffects p l1 + Manager.countEffects p l2)%nat.
Proof.
  unfold Manager.countEffects. now rewrite List.filter_app, length_app.
Qed.

Lemma updates_in_windows_stay ts : forall s cur,
  Manager.isInAdBreak s = true -> Manager.currentAdBreak s = Some cur ->
  (forall t, In t ts -> Manager.detectActiveBreak s t <> None) ->
  Manager.run (map Manager.OUpdate ts) s = s /\
  List.filter isVastGet (trace (map Manager.OUpdate ts) s) = [] /\
  List.filter isInitializeCall (trace (map Manager.OUpdate ts) s) = [] /\
  List.filter isOverlayShow (trace (map Manager.OUpdate ts) s) = [].
Proof.
  induction ts as [|t ts IH]; intros s cur Hin Hcur Hall; simpl.
  - now repeat split.
  - destruct (Manager.detectActiveBreak s t) as [[p r]|] eqn:Ed;
      [|exfalso; apply (Hall t); [now left | exact Ed]].
    rewrite (update_in_break s t p r cur Hin Hcur Ed).
    destruct (updateProgress_quiet
                (t - (timeInSeconds (Manager.heap s cur)
                      + Manager.getCumulativeAdDuration s
                          (Timeline.findIndexById (Manager.breaks s)
                                                  (breakId (Manager.heap s cur))))) s)
      as (Hs & Hv & Hi & Ho).
    rewrite Hs.
    destruct (IH s cur Hin Hcur (fun t' Ht' => Hall t' (or_intror Ht')))
      as (IH1 & IH2 & IH3 & IH4).
    rewrite !List.filter_app, Hv, Hi, Ho, IH2, IH3, IH4. now repeat split.
Qed.

(** X9.  [update] never moves from one break to another.  While a break
    is active, a clock sample either leaves the state as it is (the sample
    falls in some break's window, whichever) or ends the break; it never
    starts a fetch or shows the overlay again.  Hence, starting idle, a
    sequence of samples each of which falls in some window -- for
    instance after a seek from one break straight into another -- enters
    the break detected at the first sample, keeps it as the active break
    throughout, and calls [tracker.initialize] and shows the overlay
    exactly once (one VAST fetch when the break has a locator, none
    otherwise). *)
Theorem X9_update_keeps_the_break_it_entered :
  (forall s t cur,
      Manager.isInAdBreak s = true -> Manager.currentAdBreak s = Some cur ->
      (Manager.detectActiveBreak s t <> None -> Manager.state (Manager.update t s) = s) /\
      (Manager.currentAdBreak (Manager.state (Manager.update t s)) = Some cur \/
       Manager.currentAdBreak (Manager.state (Manager.update t s)) = None) /\
      Manager.countEffects isVastGet (Manager.effects (Manager.update t s)) = 0%nat /\
      Manager.countEffects isOverlayShow (Manager.effects (Manager.update t s)) = 0%nat) /\
  (forall s t0 ts p r,
      Manager.isInAdBreak s = false ->
      Manager.detectActiveBreak s t0 = Some (p, r) ->
      (forall t, In t ts -> Manager.detectActiveBreak s t <> None) ->
      Manager.currentAdBreak (Manager.run (map Manager.OUpdate (t0 :: ts)) s) = Some r /\
      Manager.isInAdBreak (Manager.run (map Manager.OUpdate (t0 :: ts)) s) = true /\
      Manager.countEffects isInitializeCall (trace (map Manager.OUpdate (t0 :: ts)) s)
      = 1%nat /\
      Manager.countEffects isVastGet (trace (map Manager.OUpdate (t0 :: ts)) s)
      = (if Manager.vastUrl_truthy (vastUrl (Manager.heap s r)) then 1 else 0)%nat /\
      Manager.countEffects isOverlayShow (trace (map Manager.OUpdate (t0 :: ts)) s) = 1%nat).
Proof.
  split.
  - intros s t cur Hin Hcur.
    destruct (Manager.detectActiveBreak s t) as [[p r]|] eqn:Ed.
    + rewrite (update_in_break s t p r cur Hin Hcur Ed).
      destruct (updateProgress_quiet
                  (t - (timeInSeconds (Manager.heap s cur)
                        + Manager.getCumulativeAdDuration s
                            (Timeline.findIndexById (Manager.breaks s)
                                                    (breakId (Manager.heap s cur))))) s)
        as (Hs & Hv & Hi & Ho).
      unfold Manager.countEffects. rewrite Hs, Hv, Ho. auto.
    + unfold Manager.update. rewrite Ed, Hin.
      destruct (Manager.adBreaks s); simpl.
      * split; [congruence|]. auto.
      * split; [congruence|]. split; [now right|].
        unfold Manager.tracker_event. now destruct (Manager.vastTracker s).
  - intros s t0 ts p r Hidle Hd Hall.
    assert (Hu : Manager.update t0 s = Manager.startAdBreak r s).
    { unfold Manager.update. destruct (Manager.adBreaks s) eqn:El.
      - unfold Manager.detectActiveBreak in Hd. rewrite El in Hd. discriminate.
      - now rewrite Hd, Hidle. }
    simpl. rewrite Hu.
    set (s1 := Manager.state (Manager.startAdBreak r s)).
    assert (Hall1 : forall t, In t ts -> Manager.detectActiveBreak s1 t <> None).
    { intros t Ht. rewrite (detectActiveBreak_frame s s1 t); [now apply Hall | reflexivity..]. }
    destruct (updates_in_windows_stay ts s1 r eq_refl eq_refl Hall1) as (H1 & H2 & H3 & H4).
    rewrite H1. split; [reflexivity|]. split; [reflexivity|].
    rewrite !countEffects_app. unfold Manager.countEffects at 2 4 6. rewrite H2, H3, H4.
    unfold Manager.startAdBreak. simpl.
    destruct (Manager.vastUrl_truthy (vastUrl (Manager.heap s r))); now repeat split.
Qed.

(** X9, instance: the clock jumps from the pre-roll (sample 10) into the
    mid-roll's window (sample 331); the pre-roll stays the active
    break. *)
Lemma X9_witness :
  (Manager.detectActiveBreak (managerWith prerollMidroll None None) 10
   = Some (0%nat, 0%nat)) /\
  (Manager.detectActiveBreak (managerWith prerollMidroll None None) 331 <> None) /\
  Manager.currentAdBreak
    (Manager.run (map Manager.OUpdate [10; 331]) (managerWith prerollMidroll None None))
  = Some 0%nat.
Proof.
  assert (H1 : Manager.detectActiveBreak (managerWith prerollMidroll None None) 10
               = Some (0%nat, 0%nat)) by (vm_compute; reflexivity).
  assert (H2 : forall t, In t [331] ->
                         Manager.detectActiveBreak (managerWith prerollMidroll None None) t
                         <> None).
  { intros t [<- | []]. vm_compute. discriminate. }
  split; [exact H1|]. split; [apply H2; now left|].
  exact (proj1 (proj2 X9_update_keeps_the_break_it_entered
                  (managerWith prerollMidroll None None) 10 [331] 0%nat 0%nat
                  eq_refl H1 H2)).
Defined.

(* ===================================================================== *)
(** * The stream-relative reconciler: after a skip (X10) *)
(* ===================================================================== *)

Lemma nonNegativeDurations_lookup l i b :
  nonNegativeDurations l -> l !! i = Some b -> 0 <= adDuration b.
Proof.
  intros Hn Hi. unfold nonNegativeDurations in Hn. rewrite Forall_forall in Hn.
  apply Hn, list_elem_of_lookup. eauto.
Qed.

(** X10.  Skipping leads out of the break's own window.  When no earlier
    break shares the active break's identifier, the seek target of
    [skipCurrentAd] is the end of the break's shifted window, which the
    window (half-open) does not contain.  In a schedule sorted by time
    with non-negative durations, a sample at the target can only fall in
    the window of a later break; and when it falls in none -- in
    particular when every later window starts after the target --
    [update] at the target ends the break: the overlay is hidden and the
    tracker is completed and reset. *)
Theorem X10_skip_lands_past_the_window :
  forall s cur p,
    Manager.isInAdBreak s = true ->
    Manager.currentAdBreak s = Some cur ->
    Manager.adBreaks s !! p = Some cur ->
    (forall j r, (j < p)%nat -> Manager.adBreaks s !! j = Some r ->
                 breakId (Manager.heap s r) <> breakId (Manager.heap s cur)) ->
    let target := Timeline.endTime (Manager.breaks s) p (Manager.heap s cur) in
    In (Manager.Seek
          (timeInSeconds (Manager.heap s cur)
           + Manager.getCumulativeAdDuration s (Z.of_nat p)
           + adDuration (Manager.heap s cur)))
       (Manager.effects (Manager.skipCurrentAd true s)) /\
    timeInSeconds (Manager.heap s cur) + Manager.getCumulativeAdDuration s (Z.of_nat p)
    + adDuration (Manager.heap s cur) == target /\
    ~ inWindow (Manager.breaks s) p (Manager.heap s cur) target /\
    (sortedByTime (Manager.breaks s) -> nonNegativeDurations (Manager.breaks s) ->
     forall j r, Manager.detectActiveBreak s target = Some (j, r) -> (p < j)%nat) /\
    (Manager.detectActiveBreak s target = None ->
     Manager.update target s = Manager.endAdBreak s) /\
    (sortedByTime (Manager.breaks s) -> nonNegativeDurations (Manager.breaks s) ->
     (forall j r, (p < j)%nat -> Manager.adBreaks s !! j = Some r ->
                  target < Timeline.startTime (Manager.breaks s) j (Manager.heap s r)) ->
     Manager.update target s = Manager.endAdBreak s /\
     Manager.isInAdBreak (Manager.state (Manager.update target s)) = false /\
     In Manager.OverlayHide (Manager.effects (Manager.update target s))).
Proof.
  intros s cur p Hin Hcur Hp Huniq target.
  assert (Hnw : ~ inWindow (Manager.breaks s) p (Manager.heap s cur) target).
  { intros [_ H]. revert H. apply Qlt_irrefl. }
  assert (Hlater : sortedByTime (Manager.breaks s) -> nonNegativeDurations (Manager.breaks s) ->
                   forall j r, Manager.detectActiveBreak s target = Some (j, r) -> (p < j)%nat).
  { intros Hs Hn j r Hd. destruct (manager_detect_window _ _ _ _ Hd) as [Hj Hw].
    destruct (Nat.lt_trichotomy j p) as [Hlt | [Heq | Hgt]]; [| |exact Hgt].
    - exfalso.
      pose proof (windows_ordered _ j p _ _ Hs Hn Hlt (breaks_lookup _ _ _ Hj)
                                  (breaks_lookup _ _ _ Hp)) as Hord.
      pose proof (nonNegativeDurations_lookup _ _ _ Hn (breaks_lookup _ _ _ Hp)) as Hd0.
      destruct Hw as [_ Hhi]. subst target. unfold Timeline.endTime in Hhi, Hord. lra.
    - subst j. rewrite Hp in Hj. injection Hj as <-. contradiction. }
  assert (Hend : Manager.detectActiveBreak s target = None ->
                 Manager.update target s = Manager.endAdBreak s).
  { intros Hd. unfold Manager.update. rewrite Hd, Hin.
    destruct (Manager.adBreaks s); [discriminate | reflexivity]. }
  split; [|split; [|split; [exact Hnw|split; [exact Hlater|split; [exact Hend|]]]]].
  - unfold Manager.skipCurrentAd. rewrite Hcur.
    rewrite (manager_findIndex_position s p cur Hp Huniq). cbv zeta.
    cbn [Manager.effects]. apply in_or_app. right. now left.
  - subst target. unfold Timeline.endTime, Timeline.startTime, Manager.getCumulativeAdDuration.
    reflexivity.
  - intros Hs Hn Hgap.
    assert (Hd : Manager.detectActiveBreak s target = None).
    { destruct (Manager.detectActiveBreak s target) as [[j r]|] eqn:Ed; [|reflexivity].
      exfalso. pose proof (Hlater Hs Hn j r eq_refl) as Hj.
      destruct (manager_detect_window _ _ _ _ Ed) as [Hjr [Hlo _]].
      specialize (Hgap j r Hj Hjr). lra. }
    rewrite Hd in Hend. rewrite (Hend eq_refl). split; [reflexivity|]. split; [reflexivity|].
    unfold Manager.endAdBreak. cbn [Manager.effects]. apply in_or_app. right. right. now left.
Qed.

(** X10, instance: the pre-roll of [prerollMidroll] is skipped; the seek
    goes to the end of its window. *)
Lemma X10_witness :
  Manager.adBreaks (managerWith prerollMidroll (Some 0%nat) None) !! 0%nat = Some 0%nat /\
  In (Manager.Seek
        (timeInSeconds (exampleBreak 0 0 "break_0" (JNum 30))
         + Manager.getCumulativeAdDuration (managerWith prerollMidroll (Some 0%nat) None)
                                           (Z.of_nat 0)
         + adDuration (exampleBreak 0 0 "break_0" (JNum 30))))
     (Manager.effects (Manager.skipCurrentAd true
                         (managerWith prerollMidroll (Some 0%nat) None))).
Proof.
  split; [reflexivity|].
  refine (proj1 (X10_skip_lands_past_the_window
                   (managerWith prerollMidroll (Some 0%nat) None) 0%nat 0%nat
                   eq_refl eq_refl eq_refl _)).
  intros j r Hj. lia.
Defined.

(* ===================================================================== *)
(** * The stream-relative reconciler: without a schedule (X11) *)
(* ===================================================================== *)

Lemma playback_without_schedule ops : forall s0,
  Manager.adBreaks s0 = [] -> Manager.currentAdBreak s0 = None ->
  Forall (fun op => isPlaybackOp op = true) ops ->
  Manager.run ops s0 = s0 /\
  Forall (fun e => e = Manager.ConsoleWarn "[AD BREAK] Cannot skip - no active ad break")
         (trace ops s0).
Proof.
  induction ops as [|op ops IH]; intros s0 Ha Hc Hops; simpl.
  - split; [reflexivity | constructor].
  - inversion Hops as [|? ? Hop Hops']; subst.
    assert (Hex : Manager.state (Manager.exec op s0) = s0 /\
                  Forall (fun e => e = Manager.ConsoleWarn
                                         "[AD BREAK] Cannot skip - no active ad break")
                         (Manager.effects (Manager.exec op s0))).
    { destruct op; try discriminate; simpl.
      - unfold Manager.update. rewrite Ha. split; [reflexivity | constructor].
      - unfold Manager.updateProgress. rewrite Hc. split; [reflexivity | constructor].
      - unfold Manager.skipCurrentAd. rewrite Hc. simpl.
        split; [reflexivity | now repeat constructor]. }
    destruct Hex as [Hs Hfx]. rewrite Hs.
    destruct (IH s0 Ha Hc Hops') as [IH1 IH2].
    split; [exact IH1 | now apply Forall_app].
Qed.

(** X11.  Without a schedule nothing happens.  In a state with an empty
    break array and no active break -- the state the constructor and
    [reset] leave, and the one the player stays in when the VMAP request
    fails -- clock samples, progress updates and skip clicks leave the
    state as it is and have no effect on overlay, tracker or player: the
    only thing a skip click does is log a warning. *)
Theorem X11_no_schedule_no_ads :
  (forall s0 ops,
      Manager.adBreaks s0 = [] -> Manager.currentAdBreak s0 = None ->
      Forall (fun op => isPlaybackOp op = true) ops ->
      Manager.run ops s0 = s0 /\
      Forall (fun e => e = Manager.ConsoleWarn "[AD BREAK] Cannot skip - no active ad break")
             (trace ops s0)) /\
  (forall s ops,
      Forall (fun op => isPlaybackOp op = true) ops ->
      Manager.run ops (Manager.state (Manager.reset s)) = Manager.state (Manager.reset s)) /\
  (forall h ops,
      Forall (fun op => isPlaybackOp op = true) ops ->
      Manager.run ops (Manager.constructor h) = Manager.constructor h).
Proof.
  split; [intros; now apply playback_without_schedule|].
  split; intros; now apply playback_without_schedule.
Qed.

(** X11, instance: after [reset], a clock sample and a skip click. *)
Lemma X11_witness :
  Forall (fun op => isPlaybackOp op = true) [Manager.OUpdate 10; Manager.OSkipCurrentAd true] /\
  Manager.run [Manager.OUpdate 10; Manager.OSkipCurrentAd true]
              (Manager.state (Manager.reset midrollActive))
  = Manager.state (Manager.reset midrollActive).
Proof.
  assert (H : Forall (fun op => isPlaybackOp op = true)
                     [Manager.OUpdate 10; Manager.OSkipCurrentAd true])
    by (repeat constructor).
  split; [exact H|].
  exact (proj1 (proj2 X11_no_schedule_no_ads) midrollActive _ H).
Defined.

(* ===================================================================== *)
(** * The stream-relative reconciler: order of the tracking pixels (X12) *)
(* ===================================================================== *)

Lemma exec_pixel_balance op s :
  (Manager.countEffects (isPixel Manager.Complete) (Manager.effects (Manager.exec op s))
   + sessionOpen (Manager.state (Manager.exec op s))
   <= Manager.countEffects (isPixel Manager.Impression) (Manager.effects (Manager.exec op s))
      + sessionOpen s)%nat.
Proof.
  unfold sessionOpen.
  destruct (Manager.vastTracker s) as [tr|] eqn:Et;
    destruct op as [refs | t | b | b o | | e | p |]; simpl; rewrite ?Et; try lia;
    unfold Manager.update, Manager.updateProgress, Manager.startAdBreak,
           Manager.endAdBreak, Manager.skipCurrentAd, Manager.startAdBreak_resume,
           Manager.applyToMasterList, Manager.tracker_event;
    repeat match goal with
           | |- context [match ?x with _ => _ end] =>
               lazymatch x with
               | context [match _ with _ => _ end] => fail
               | _ => destruct x eqn:?
               end
           | |- context [if ?x then _ else _] => destruct x eqn:?
           end;
    simpl in *; try congruence; rewrite ?Et; simpl; lia.
Qed.

Lemma trace_pixel_balance ops : forall s,
  (Manager.countEffects (isPixel Manager.Complete) (trace ops s)
   + sessionOpen (Manager.run ops s)
   <= Manager.countEffects (isPixel Manager.Impression) (trace ops s) + sessionOpen s)%nat.
Proof.
  induction ops as [|op ops IH]; intros s; simpl.
  - unfold Manager.countEffects. simpl. lia.
  - rewrite !countEffects_app.
    pose proof (exec_pixel_balance op s). pose proof (IH (Manager.state (Manager.exec op s))).
    lia.
Qed.

Lemma exec_first_pixel op s :
  Manager.vastTracker s = None ->
  (List.filter isAnyPixel (Manager.effects (Manager.exec op s)) = [] /\
   Manager.vastTracker (Manager.state (Manager.exec op s)) = None) \/
  List.filter isAnyPixel (Manager.effects (Manager.exec op s))
  = [Manager.Pixel Manager.Impression].
Proof.
  intros Hn.
  destruct op as [refs | t | b | b o | | e | p |]; simpl.
  - now left.
  - unfold Manager.update. destruct (Manager.adBreaks s); [now left|].
    destruct (Manager.detectActiveBreak s t) as [[i r]|], (Manager.isInAdBreak s).
    + destruct (Manager.currentAdBreak s) eqn:Ec; [|now left].
      unfold Manager.updateProgress, Manager.tracker_event. rewrite Ec, Hn. now left.
    + unfold Manager.startAdBreak. simpl.
      destruct (Manager.vastUrl_truthy (vastUrl (Manager.heap s r))); now left.
    + unfold Manager.endAdBreak, Manager.tracker_event. rewrite Hn. now left.
    + now left.
  - unfold Manager.startAdBreak. simpl.
    destruct (Manager.vastUrl_truthy (vastUrl (Manager.heap s b))); now left.
  - unfold Manager.startAdBreak_resume.
    destruct (negb (Manager.vastUrl_truthy (vastUrl (Manager.heap s b)))); [now left|].
    destruct (Resolver.selectCreative o) as [[validAd creative]|].
    + simpl. destruct (Manager.currentAdBreak s) as [cur|]; now right.
    + destruct o; now left.
  - unfold Manager.endAdBreak, Manager.tracker_event. rewrite Hn. now left.
  - unfold Manager.updateProgress, Manager.tracker_event.
    destruct (Manager.currentAdBreak s); rewrite ?Hn; now left.
  - unfold Manager.skipCurrentAd, Manager.tracker_event.
    destruct (Manager.currentAdBreak s), p; rewrite ?Hn; now left.
  - now left.
Qed.

Lemma trace_first_pixel ops : forall s,
  Manager.vastTracker s = None ->
  List.filter isAnyPixel (trace ops s) = [] \/
  exists rest, List.filter isAnyPixel (trace ops s) = Manager.Pixel Manager.Impression :: rest.
Proof.
  induction ops as [|op ops IH]; intros s Hn; simpl.
  - now left.
  - rewrite List.filter_app.
    destruct (exec_first_pixel op s Hn) as [[Hfx Hs] | Hfx]; rewrite Hfx.
    + simpl. now apply IH.
    + right. simpl. eauto.
Qed.

(** X12.  Tracking pixels come in order.  In every sequence of reconciler
    operations started without a tracker session (as after construction
    or [reset]), the first pixel sent to the VAST tracker, if any, is an
    impression -- no progress, skip or completion pixel is sent before
    one -- and at no point have more completions been sent than
    impressions: a completion is sent only for a session that an
    impression opened, and it closes that session. *)
Theorem X12_pixels_follow_an_impression :
  forall ops s,
    Manager.vastTracker s = None ->
    (Manager.countEffects (isPixel Manager.Complete) (trace ops s)
     <= Manager.countEffects (isPixel Manager.Impression) (trace ops s))%nat /\
    (Manager.countEffects (isPixel Manager.Complete) (trace ops s)
     + sessionOpen (Manager.run ops s)
     <= Manager.countEffects (isPixel Manager.Impression) (trace ops s))%nat /\
    (List.filter isAnyPixel (trace ops s) = [] \/
     exists rest,
       List.filter isAnyPixel (trace ops s) = Manager.Pixel Manager.Impression :: rest).
Proof.
  intros ops s Hn. pose proof (trace_pixel_balance ops s) as H.
  unfold sessionOpen in H at 2. rewrite Hn in H.
  split; [lia|]. split; [lia|]. now apply trace_first_pixel.
Qed.

(** X12, instance: the pre-roll is entered, its metadata resolves, and the
    break is left. *)
Lemma X12_witness :
  Manager.vastTracker (managerWith prerollMidroll None None) = None /\
  (Manager.countEffects (isPixel Manager.Complete)
     (trace [Manager.OUpdate 10;
             Manager.OStartAdBreakResume 0 (responseWith (JNum 20) (JNum 5));
             Manager.OUpdate 25]
            (managerWith prerollMidroll None None))
   <= Manager.countEffects (isPixel Manager.Impression)
        (trace [Manager.OUpdate 10;
                Manager.OStartAdBreakResume 0 (responseWith (JNum 20) (JNum 5));
                Manager.OUpdate 25]
               (managerWith prerollMidroll None None)))%nat.
Proof.
  split; [reflexivity|].
  exact (proj1 (X12_pixels_follow_an_impression
                  [Manager.OUpdate 10;
                   Manager.OStartAdBreakResume 0 (responseWith (JNum 20) (JNum 5));
                   Manager.OUpdate 25]
                  (managerWith prerollMidroll None None) eq_refl)).
Defined.

(* ===================================================================== *)
(** * The overlay and the flag (X13) *)
(* ===================================================================== *)

Lemma perform_app l1 : forall l2 o,
  AdOverlayController.perform (l1 ++ l2) o
  = AdOverlayController.perform l2 (AdOverlayController.perform l1 o).
Proof.
  induction l1 as [|e l1 IH]; intros l2 o; simpl; [reflexivity|].
  destruct e; apply IH.
Qed.

Lemma exec_overlay_flag op s o :
  isReset op = false ->
  AdOverlayController.active o = Manager.isInAdBreak s ->
  AdOverlayController.active (AdOverlayController.perform (Manager.effects (Manager.exec op s)) o)
  = Manager.isInAdBreak (Manager.state (Manager.exec op s)).
Proof.
  intros Hop Ho.
  destruct op as [refs | t | b | b o' | | e | p |]; try discriminate; simpl;
    unfold Manager.update, Manager.updateProgress, Manager.startAdBreak,
           Manager.endAdBreak, Manager.skipCurrentAd, Manager.startAdBreak_resume,
           Manager.applyToMasterList, Manager.tracker_event;
    repeat match goal with
           | |- context [match ?x with _ => _ end] =>
               lazymatch x with
               | context [match _ with _ => _ end] => fail
               | _ => destruct x eqn:?
               end
           | |- context [if ?x then _ else _] => destruct x eqn:?
           end;
    simpl in *; congruence.
Qed.

Lemma trace_overlay_flag ops : forall s o,
  existsb isReset ops = false ->
  AdOverlayController.active o = Manager.isInAdBreak s ->
  AdOverlayController.active (AdOverlayController.perform (trace ops s) o)
  = Manager.isInAdBreak (Manager.run ops s).
Proof.
  induction ops as [|op ops IH]; intros s o Hops Ho; simpl.
  - exact Ho.
  - simpl in Hops. apply orb_false_iff in Hops. destruct Hops as [Hop Hops].
    rewrite perform_app. apply IH; [exact Hops|]. now apply exec_overlay_flag.
Qed.

Lemma playback_overlay_idle ops : forall s o,
  Manager.adBreaks s = [] -> Manager.currentAdBreak s = None ->
  Forall (fun op => isPlaybackOp op = true) ops ->
  AdOverlayController.perform (trace ops s) o = o.
Proof.
  intros s o Ha Hc Hops.
  destruct (playback_without_schedule ops s Ha Hc Hops) as [_ Hfx].
  revert o. induction Hfx as [|e l He Hl IH]; intros o; simpl; [reflexivity|].
  subst e. apply IH.
Qed.

(** X13.  The overlay follows the flag, except across [reset].  Along
    any sequence of reconciler operations that contains no [reset], the
    overlay is shown exactly when [isInAdBreak] is set, provided it was so
    at the start (as after construction with the overlay hidden).
    [reset] clears the flag and leaves the overlay untouched: after a
    reset during an ad break the overlay stays shown, and it is still
    shown after any clock samples, progress updates or skip clicks that
    follow while no new schedule has been set. *)
Theorem X13_overlay_follows_the_flag_until_reset :
  (forall ops s o,
      existsb isReset ops = false ->
      AdOverlayController.active o = Manager.isInAdBreak s ->
      AdOverlayController.active (AdOverlayController.perform (trace ops s) o)
      = Manager.isInAdBreak (Manager.run ops s)) /\
  (forall s o ops,
      Forall (fun op => isPlaybackOp op = true) ops ->
      AdOverlayController.perform (trace (Manager.OReset :: ops) s) o = o /\
      Manager.isInAdBreak (Manager.run (Manager.OReset :: ops) s) = false).
Proof.
  split; [apply trace_overlay_flag|].
  intros s o ops Hops.
  set (s0 := Manager.state (Manager.reset s)).
  change (trace (Manager.OReset :: ops) s)
    with ([Manager.EmitterCall Manager.MReset] ++ trace ops s0).
  change (Manager.run (Manager.OReset :: ops) s) with (Manager.run ops s0).
  rewrite perform_app. cbn [AdOverlayController.perform].
  rewrite (playback_overlay_idle ops s0 o eq_refl eq_refl Hops).
  destruct (playback_without_schedule ops s0 eq_refl eq_refl Hops) as [Hrun _].
  rewrite Hrun. split; reflexivity.
Qed.

(** X13, instance: the pre-roll is entered, then the player is reset: the
    overlay stays shown although no break is active. *)
Lemma X13_witness :
  Forall (fun op => isPlaybackOp op = true) [Manager.OUpdate 40] /\
  AdOverlayController.active
    (AdOverlayController.perform
       (trace (Manager.OReset :: [Manager.OUpdate 40])
              (Manager.run [Manager.OUpdate 10] (managerWith prerollMidroll None None)))
       (AdOverlayController.perform
          (trace [Manager.OUpdate 10] (managerWith prerollMidroll None None))
          (AdOverlayController.mkOverlay false
             (AdOverlayController.mkSkipButton true (AdOverlayController.SkipIn 5)))))
  = true /\
  Manager.isInAdBreak
    (Manager.run (Manager.OReset :: [Manager.OUpdate 40])
                 (Manager.run [Manager.OUpdate 10] (managerWith prerollMidroll None None)))
  = false.
Proof.
  assert (H : Forall (fun op => isPlaybackOp op = true) [Manager.OUpdate 40])
    by (repeat constructor).
  split; [exact H|].
  destruct (proj2 X13_overlay_follows_the_flag_until_reset
              (Manager.run [Manager.OUpdate 10] (managerWith prerollMidroll None None))
              (AdOverlayController.perform
                 (trace [Manager.OUpdate 10] (managerWith prerollMidroll None None))
                 (AdOverlayController.mkOverlay false
                    (AdOverlayController.mkSkipButton true (AdOverlayController.SkipIn 5))))
              [Manager.OUpdate 40] H) as [H1 H2].
  split; [rewrite H1; vm_compute; reflexivity | exact H2].
Defined.

(* ===================================================================== *)
(** * Timeline markers (X14) *)
(* ===================================================================== *)

Lemma sumDurations_default l :
  Forall (fun b => duration b = JNum 30) l ->
  sumDurations l == 30 * inject_Z (Z.of_nat (length l)).
Proof.
  induction 1 as [|b l Hb Hl IH]; simpl sumDurations; simpl length.
  - reflexivity.
  - rewrite IH. unfold adDuration. rewrite Hb. simpl or_default.
    rewrite Nat2Z.inj_succ. unfold Z.succ. rewrite inject_Z_plus. simpl. ring.
Qed.

Lemma default_schedule_startTime l i b :
  Forall (fun b => duration b = JNum 30) l -> l !! i = Some b ->
  Timeline.startTime l i b == timeInSeconds b + 30 * inject_Z (Z.of_nat i).
Proof.
  intros Hd Hi. unfold Timeline.startTime. rewrite getCumulative_sum, Nat2Z.id.
  rewrite sumDurations_default by (now apply Forall_take).
  rewrite length_take_le; [reflexivity|]. apply lookup_lt_Some in Hi. lia.
Qed.

Lemma markers_characterised cd l :
  NoDup (map breakId l) ->
  forall m,
    In m (map (fun br =>
                 VideoPlayerManager.mkMarker
                   (timeInSeconds br
                    + Timeline.getCumulativeAdDuration l (Timeline.findIndexById l (breakId br)))
                   (if str_truthy (breakId br) then breakId br
                    else "Ad " ++ VideoPlayerManager.ofZ
                                    (Timeline.findIndexById l (breakId br) + 1)))
              (List.filter (VideoPlayerManager.isMidroll cd) l)) <->
    exists i br,
      l !! i = Some br /\ 0 < timeInSeconds br /\ timeInSeconds br < cd /\
      m = VideoPlayerManager.mkMarker
            (Timeline.startTime l i br)
            (if str_truthy (breakId br) then breakId br
             else "Ad " ++ JsString.ofNat (i + 1)).
Proof.
  intros Hnd m. rewrite in_map_iff. split.
  - intros (br & <- & Hbr). apply filter_In in Hbr. destruct Hbr as [Hin Hmid].
    apply list_elem_of_In, list_elem_of_lookup in Hin. destruct Hin as [i Hi].
    unfold VideoPlayerManager.isMidroll in Hmid. apply andb_true_iff in Hmid.
    destruct Hmid as [H0 Hcd]. apply Qlt_bool_iff in H0, Hcd.
    exists i, br. rewrite (findIndexById_NoDup l i br Hnd Hi).
    repeat split; try assumption. unfold Timeline.startTime. f_equal. f_equal.
    unfold VideoPlayerManager.ofZ.
    replace (Z.of_nat i + 1)%Z with (Z.of_nat (i + 1)) by lia.
    rewrite Nat2Z.id. now destruct (Z.of_nat (i + 1)) eqn:E; try lia.
  - intros (i & br & Hi & H0 & Hcd & ->). exists br. split.
    + rewrite (findIndexById_NoDup l i br Hnd Hi). unfold Timeline.startTime. f_equal. f_equal.
      unfold VideoPlayerManager.ofZ.
      replace (Z.of_nat i + 1)%Z with (Z.of_nat (i + 1)) by lia.
      rewrite Nat2Z.id. now destruct (Z.of_nat (i + 1)) eqn:E; try lia.
    + apply filter_In. split.
      * apply list_elem_of_In, list_elem_of_lookup. eauto.
      * unfold VideoPlayerManager.isMidroll. apply andb_true_iff.
        split; now apply Qlt_bool_iff.
Qed.

(** X14.  Timeline markers.  [initializeMarkers] sets no marker when the
    player has no markers plugin.  Otherwise, for a schedule with pairwise
    distinct identifiers and the reconciler's cumulative durations, it
    makes one marker for each break declared strictly between 0 and the
    content duration -- pre-rolls and post-rolls get none -- placed at
    the start of the break's shifted window, as [detectActiveBreak]
    computes it, and labelled with its identifier.  For the schedule
    [buildAdBreakList] returns for a document without identifiers, the
    marker of the break at position [i] sits at its content time plus
    [30 * i], every duration being still the default.
    In the player's double-precision arithmetic the marker's time is the
    very number the window test of its break starts at: when that window
    is not empty, a clock sample at the marker is detected as the break
    of the first window that contains it, at the marker's position or an
    earlier one, and as the marker's own break exactly when no earlier
    window contains the sample.  An earlier window can: in
    [Double.roundedSchedule] the marker of the break at position 2 sits
    at 320.2, and a sample there is detected as the break at position
    1. *)
Theorem X14_markers_sit_at_the_window_starts :
  (forall cd l,
      VideoPlayerManager.initializeMarkers false cd l (Timeline.getCumulativeAdDuration l)
      = None /\
      (exists ms,
          VideoPlayerManager.initializeMarkers true cd l (Timeline.getCumulativeAdDuration l)
          = Some ms /\
          length ms = length (List.filter (VideoPlayerManager.isMidroll cd) l) /\
          (NoDup (map breakId l) ->
           forall m,
             In m ms <->
             exists i br,
               l !! i = Some br /\ 0 < timeInSeconds br /\ timeInSeconds br < cd /\
               m = VideoPlayerManager.mkMarker
                     (Timeline.startTime l i br)
                     (if str_truthy (breakId br) then breakId br
                      else "Ad " ++ JsString.ofNat (i + 1)))) /\
      (forall doc ms,
          Forall anonymous doc ->
          l = VMAPService.buildAdBreakList doc cd ->
          VideoPlayerManager.initializeMarkers true cd l (Timeline.getCumulativeAdDuration l)
          = Some ms ->
          forall m, In m ms ->
                    exists i br,
                      l !! i = Some br /\ VideoPlayerManager.text m = breakId br /\
                      VideoPlayerManager.time m
                      == timeInSeconds br + 30 * inject_Z (Z.of_nat i))) /\
  (forall cd l,
      Double.initializeMarkers false cd l (Double.getCumulativeAdDuration l) = None /\
      exists ms,
        Double.initializeMarkers true cd l (Double.getCumulativeAdDuration l) = Some ms /\
        length ms = length (List.filter (Double.isMidroll cd) l) /\
        (NoDup (map Double.breakId l) ->
         (forall m,
             In m ms <->
             exists i br,
               l !! i = Some br /\
               PrimFloat.ltb 0 (Double.timeInSeconds br) = true /\
               PrimFloat.ltb (Double.timeInSeconds br) cd = true /\
               m = Double.mkMarker
                     (Double.startTime l i br)
                     (if str_truthy (Double.breakId br) then Double.breakId br
                      else "Ad " ++ JsString.ofNat (i + 1))) /\
         (forall i br,
             l !! i = Some br ->
             PrimFloat.ltb 0 (Double.timeInSeconds br) = true ->
             PrimFloat.ltb (Double.timeInSeconds br) cd = true ->
             PrimFloat.ltb (Double.startTime l i br) (Double.endTime l i br) = true ->
             exists m,
               In m ms /\ Double.time m = Double.startTime l i br /\
               Double.inWindow l i br (Double.time m) /\
               exists j b',
                 Double.detectActiveBreak l (Double.time m) = Some (j, b') /\
                 (j <= i)%nat /\
                 (j = i <->
                  forall k y, (k < i)%nat -> l !! k = Some y ->
                              ~ Double.inWindow l k y (Double.time m))))) /\
  (Double.initializeMarkers true 596 Double.roundedSchedule
     (Double.getCumulativeAdDuration Double.roundedSchedule)
   = Some [Double.mkMarker 310.10000000000002 "break_1";
           Double.mkMarker 320.2 "break_2"] /\
   Double.startTime Double.roundedSchedule 2
     (Double.exampleBreak 2 300 "break_2" (Double.JNum 30)) = 320.2%float /\
   Double.detectActiveBreak Double.roundedSchedule 320.2
   = Some (1%nat, Double.exampleBreak 1 300 "break_1" (Double.JNum 10.1))).
Proof.
  split; [|split].
  - intros cd l. split; [reflexivity|]. split.
    + eexists. split; [reflexivity|]. split; [apply length_map|].
      intros Hnd. apply markers_characterised, Hnd.
    + intros doc ms Ha -> [= <-] m Hm.
      apply (markers_characterised cd _ (buildAdBreakList_anonymous_NoDup doc cd Ha)) in Hm.
      destruct Hm as (i & br & Hi & _ & _ & ->). exists i, br. split; [exact Hi|].
      assert (Hin : In br (VMAPService.buildAdBreakList doc cd)).
      { apply list_elem_of_In, list_elem_of_lookup. eauto. }
      assert (Hfields : Forall (fun d => breakId d <> "" /\ duration d = JNum 30)
                               (VMAPService.buildAdBreakList doc cd)).
      { apply sortByTime_Forall.
        eapply Forall_impl; [apply (buildLoop_fields (JNum CONFIG.DEFAULT_AD_DURATION)
                                                      (JNum CONFIG.DEFAULT_SKIP_OFFSET))|].
        intros d (_ & _ & H3 & _ & H5 & _). now split. }
      split.
      * simpl. rewrite Forall_forall in Hfields.
        destruct (Hfields br (proj2 (list_elem_of_In _ _) Hin)) as [Hid _].
        unfold str_truthy. destruct (String.eqb (breakId br) "") eqn:E; [|reflexivity].
        now apply String.eqb_eq in E.
      * simpl. apply default_schedule_startTime; [|exact Hi].
        eapply Forall_impl; [exact Hfields|]. now intros d [_ H].
  - intros cd l. split; [reflexivity|].
    eexists. split; [reflexivity|]. split; [apply length_map|].
    intros Hnd. split; [apply double_markers_characterised, Hnd|].
    intros i br Hi H0 Hcd Hne.
    pose proof (double_window_contains_start l i br Hne) as Hw.
    eexists. split.
    + apply (double_markers_characterised cd l Hnd). exists i, br.
      split; [exact Hi|]. split; [exact H0|]. split; [exact Hcd|reflexivity].
    + split; [reflexivity|]. split; [exact Hw|].
      exact (double_detect_some l _ i br Hi Hw).
  - destruct rounded_windows_overlap as (_ & _ & _ & _ & Hs2 & _ & _ & _ & Hd).
    split; [vm_compute; reflexivity|]. split; [exact Hs2|exact Hd].
Qed.

(** X14, instance: the schedule of [twoBreakDocument], whose pre-roll gets
    no marker and whose mid-roll, at position 1, gets one at 330; and the
    marker of the break at position 2 of [Double.roundedSchedule]. *)
Lemma X14_witness :
  (Forall anonymous twoBreakDocument /\
   VideoPlayerManager.initializeMarkers true 596
     (VMAPService.buildAdBreakList twoBreakDocument 596)
     (Timeline.getCumulativeAdDuration (VMAPService.buildAdBreakList twoBreakDocument 596))
   = Some [VideoPlayerManager.mkMarker 330 "break_1"] /\
   exists i br,
     VMAPService.buildAdBreakList twoBreakDocument 596 !! i = Some br /\
     VideoPlayerManager.text (VideoPlayerManager.mkMarker 330 "break_1") = breakId br /\
     VideoPlayerManager.time (VideoPlayerManager.mkMarker 330 "break_1")
     == timeInSeconds br + 30 * inject_Z (Z.of_nat i)) /\
  (NoDup (map Double.breakId Double.roundedSchedule) /\
   exists ms,
     Double.initializeMarkers true 596 Double.roundedSchedule
       (Double.getCumulativeAdDuration Double.roundedSchedule) = Some ms /\
     exists m,
       In m ms /\
       Double.time m
       = Double.startTime Double.roundedSchedule 2
           (Double.exampleBreak 2 300 "break_2" (Double.JNum 30)) /\
       exists j b',
         Double.detectActiveBreak Double.roundedSchedule (Double.time m) = Some (j, b') /\
         (j <= 2)%nat).
Proof.
  split.
  - assert (Ha : Forall anonymous twoBreakDocument) by (repeat constructor).
    assert (Hm : VideoPlayerManager.initializeMarkers true 596
                   (VMAPService.buildAdBreakList twoBreakDocument 596)
                   (Timeline.getCumulativeAdDuration
                      (VMAPService.buildAdBreakList twoBreakDocument 596))
                 = Some [VideoPlayerManager.mkMarker 330 "break_1"])
      by (vm_compute; reflexivity).
    split; [exact Ha|]. split; [exact Hm|].
    exact (proj2 (proj2 (proj1 X14_markers_sit_at_the_window_starts
                           596 (VMAPService.buildAdBreakList twoBreakDocument 596)))
                 twoBreakDocument _ Ha eq_refl Hm _ (or_introl eq_refl)).
  - assert (Hnd : NoDup (map Double.breakId Double.roundedSchedule)).
    { apply NoDup_ListNoDup. repeat constructor; simpl; intuition discriminate. }
    split; [exact Hnd|].
    destruct (proj2 (proj1 (proj2 X14_markers_sit_at_the_window_starts)
                       596%float Double.roundedSchedule))
      as (ms & Hms & _ & Hall).
    exists ms. split; [exact Hms|].
    destruct (proj2 (Hall Hnd) 2%nat _ eq_refl eq_refl eq_refl eq_refl)
      as (m & Hin & Htime & _ & j & b' & Hd & Hle & _).
    exists m. split; [exact Hin|]. split; [exact Htime|].
    exists j, b'. now split.
Defined.

(* ===================================================================== *)
(** * The client-swap player: the life of an ad (X15, X16) *)
(* ===================================================================== *)

Lemma quietWhilePlaying_app l1 : forall b l2,
  quietWhilePlaying b (l1 ++ l2) <->
  quietWhilePlaying b l1 /\ quietWhilePlaying (playingAfter b l1) l2.
Proof.
  induction l1 as [|e l1 IH]; intros b l2; simpl.
  - tauto.
  - destruct e; try apply IH. rewrite IH. tauto.
Qed.

Lemma playingAfter_app l1 : forall b l2,
  playingAfter b (l1 ++ l2) = playingAfter (playingAfter b l1) l2.
Proof.
  induction l1 as [|e l1 IH]; intros b l2; simpl; [reflexivity|].
  destruct e; apply IH.
Qed.

Lemma countLog_app p l1 l2 :
  countLog p (l1 ++ l2) = (countLog p l1 + countLog p l2)%nat.
Proof.
  unfold countLog. now rewrite List.filter_app, length_app.
Qed.

Lemma orderly_refl s : orderlyStep s (s, []).
Proof.
  unfold orderlyStep, countLog. simpl. repeat split; lia.
Qed.

Lemma orderly_seq s s1 fx1 s2 fx2 :
  orderlyStep s (s1, fx1) -> orderlyStep s1 (s2, fx2) -> orderlyStep s (s2, fx1 ++ fx2).
Proof.
  unfold orderlyStep. simpl.
  intros (Q1 & P1 & A1 & B1 & C1) (Q2 & P2 & A2 & B2 & C2).
  rewrite quietWhilePlaying_app, playingAfter_app, !countLog_app, P1.
  repeat split; try assumption; lia.
Qed.

Ltac split_cases :=
  repeat match goal with
         | |- context [match ?x with _ => _ end] =>
             lazymatch x with
             | context [match _ with _ => _ end] => fail
             | _ => destruct x eqn:?
             end
         | |- context [if ?x then _ else _] => destruct x eqn:?
         end.

Ltac orderly_facts :=
  unfold orderlyStep, isPlaying, countLog, bit; simpl in *;
  repeat match goal with
         | H : ?x = _ |- context [?x] => rewrite H
         end;
  simpl; repeat split; try congruence; try lia.

Lemma handleContentTimeUpdate_orderly t s :
  orderlyStep s (ClientSwap.handleContentTimeUpdate t s).
Proof.
  unfold ClientSwap.handleContentTimeUpdate, ClientSwap.triggerAdBreak.
  destruct (ClientSwap.currentAd s) eqn:Ec; [apply orderly_refl|].
  split_cases; try apply orderly_refl; orderly_facts.
Qed.

Lemma triggerAdBreak_settled_orderly pos o s :
  orderlyStep s (ClientSwap.triggerAdBreak_settled pos o s).
Proof.
  unfold ClientSwap.triggerAdBreak_settled.
  split_cases; try apply orderly_refl; orderly_facts;
    destruct (ClientSwap.currentAd s); simpl; lia.
Qed.

Lemma cleanupAdAndResume_orderly wasSkipped s :
  orderlyStep s (ClientSwap.cleanupAdAndResume wasSkipped s).
Proof.
  unfold ClientSwap.cleanupAdAndResume, ClientSwap.seekContentPastAd.
  destruct (ClientSwap.currentAd s) eqn:Ec; [|orderly_facts].
  destruct wasSkipped, (ClientSwap.vastTracker s), (ClientSwap.contentSource s) as [src|];
    simpl; try destruct (str_truthy src); orderly_facts.
Qed.

Lemma onAdTimeUpdate_orderly elapsed s :
  orderlyStep s (ClientSwap.onAdTimeUpdate elapsed s).
Proof.
  unfold ClientSwap.onAdTimeUpdate.
  destruct (ClientSwap.currentAd s) as [cur|] eqn:Ec; [|apply orderly_refl].
  destruct (ClientSwap.vastTracker s) as [tr|] eqn:Et; [|apply orderly_refl].
  set (s1 := ClientSwap.mkState _ _ _ _ _ _ _ _ _ _ _ _ _ _ _).
  assert (H1 : orderlyStep s (s1, [ClientSwap.Pixel (Manager.Progress elapsed);
                                   ClientSwap.UpdateAdUI elapsed (ClientSwap.duration cur)
                                                         (ClientSwap.skipOffset cur)])).
  { subst s1. orderly_facts. }
  destruct (Qge_bool elapsed (ClientSwap.duration cur)); [|exact H1].
  clear H1. unfold ClientSwap.cleanupAdAndResume, ClientSwap.seekContentPastAd.
  subst s1. cbn [ClientSwap.currentAd ClientSwap.vastTracker ClientSwap.contentSource
                 ClientSwap.contentDuration].
  destruct (ClientSwap.contentSource s) as [src|]; [destruct (str_truthy src)|];
    orderly_facts.
Qed.

Lemma onAdEnded_orderly s : orderlyStep s (ClientSwap.onAdEnded s).
Proof.
  unfold ClientSwap.onAdEnded, ClientSwap.cleanupAdAndResume, ClientSwap.seekContentPastAd.
  destruct (ClientSwap.currentAd s) as [cur|] eqn:Ec; [|orderly_facts].
  destruct (ClientSwap.vastTracker s), (ClientSwap.contentSource s) as [src|];
    simpl; try destruct (str_truthy src); orderly_facts.
Qed.

Lemma skipAd_orderly s : orderlyStep s (ClientSwap.skipAd s).
Proof.
  unfold ClientSwap.skipAd, ClientSwap.cleanupAdAndResume, ClientSwap.seekContentPastAd.
  destruct (ClientSwap.currentAd s) as [cur|] eqn:Ec; [|orderly_facts].
  destruct (ClientSwap.vastTracker s), (ClientSwap.contentSource s) as [src|];
    simpl; try destruct (str_truthy src); orderly_facts.
Qed.

Lemma step_orderly e s : orderlyStep s (ClientSwap.step e s).
Proof.
  destruct e as [t | pos o | | | | | |]; simpl.
  - pose proof (handleContentTimeUpdate_orderly t s) as H1.
    destruct (ClientSwap.contentListener s).
    + destruct (ClientSwap.handleContentTimeUpdate t s) as [s1 fx1] eqn:E1.
      assert (Hl : ClientSwap.adTimeListener s1 = ClientSwap.adTimeListener s).
      { unfold ClientSwap.handleContentTimeUpdate, ClientSwap.triggerAdBreak in E1.
        revert E1. split_cases; intros [= <- <-]; reflexivity. }
      pose proof (onAdTimeUpdate_orderly t s1) as H2.
      destruct (ClientSwap.adTimeListener s).
      * destruct (ClientSwap.onAdTimeUpdate t s1) as [s2 fx2].
        now apply orderly_seq with s1.
      * rewrite app_nil_r. exact H1.
    + pose proof (onAdTimeUpdate_orderly t s) as H2.
      destruct (ClientSwap.adTimeListener s).
      * destruct (ClientSwap.onAdTimeUpdate t s) as [s2 fx2]. exact H2.
      * apply orderly_refl.
  - apply triggerAdBreak_settled_orderly.
  - split_cases; try apply orderly_refl; orderly_facts.
  - destruct (ClientSwap.adEndedListener s); [|apply orderly_refl].
    set (s1 := ClientSwap.mkState _ _ _ _ _ _ _ _ _ _ _ _ _ _ _).
    pose proof (onAdEnded_orderly s1) as H. revert H.
    unfold orderlyStep, isPlaying. now subst s1.
  - apply skipAd_orderly.
  - split_cases; try apply orderly_refl; orderly_facts.
  - split_cases; try apply orderly_refl; orderly_facts.
  - split_cases; try apply orderly_refl; orderly_facts.
Qed.

Lemma run_orderly events : forall s, orderlyStep s (ClientSwap.run events s).
Proof.
  induction events as [|e events IH]; intros s; simpl.
  - apply orderly_refl.
  - pose proof (step_orderly e s) as H1.
    destruct (ClientSwap.step e s) as [s1 fx1].
    pose proof (IH s1) as H2. destruct (ClientSwap.run events s1) as [s2 fx2].
    now apply orderly_seq with s1.
Qed.

Lemma quiet_playing_before_trigger l2 : forall q l3,
  quietWhilePlaying true (l2 ++ ClientSwap.Triggered q :: l3) ->
  exists p', In (ClientSwap.AdExited p') l2.
Proof.
  induction l2 as [|e l2 IH]; intros q l3 H; simpl in H.
  - destruct H as [H _]. discriminate.
  - destruct e; try (destruct (IH _ _ H) as [p' Hp']; exists p'; now right).
    + destruct H as [_ H]. destruct (IH _ _ H) as [p' Hp']. exists p'. now right.
    + eexists. left. reflexivity.
Qed.

(** X15.  No break is triggered while an ad plays.  In the effect log of
    any sequence of player and network events in the client-swap player,
    between the entry into an ad and the next trigger of a break there is
    always an exit from the ad; likewise when the sequence starts while
    an ad is playing.  And the log tells the state: an ad is playing at
    the end exactly when the last entry or exit in the log is an entry
    (or there is none and one was playing at the start). *)
Theorem X15_no_trigger_while_an_ad_plays :
  forall events s,
    (forall l1 p l2 q l3,
        snd (ClientSwap.run events s)
        = l1 ++ ClientSwap.AdEntered p :: l2 ++ ClientSwap.Triggered q :: l3 ->
        exists p', In (ClientSwap.AdExited p') l2) /\
    (ClientSwap.currentAd s <> None ->
     forall l2 q l3,
       snd (ClientSwap.run events s) = l2 ++ ClientSwap.Triggered q :: l3 ->
       exists p', In (ClientSwap.AdExited p') l2) /\
    playingAfter (isPlaying s) (snd (ClientSwap.run events s))
    = isPlaying (fst (ClientSwap.run events s)).
Proof.
  intros events s. destruct (run_orderly events s) as (Hq & Hp & _).
  split; [|split; [|exact Hp]].
  - intros l1 p l2 q l3 Hlog. rewrite Hlog in Hq.
    apply quietWhilePlaying_app in Hq. destruct Hq as [_ Hq]. simpl in Hq.
    now apply quiet_playing_before_trigger in Hq.
  - intros Hcur l2 q l3 Hlog. rewrite Hlog in Hq.
    unfold isPlaying in Hq. destruct (ClientSwap.currentAd s); [|contradiction].
    now apply quiet_playing_before_trigger in Hq.
Qed.

(** X15, instance: in [replayLog] the pre-roll is entered, left, and then
    the mid-roll is triggered. *)
Lemma X15_witness :
  exists l1 p l2 q l3,
    replayLog = l1 ++ ClientSwap.AdEntered p :: l2 ++ ClientSwap.Triggered q :: l3 /\
    exists p', In (ClientSwap.AdExited p') l2.
Proof.
  assert (H : exists l1 p l2 q l3,
             snd (ClientSwap.run replayTrace
                    (ClientSwap.loaded clientSwapSchedule 596
                                       "https://cdn.example/content.mp4"))
             = l1 ++ ClientSwap.AdEntered p :: l2 ++ ClientSwap.Triggered q :: l3).
  { exists [ClientSwap.Triggered 0; ClientSwap.Pixel Manager.Impression], 0%nat.
    eexists [_; _; _; _; _; _; _; _; _; _; _]. eexists _, _. vm_compute. reflexivity. }
  destruct H as (l1 & p & l2 & q & l3 & H).
  exists l1, p, l2, q, l3. split; [exact H|].
  exact (proj1 (X15_no_trigger_while_an_ad_plays replayTrace
                  (ClientSwap.loaded clientSwapSchedule 596
                                     "https://cdn.example/content.mp4"))
               l1 p l2 q l3 H).
Defined.

(** X16.  Accounting of an ad's life in the client-swap player.  In the
    effect log of any sequence of events started while no ad plays: every
    entry into an ad comes with one impression pixel; there are never
    more exits than entries (one less while an ad is playing); and the
    completion and skip pixels together never outnumber the exits -- an
    ad is completed or skipped at most once, never both, whichever of the
    time update, the [ended] event and the skip button comes first. *)
Theorem X16_an_ad_is_closed_at_most_once :
  forall events s,
    ClientSwap.currentAd s = None ->
    countLog isImpressionPixel (snd (ClientSwap.run events s))
    = countLog isEntered (snd (ClientSwap.run events s)) /\
    (countLog isExited (snd (ClientSwap.run events s))
     + bit (isPlaying (fst (ClientSwap.run events s)))
     <= countLog isEntered (snd (ClientSwap.run events s)))%nat /\
    (countLog isCompletePixel (snd (ClientSwap.run events s))
     + countLog isSkipPixelCS (snd (ClientSwap.run events s))
     <= countLog isExited (snd (ClientSwap.run events s)))%nat.
Proof.
  intros events s Hidle. destruct (run_orderly events s) as (_ & _ & HA & HB & HC).
  unfold isPlaying in HB at 2. rewrite Hidle in HB. simpl in HB.
  split; [exact HC|]. split; [lia | exact HA].
Qed.

(** X16, instance: the trace [replayTrace], from the loaded player. *)
Lemma X16_witness :
  ClientSwap.currentAd
    (ClientSwap.loaded clientSwapSchedule 596 "https://cdn.example/content.mp4") = None /\
  countLog isImpressionPixel replayLog = countLog isEntered replayLog.
Proof.
  split; [reflexivity|].
  exact (proj1 (X16_an_ad_is_closed_at_most_once replayTrace
                  (ClientSwap.loaded clientSwapSchedule 596
                                     "https://cdn.example/content.mp4") eq_refl)).
Defined.

(* ===================================================================== *)
(** * The client-swap player: resuming content (X17) *)
(* ===================================================================== *)

Lemma Qle_bool_false a b : b < a -> Qle_bool a b = false.
Proof.
  intros H. destruct (Qle_bool a b) eqn:E; [|reflexivity].
  apply Qle_bool_iff in E. exfalso. apply (Qlt_not_le _ _ H E).
Qed.

Lemma Qlt_bool_false a b : b <= a -> Qlt_bool a b = false.
Proof.
  intros H. unfold Qlt_bool. apply negb_false_iff. now apply Qle_bool_iff.
Qed.

Lemma Qge_bool_false a b : a < b -> Qge_bool a b = false.
Proof.
  intros H. unfold Qge_bool. now apply Qle_bool_false.
Qed.

Lemma resume_position_bounds start dur cd :
  0 < dur ->
  Qmin (start + dur + (1 # 2)) cd <= cd /\
  (start < cd - (1 # 2) -> (1 # 2) < Qmin (start + dur + (1 # 2)) cd - start) /\
  (cd - (1 # 2) <= start -> cd - (1 # 2) <= Qmin (start + dur + (1 # 2)) cd) /\
  (0 <= start -> (1 # 2) <= cd -> (1 # 2) <= Qmin (start + dur + (1 # 2)) cd).
Proof.
  intros Hd.
  destruct (Q.min_spec (start + dur + (1 # 2)) cd) as [[H1 H2] | [H1 H2]];
    rewrite H2; repeat split; intros; lra.
Qed.

(** X17.  Where content resumes after an ad.  [cleanupAdAndResume] clears
    the current ad and the tracker, removes the ad listeners, switches the
    player back to the saved content source and, once its metadata has
    loaded, seeks to [min(start + duration + 0.5, contentDuration)] and
    plays: never beyond the end of the content.  For an ad of positive
    duration that position lies outside the trigger range of the break
    just played when the break is a pre-roll at 0 or a mid-roll, so a
    clock sample there does not select that break whatever the replay
    guard holds; for a post-roll the position lies inside its range, and
    only the guard keeps the break from being selected again. *)
Theorem X17_content_resumes_past_the_break :
  forall wasSkipped s cur c,
    ClientSwap.currentAd s = Some cur ->
    ClientSwap.contentSource s = Some c -> c <> "" ->
    let seekTo := Qmin (ClientSwap.startContentTime cur + ClientSwap.duration cur + (1 # 2))
                       (ClientSwap.contentDuration s) in
    let s1 := fst (ClientSwap.cleanupAdAndResume wasSkipped s) in
    ClientSwap.currentAd s1 = None /\ ClientSwap.vastTracker s1 = None /\
    ClientSwap.playerSrc s1 = Some c /\
    ClientSwap.adTimeListener s1 = false /\ ClientSwap.adEndedListener s1 = false /\
    snd (ClientSwap.step ClientSwap.LoadedMetadata s1)
    = [ClientSwap.Seek seekTo; ClientSwap.Play] /\
    seekTo <= ClientSwap.contentDuration s /\
    (0 < ClientSwap.duration cur ->
     forall br last i,
       timeInSeconds br == ClientSwap.startContentTime cur ->
       (timeInSeconds br == 0 -> 1 # 2 <= ClientSwap.contentDuration s ->
        ClientSwap.scanBreaks last (ClientSwap.contentDuration s) seekTo [br] i = None) /\
       (0 < timeInSeconds br ->
        timeInSeconds br < ClientSwap.contentDuration s - (1 # 2) ->
        ClientSwap.scanBreaks last (ClientSwap.contentDuration s) seekTo [br] i = None) /\
       (0 < timeInSeconds br ->
        ClientSwap.contentDuration s - (1 # 2) <= timeInSeconds br ->
        ClientSwap.scanBreaks last (ClientSwap.contentDuration s) seekTo [br] i
        = if (last =? Z.of_nat i)%Z then None else Some i)).
Proof.
  intros wasSkipped s cur c Hcur Hsrc Hc seekTo s1.
  assert (Ht : str_truthy c = true).
  { unfold str_truthy. apply negb_true_iff. now apply String.eqb_neq. }
  assert (Hs1 : s1 = ClientSwap.mkState
                       (ClientSwap.adBreaks s) (ClientSwap.contentDuration s)
                       (ClientSwap.contentSource s) None None
                       (ClientSwap.lastTriggeredBreakIndex s)
                       (ClientSwap.adPlaybackStartTime s) (Some c)
                       (ClientSwap.contentListener s) false false
                       (ClientSwap.pendingCanPlay s) (Some seekTo)
                       (ClientSwap.pendingPlay s) true).
  { subst s1 seekTo. unfold ClientSwap.cleanupAdAndResume, ClientSwap.seekContentPastAd.
    rewrite Hcur. cbn [ClientSwap.contentSource ClientSwap.contentDuration].
    rewrite Hsrc, Ht. reflexivity. }
  rewrite Hs1. clear Hs1.
  do 6 (split; [reflexivity|]).
  split; [apply Q.le_min_r|].
  intros Hdur br last i Hbr.
  destruct (resume_position_bounds (ClientSwap.startContentTime cur) (ClientSwap.duration cur)
                                   (ClientSwap.contentDuration s) Hdur)
    as (_ & Hmid & Hpost & Hpre).
  fold seekTo in Hmid, Hpost, Hpre.
  unfold ClientSwap.scanBreaks, AD_TRIGGER_TOLERANCE.
  split; [|split].
  - intros H0 Hcd. destruct (last =? Z.of_nat i)%Z; [reflexivity|].
    assert (E1 : Qle_bool (timeInSeconds br) 0 = true) by (apply Qle_bool_iff; lra).
    rewrite E1. rewrite Qlt_bool_false; [reflexivity|]. apply Hpre; lra.
  - intros H0 Hlt. destruct (last =? Z.of_nat i)%Z; [reflexivity|].
    rewrite (Qle_bool_false _ _ H0).
    rewrite Qge_bool_false by exact Hlt.
    rewrite Qle_bool_false; [reflexivity|].
    eapply Qlt_le_trans; [|apply Qle_Qabs]. lra.
  - intros H0 Hge. destruct (last =? Z.of_nat i)%Z; [reflexivity|].
    rewrite (Qle_bool_false _ _ H0).
    assert (E2 : Qge_bool (timeInSeconds br) (ClientSwap.contentDuration s - (1 # 2)) = true)
      by (now apply Qge_bool_iff).
    rewrite E2.
    assert (E3 : Qge_bool seekTo (ClientSwap.contentDuration s - (1 # 2)) = true)
      by (apply Qge_bool_iff, Hpost; lra).
    now rewrite E3.
Qed.

(** X17, instance: the pre-roll of [clientSwapSchedule] is skipped. *)
Lemma X17_witness :
  (exists cur, ClientSwap.currentAd prerollPlaying = Some cur) /\
  ClientSwap.contentSource prerollPlaying = Some "https://cdn.example/content.mp4" /\
  ClientSwap.currentAd (fst (ClientSwap.cleanupAdAndResume true prerollPlaying)) = None.
Proof.
  assert (Hcur : exists cur, ClientSwap.currentAd prerollPlaying = Some cur).
  { vm_compute. eexists. reflexivity. }
  assert (Hsrc : ClientSwap.contentSource prerollPlaying
                 = Some "https://cdn.example/content.mp4").
  { vm_compute. reflexivity. }
  split; [exact Hcur|]. split; [exact Hsrc|].
  destruct Hcur as [cur Hcur].
  refine (proj1 (X17_content_resumes_past_the_break true prerollPlaying cur _ Hcur Hsrc _)).
  discriminate.
Defined.

(* ===================================================================== *)
(** * The client-swap player: failed fetches (X18) *)
(* ===================================================================== *)

Lemma scanBreaks_lookup last cd t rest : forall i pos,
  ClientSwap.scanBreaks last cd t rest i = Some pos ->
  exists k br, pos = (i + k)%nat /\ rest !! k = Some br.
Proof.
  induction rest as [|br rest IH]; intros i pos H; simpl in H; [discriminate|].
  assert (Hrec : ClientSwap.scanBreaks last cd t rest (S i) = Some pos ->
                 exists k br', pos = (i + k)%nat /\ (br :: rest) !! k = Some br').
  { intros H'. destruct (IH _ _ H') as (k & br' & -> & Hk). exists (S k), br'.
    split; [lia | exact Hk]. }
  assert (Hhere : Some i = Some pos ->
                  exists k br', pos = (i + k)%nat /\ (br :: rest) !! k = Some br').
  { intros [= <-]. exists 0%nat, br. split; [lia | reflexivity]. }
  revert H. split_cases; auto.
Qed.

Lemma handleContentTimeUpdate_triggers t s c pos :
  ClientSwap.currentAd s = None ->
  ClientSwap.contentSource s = Some c -> ClientSwap.playerSrc s = Some c ->
  ClientSwap.indexIsPosition (ClientSwap.adBreaks s) ->
  ClientSwap.scanBreaks (ClientSwap.lastTriggeredBreakIndex s) (ClientSwap.contentDuration s) t
                        (ClientSwap.adBreaks s) 0 = Some pos ->
  ClientSwap.handleContentTimeUpdate t s
  = (ClientSwap.set_last (Z.of_nat pos) s, [ClientSwap.Triggered pos]).
Proof.
  intros Hcur Hsrc Hp Hidx Hscan. unfold ClientSwap.handleContentTimeUpdate.
  rewrite Hcur, Hsrc, Hp, String.eqb_refl, Hscan. simpl.
  unfold ClientSwap.triggerAdBreak. rewrite Hcur.
  destruct (scanBreaks_lookup _ _ _ _ _ _ Hscan) as (k & br & -> & Hk). simpl in *.
  rewrite Hk. now rewrite (Hidx k br Hk).
Qed.

Lemma handleContentTimeUpdate_skips_last t s pos :
  ClientSwap.lastTriggeredBreakIndex s = Z.of_nat pos ->
  ~ In (ClientSwap.Triggered pos) (snd (ClientSwap.handleContentTimeUpdate t s)).
Proof.
  intros Hlast. unfold ClientSwap.handleContentTimeUpdate, ClientSwap.triggerAdBreak.
  destruct (ClientSwap.currentAd s); [simpl; tauto|].
  destruct (ClientSwap.contentSource s) as [c|]; [|simpl; tauto].
  destruct (ClientSwap.playerSrc s) as [p|]; [|simpl; tauto].
  destruct (negb (String.eqb p c)); [simpl; tauto|].
  destruct (ClientSwap.scanBreaks _ _ _ _ _) as [q|] eqn:Es; [|simpl; tauto].
  apply scanBreaks_not_last in Es. rewrite Hlast in Es.
  destruct (ClientSwap.adBreaks s !! q); simpl; [|tauto].
  intros [[= ->] | []]. now apply Es.
Qed.

(** X18.  How a failed ad fetch is treated in the client-swap player.
    When a clock sample triggers a break (indices being positions and no
    break remembered by the guard), the same sample does not trigger it
    again while the fetch is pending.  If the fetch is rejected, the guard
    is cleared and the next such sample triggers the break again: the
    fetch is retried.  If the fetch succeeds with a response that holds no
    usable creative (none selected, or one without a media URL), nothing
    is changed -- the guard keeps remembering the break -- and the next
    such sample does not trigger it: the break is passed over without a
    retry. *)
Theorem X18_rejected_fetch_is_retried_empty_response_is_not :
  forall s t pos c,
    ClientSwap.currentAd s = None ->
    ClientSwap.contentSource s = Some c -> ClientSwap.playerSrc s = Some c ->
    ClientSwap.indexIsPosition (ClientSwap.adBreaks s) ->
    ClientSwap.lastTriggeredBreakIndex s = (-1)%Z ->
    ClientSwap.scanBreaks (-1) (ClientSwap.contentDuration s) t (ClientSwap.adBreaks s) 0
    = Some pos ->
    let s1 := fst (ClientSwap.handleContentTimeUpdate t s) in
    snd (ClientSwap.handleContentTimeUpdate t s) = [ClientSwap.Triggered pos] /\
    ClientSwap.lastTriggeredBreakIndex s1 = Z.of_nat pos /\
    ~ In (ClientSwap.Triggered pos) (snd (ClientSwap.handleContentTimeUpdate t s1)) /\
    snd (ClientSwap.triggerAdBreak_settled pos Vast.Rejected s1) = [ClientSwap.GuardCleared] /\
    snd (ClientSwap.handleContentTimeUpdate t
           (fst (ClientSwap.triggerAdBreak_settled pos Vast.Rejected s1)))
    = [ClientSwap.Triggered pos] /\
    (forall ads,
        (forall ad c', Resolver.selectCreative (Vast.Response ads) = Some (ad, c') ->
                       Vast.getMediaFileUrl c' = None) ->
        ClientSwap.triggerAdBreak_settled pos (Vast.Response ads) s1 = (s1, []) /\
        ~ In (ClientSwap.Triggered pos)
             (snd (ClientSwap.handleContentTimeUpdate t
                     (fst (ClientSwap.triggerAdBreak_settled pos (Vast.Response ads) s1))))).
Proof.
  intros s t pos c Hcur Hsrc Hp Hidx Hlast Hscan s1.
  assert (Hscan' : ClientSwap.scanBreaks (ClientSwap.lastTriggeredBreakIndex s)
                     (ClientSwap.contentDuration s) t (ClientSwap.adBreaks s) 0 = Some pos)
    by (now rewrite Hlast).
  pose proof (handleContentTimeUpdate_triggers t s c pos Hcur Hsrc Hp Hidx Hscan') as Hh.
  destruct (scanBreaks_lookup _ _ _ _ _ _ Hscan) as (k & br & Hk & Hbr). simpl in Hk. subst k.
  subst s1. rewrite Hh. cbn [fst snd].
  split; [reflexivity|]. split; [reflexivity|].
  split; [now apply handleContentTimeUpdate_skips_last|].
  assert (Hrej : ClientSwap.triggerAdBreak_settled pos Vast.Rejected
                   (ClientSwap.set_last (Z.of_nat pos) s)
                 = (ClientSwap.set_last (-1) s, [ClientSwap.GuardCleared])).
  { unfold ClientSwap.triggerAdBreak_settled. cbn [ClientSwap.set_last ClientSwap.adBreaks].
    rewrite Hbr. reflexivity. }
  rewrite Hrej. cbn [fst snd]. split; [reflexivity|]. split.
  - rewrite (handleContentTimeUpdate_triggers t (ClientSwap.set_last (-1) s) c pos);
      [reflexivity|exact Hcur|exact Hsrc|exact Hp|exact Hidx|exact Hscan].
  - intros ads Hnone.
    assert (Hres : ClientSwap.triggerAdBreak_settled pos (Vast.Response ads)
                     (ClientSwap.set_last (Z.of_nat pos) s)
                   = (ClientSwap.set_last (Z.of_nat pos) s, [])).
    { unfold ClientSwap.triggerAdBreak_settled. cbn [ClientSwap.set_last ClientSwap.adBreaks].
      rewrite Hbr.
      destruct (Resolver.selectCreative (Vast.Response ads)) as [[ad c']|]; [|reflexivity].
      now rewrite (Hnone ad c' eq_refl). }
    rewrite Hres. split; [reflexivity|]. now apply handleContentTimeUpdate_skips_last.
Qed.

(** X18, instance: the first clock sample of the loaded player triggers
    the pre-roll of [clientSwapSchedule]. *)
Lemma X18_witness :
  ClientSwap.scanBreaks (-1) 596 (1 # 10) clientSwapSchedule 0 = Some 0%nat /\
  snd (ClientSwap.handleContentTimeUpdate (1 # 10)
         (ClientSwap.loaded clientSwapSchedule 596 "https://cdn.example/content.mp4"))
  = [ClientSwap.Triggered 0].
Proof.
  assert (Hscan : ClientSwap.scanBreaks (-1) 596 (1 # 10) clientSwapSchedule 0 = Some 0%nat)
    by (vm_compute; reflexivity).
  split; [exact Hscan|].
  refine (proj1 (X18_rejected_fetch_is_retried_empty_response_is_not
                   (ClientSwap.loaded clientSwapSchedule 596
                                      "https://cdn.example/content.mp4")
                   (1 # 10) 0%nat "https://cdn.example/content.mp4"
                   eq_refl eq_refl eq_refl _ eq_refl Hscan)).
  apply clientSwapSchedule_indexed.
Defined.

(* ===================================================================== *)
(** * The timeline after a resolution (X19) *)
(* ===================================================================== *)






(* ===================================================================== *)
(** * The client-swap player: which break a sample triggers (X20) *)
(* ===================================================================== *)

Lemma scanBreaks_step last cd t br rest i :
  ClientSwap.scanBreaks last cd t (br :: rest) i
  = if (last =? Z.of_nat i)%Z then ClientSwap.scanBreaks last cd t rest (S i)
    else if Qle_bool (timeInSeconds br) 0 then
           if Qlt_bool t AD_TRIGGER_TOLERANCE then Some i
           else ClientSwap.scanBreaks last cd t rest (S i)
         else if Qge_bool (timeInSeconds br) (cd - AD_TRIGGER_TOLERANCE) then
                if Qge_bool t (cd - AD_TRIGGER_TOLERANCE) then Some i
                else ClientSwap.scanBreaks last cd t rest (S i)
              else if Qle_bool (Qabs (t - timeInSeconds br)) AD_TRIGGER_TOLERANCE then Some i
                   else ClientSwap.scanBreaks last cd t rest (S i).
Proof. reflexivity. Qed.

Lemma scanBreaks_here last cd t br rest i :
  last <> Z.of_nat i -> inTriggerRange cd t br ->
  ClientSwap.scanBreaks last cd t (br :: rest) i = Some i.
Proof.
  intros Hl Hr. rewrite scanBreaks_step.
  apply Z.eqb_neq in Hl. rewrite Hl.
  destruct Hr as [[H1 H2] | [(H1 & H2 & H3) | (H1 & H2 & H3)]].
  - apply Qle_bool_iff in H1. apply Qlt_bool_iff in H2. now rewrite H1, H2.
  - rewrite (Qle_bool_false _ _ H1).
    apply Qge_bool_iff in H2, H3. now rewrite H2, H3.
  - rewrite (Qle_bool_false _ _ H1), (Qge_bool_false _ _ H2).
    apply Qle_bool_iff in H3. now rewrite H3.
Qed.

Lemma scanBreaks_next last cd t br rest i :
  last = Z.of_nat i \/ ~ inTriggerRange cd t br ->
  ClientSwap.scanBreaks last cd t (br :: rest) i
  = ClientSwap.scanBreaks last cd t rest (S i).
Proof.
  intros H. rewrite scanBreaks_step.
  destruct (last =? Z.of_nat i)%Z eqn:El; [reflexivity|].
  apply Z.eqb_neq in El. destruct H as [H | H]; [contradiction|].
  destruct (Qle_bool (timeInSeconds br) 0) eqn:E1.
  - apply Qle_bool_iff in E1.
    destruct (Qlt_bool t AD_TRIGGER_TOLERANCE) eqn:E2; [|reflexivity].
    apply Qlt_bool_iff in E2. exfalso. apply H. left. now split.
  - assert (H0 : 0 < timeInSeconds br).
    { apply Qnot_le_lt. intros Hle. apply Qle_bool_iff in Hle. congruence. }
    destruct (Qge_bool (timeInSeconds br) (cd - AD_TRIGGER_TOLERANCE)) eqn:E2.
    + apply Qge_bool_iff in E2.
      destruct (Qge_bool t (cd - AD_TRIGGER_TOLERANCE)) eqn:E3; [|reflexivity].
      apply Qge_bool_iff in E3. exfalso. apply H. right. left. now repeat split.
    + assert (H2 : timeInSeconds br < cd - AD_TRIGGER_TOLERANCE).
      { apply Qnot_le_lt. intros Hle. apply Qge_bool_iff in Hle. congruence. }
      destruct (Qle_bool (Qabs (t - timeInSeconds br)) AD_TRIGGER_TOLERANCE) eqn:E3;
        [|reflexivity].
      apply Qle_bool_iff in E3. exfalso. apply H. right. right. now repeat split.
Qed.

Lemma inTriggerRange_dec last cd t br i :
  (last <> Z.of_nat i /\ inTriggerRange cd t br) \/
  (last = Z.of_nat i \/ ~ inTriggerRange cd t br).
Proof.
  destruct (Z.eq_dec last (Z.of_nat i)) as [He | Hne]; [right; now left|].
  destruct (ClientSwap.scanBreaks last cd t [br] i) as [q|] eqn:E.
  - left. split; [exact Hne|].
    rewrite scanBreaks_step in E. apply Z.eqb_neq in Hne. rewrite Hne in E.
    destruct (Qle_bool (timeInSeconds br) 0) eqn:E1.
    + apply Qle_bool_iff in E1.
      destruct (Qlt_bool t AD_TRIGGER_TOLERANCE) eqn:E2; [|discriminate].
      apply Qlt_bool_iff in E2. left. now split.
    + assert (H0 : 0 < timeInSeconds br).
      { apply Qnot_le_lt. intros Hle. apply Qle_bool_iff in Hle. congruence. }
      destruct (Qge_bool (timeInSeconds br) (cd - AD_TRIGGER_TOLERANCE)) eqn:E2.
      * apply Qge_bool_iff in E2.
        destruct (Qge_bool t (cd - AD_TRIGGER_TOLERANCE)) eqn:E3; [|discriminate].
        apply Qge_bool_iff in E3. right. left. now repeat split.
      * assert (H2 : timeInSeconds br < cd - AD_TRIGGER_TOLERANCE).
        { apply Qnot_le_lt. intros Hle. apply Qge_bool_iff in Hle. congruence. }
        destruct (Qle_bool (Qabs (t - timeInSeconds br)) AD_TRIGGER_TOLERANCE) eqn:E3;
          [|discriminate].
        apply Qle_bool_iff in E3. right. right. now repeat split.
  - right. right. intros Hr.
    rewrite (scanBreaks_here last cd t br [] i Hne Hr) in E. discriminate.
Qed.

Lemma scanBreaks_first last cd t rest : forall i pos,
  ClientSwap.scanBreaks last cd t rest i = Some pos <->
  exists k br,
    pos = (i + k)%nat /\ rest !! k = Some br /\
    last <> Z.of_nat pos /\ inTriggerRange cd t br /\
    forall k' y, (k' < k)%nat -> rest !! k' = Some y ->
                 last = Z.of_nat (i + k') \/ ~ inTriggerRange cd t y.
Proof.
  induction rest as [|br rest IH]; intros i pos.
  - simpl. split; [discriminate|]. intros (k & b & _ & H & _). destruct k; discriminate.
  - destruct (inTriggerRange_dec last cd t br i) as [[Hl Hr] | Hskip].
    + rewrite (scanBreaks_here _ _ _ _ _ _ Hl Hr). split.
      * intros [= <-]. exists 0%nat, br. rewrite Nat.add_0_r.
        repeat split; try assumption. intros k' y Hk. lia.
      * intros (k & b & -> & Hk & Hl' & Hr' & Hfirst).
        destruct k as [|k]; [now rewrite Nat.add_0_r|].
        exfalso. destruct (Hfirst 0%nat br ltac:(lia) eq_refl) as [H | H].
        -- rewrite Nat.add_0_r in H. contradiction.
        -- contradiction.
    + rewrite (scanBreaks_next _ _ _ _ _ _ Hskip), IH. split.
      * intros (k & b & -> & Hk & Hl' & Hr' & Hfirst). exists (S k), b.
        split; [lia|]. split; [exact Hk|].
        split; [now replace (i + S k)%nat with (S i + k)%nat by lia|].
        split; [exact Hr'|]. intros k' y Hk' Hy. destruct k' as [|k'].
        -- simpl in Hy. injection Hy as <-. now rewrite Nat.add_0_r.
        -- replace (i + S k')%nat with (S i + k')%nat by lia.
           apply (Hfirst k' y); [lia | exact Hy].
      * intros (k & b & -> & Hk & Hl' & Hr' & Hfirst).
        destruct k as [|k].
        -- exfalso. simpl in Hk. injection Hk as <-. rewrite Nat.add_0_r in Hl'.
           destruct Hskip; contradiction.
        -- exists k, b. split; [lia|]. split; [exact Hk|].
           split; [now replace (S i + k)%nat with (i + S k)%nat by lia|].
           split; [exact Hr'|]. intros k' y Hk' Hy.
           replace (S i + k')%nat with (i + S k')%nat by lia.
           apply (Hfirst (S k') y); [lia | exact Hy].
Qed.

(** X20.  Which break a clock sample triggers in the client-swap player.
    A break is in range of a sample [t] when it is a pre-roll (declared at
    or before 0) and [t < 0.5]; or a post-roll (declared within 0.5
    seconds of the content's end or after it) and
    [t >= contentDuration - 0.5]; or any other break and
    [|t - timeInSeconds| <= 0.5].  The scan of [handleContentTimeUpdate]
    selects the first position, in array order, whose break is in range
    and which the guard [lastTriggeredBreakIndex] does not hold, and
    nothing when there is none; [handleContentTimeUpdate] triggers a break
    only if no ad is playing, the player's source is the saved content
    source, and the scan selected that break. *)
Theorem X20_first_break_in_range_is_triggered :
  forall last cd t l,
    (forall pos,
        ClientSwap.scanBreaks last cd t l 0 = Some pos <->
        exists br,
          l !! pos = Some br /\ last <> Z.of_nat pos /\ inTriggerRange cd t br /\
          forall j y, (j < pos)%nat -> l !! j = Some y ->
                      last = Z.of_nat j \/ ~ inTriggerRange cd t y) /\
    (ClientSwap.scanBreaks last cd t l 0 = None <->
     forall j y, l !! j = Some y -> last = Z.of_nat j \/ ~ inTriggerRange cd t y) /\
    (forall s pos,
        ClientSwap.adBreaks s = l -> ClientSwap.contentDuration s = cd ->
        ClientSwap.lastTriggeredBreakIndex s = last ->
        In (ClientSwap.Triggered pos) (snd (ClientSwap.handleContentTimeUpdate t s)) ->
        ClientSwap.currentAd s = None /\
        (exists c, ClientSwap.contentSource s = Some c /\ ClientSwap.playerSrc s = Some c) /\
        ClientSwap.scanBreaks last cd t l 0 = Some pos).
Proof.
  intros last cd t l.
  assert (H1 : forall pos,
             ClientSwap.scanBreaks last cd t l 0 = Some pos <->
             exists br,
               l !! pos = Some br /\ last <> Z.of_nat pos /\ inTriggerRange cd t br /\
               forall j y, (j < pos)%nat -> l !! j = Some y ->
                           last = Z.of_nat j \/ ~ inTriggerRange cd t y).
  { intros pos. rewrite scanBreaks_first. split.
    - intros (k & br & -> & Hk & Hl & Hr & Hf). exists br. simpl in *. now repeat split.
    - intros (br & Hk & Hl & Hr & Hf). exists pos, br. simpl. now repeat split. }
  split; [exact H1|]. split.
  - split.
    + intros Hn j y Hj.
      revert j y Hj. induction j as [j IHj] using lt_wf_ind. intros y Hj.
      destruct (inTriggerRange_dec last cd t y j) as [[Hl Hr] | Hskip]; [|exact Hskip].
      exfalso. assert (Hs : ClientSwap.scanBreaks last cd t l 0 = Some j).
      { apply H1. exists y. repeat split; try assumption.
        intros j' y' Hj' Hy'. now apply (IHj j' Hj' y'). }
      congruence.
    + intros Hall. destruct (ClientSwap.scanBreaks last cd t l 0) as [pos|] eqn:E;
        [|reflexivity].
      destruct (proj1 (H1 pos) eq_refl) as (br & Hk & Hl & Hr & _).
      destruct (Hall pos br Hk); contradiction.
  - intros s pos <- <- <- Hin.
    unfold ClientSwap.handleContentTimeUpdate, ClientSwap.triggerAdBreak in Hin.
    destruct (ClientSwap.currentAd s); [destruct Hin|].
    destruct (ClientSwap.contentSource s) as [c|]; [|destruct Hin].
    destruct (ClientSwap.playerSrc s) as [p|]; [|destruct Hin].
    destruct (String.eqb p c) eqn:Epc; [|destruct Hin]. apply String.eqb_eq in Epc. subst p.
    simpl in Hin.
    destruct (ClientSwap.scanBreaks _ _ _ _ _) as [q|]; [|destruct Hin].
    destruct (ClientSwap.adBreaks s !! q); [|destruct Hin].
    destruct Hin as [[= ->] | []].
    split; [reflexivity|]. split; [now exists c | reflexivity].
Qed.

(** X20, instance: at 300.2 seconds the mid-roll of [clientSwapSchedule],
    declared at 300, is selected. *)
Lemma X20_witness :
  ClientSwap.scanBreaks (-1) 596 (3002 # 10) clientSwapSchedule 0 = Some 1%nat /\
  exists br,
    clientSwapSchedule !! 1%nat = Some br /\ (-1)%Z <> Z.of_nat 1 /\
    inTriggerRange 596 (3002 # 10) br /\
    forall j y, (j < 1)%nat -> clientSwapSchedule !! j = Some y ->
                (-1)%Z = Z.of_nat j \/ ~ inTriggerRange 596 (3002 # 10) y.
Proof.
  assert (H : ClientSwap.scanBreaks (-1) 596 (3002 # 10) clientSwapSchedule 0 = Some 1%nat)
    by (vm_compute; reflexivity).
  split; [exact H|].
  exact (proj1 (proj1 (X20_first_break_in_range_is_triggered
                         (-1) 596 (3002 # 10) clientSwapSchedule) 1%nat) H).
Defined.

(* ===================================================================== *)
(** * Time offsets and white space (X21) *)
(* ===================================================================== *)

Lemma trimEnd_idempotent s : JsString.trimEnd (JsString.trimEnd s) = JsString.trimEnd s.
Proof.
  induction s as [|c s IH]; simpl; [reflexivity|].
  destruct (JsString.trimEnd s) as [|c' t] eqn:E.
  - destruct (JsString.isWhiteSpace c) eqn:Ec; simpl; [reflexivity|]. now rewrite Ec.
  - simpl in IH. simpl. destruct (JsString.trimEnd t) eqn:Et.
    + destruct (JsString.isWhiteSpace c') eqn:Ec'; [discriminate|]. now injection IH as ->.
    + now rewrite IH.
Qed.

Lemma trimStart_head s :
  JsString.trimStart s = EmptyString \/
  exists c t, JsString.trimStart s = String c t /\ JsString.isWhiteSpace c = false.
Proof.
  induction s as [|c s IH]; simpl; [now left|].
  destruct (JsString.isWhiteSpace c) eqn:E; [exact IH|]. right. now exists c, s.
Qed.

Lemma trimEnd_head c t :
  JsString.isWhiteSpace c = false ->
  exists t', JsString.trimEnd (String c t) = String c t'.
Proof.
  intros Hc. simpl. destruct (JsString.trimEnd t); [rewrite Hc|]; eauto.
Qed.

Lemma trim_idempotent s : JsString.trim (JsString.trim s) = JsString.trim s.
Proof.
  unfold JsString.trim.
  destruct (trimStart_head s) as [H | (c & t & H & Hc)]; rewrite H.
  - reflexivity.
  - destruct (trimEnd_head c t Hc) as [t' Ht']. rewrite Ht'. simpl JsString.trimStart.
    rewrite Hc. rewrite <- Ht'. apply trimEnd_idempotent.
Qed.

(** X21.  White space around a time offset.  [parseTimeOffset] reads an
    offset with surrounding white space as it reads the trimmed text --
    [" 00:01:30 "] is 90 seconds and [" start "] is 0 -- with one
    exception: the literal [end] is recognised only when written exactly,
    so an offset that trims to [end] but is not [end] itself yields 0, the
    start of the content, where [end] yields the content duration. *)
Theorem X21_white_space_around_an_offset :
  forall timeOffset cd,
    (JsString.trim timeOffset <> "end" ->
     VMAPService.parseTimeOffset timeOffset cd
     = VMAPService.parseTimeOffset (JsString.trim timeOffset) cd) /\
    (JsString.trim timeOffset = "end" -> timeOffset <> "end" ->
     VMAPService.parseTimeOffset timeOffset cd = 0 /\
     VMAPService.parseTimeOffset (JsString.trim timeOffset) cd = cd).
Proof.
  intros timeOffset cd.
  assert (Hstart : JsString.trim "start" = "start") by reflexivity.
  assert (Hend : JsString.trim "end" = "end") by reflexivity.
  split.
  - intros Hne. unfold VMAPService.parseTimeOffset.
    destruct (String.eqb timeOffset "start") eqn:E1.
    { apply String.eqb_eq in E1. subst. now rewrite Hstart. }
    destruct (String.eqb timeOffset "end") eqn:E2.
    { apply String.eqb_eq in E2. subst. now rewrite Hend in Hne. }
    destruct (String.eqb (JsString.trim timeOffset) "start") eqn:E3.
    { apply String.eqb_eq in E3. rewrite E3. reflexivity. }
    destruct (String.eqb (JsString.trim timeOffset) "end") eqn:E4.
    { apply String.eqb_eq in E4. contradiction. }
    now rewrite trim_idempotent.
  - intros Ht Hne. split.
    + unfold VMAPService.parseTimeOffset.
      destruct (String.eqb timeOffset "start") eqn:E1; [reflexivity|].
      destruct (String.eqb timeOffset "end") eqn:E2.
      { apply String.eqb_eq in E2. contradiction. }
      rewrite Ht. reflexivity.
    + rewrite Ht. reflexivity.
Qed.

(** X21, instance: the offset [" 00:01:30 "]. *)
Lemma X21_witness :
  JsString.trim " 00:01:30 " <> "end" /\
  VMAPService.parseTimeOffset " 00:01:30 " 596
  = VMAPService.parseTimeOffset (JsString.trim " 00:01:30 ") 596.
Proof.
  assert (H : JsString.trim " 00:01:30 " <> "end") by (vm_compute; discriminate).
  split; [exact H|].
  exact (proj1 (X21_white_space_around_an_offset " 00:01:30 " 596) H).
Defined.

(* ===================================================================== *)
(** * Markers of the client-swap player (X22) *)
(* ===================================================================== *)

Lemma scanBreaks_none last cd t l :
  ClientSwap.scanBreaks last cd t l 0 = None ->
  forall j y, l !! j = Some y -> last = Z.of_nat j \/ ~ inTriggerRange cd t y.
Proof.
  intros Hn j. induction j as [j IHj] using lt_wf_ind. intros y Hj.
  destruct (inTriggerRange_dec last cd t y j) as [[Hl Hr] | Hskip]; [|exact Hskip].
  exfalso. assert (Hs : ClientSwap.scanBreaks last cd t l 0 = Some j).
  { apply scanBreaks_first. exists j, y. repeat split; try assumption.
    intros k' y' Hk' Hy'. now apply (IHj k' Hk' y'). }
  congruence.
Qed.

(** X22.  Markers of the client-swap player.  [initMarkers] sets no marker
    without the markers plugin; otherwise it makes one marker for each
    break declared strictly between 0 and the content duration, at the
    break's content time, labelled with its identifier (or [Ad] and the
    document index plus one when the identifier is empty).  A clock
    sample at a marker is in the trigger range of the marker's break, so
    unless the replay guard holds that break the scan of
    [handleContentTimeUpdate] selects a break there: that one, or one
    before it in the array that is in range as well. *)
Theorem X22_client_swap_markers_are_trigger_times :
  forall cd l,
    VideoPlayerManager.initMarkers false cd l = None /\
    exists ms,
      VideoPlayerManager.initMarkers true cd l = Some ms /\
      length ms = length (List.filter (VideoPlayerManager.isMidroll cd) l) /\
      (forall m,
          In m ms <->
          exists br,
            In br l /\ 0 < timeInSeconds br /\ timeInSeconds br < cd /\
            m = VideoPlayerManager.mkMarker
                  (timeInSeconds br)
                  (if str_truthy (breakId br) then breakId br
                   else "Ad " ++ JsString.ofNat (index br + 1))) /\
      (forall i br last,
          l !! i = Some br -> 0 < timeInSeconds br -> timeInSeconds br < cd ->
          inTriggerRange cd (timeInSeconds br) br /\
          (last <> Z.of_nat i ->
           exists pos, ClientSwap.scanBreaks last cd (timeInSeconds br) l 0 = Some pos /\
                       (pos <= i)%nat)).
Proof.
  intros cd l. split; [reflexivity|].
  eexists. split; [reflexivity|]. split; [apply length_map|]. split.
  - intros m. rewrite in_map_iff. split.
    + intros (br & <- & Hbr). apply filter_In in Hbr. destruct Hbr as [Hin Hmid].
      unfold VideoPlayerManager.isMidroll in Hmid. apply andb_true_iff in Hmid.
      destruct Hmid as [H0 Hcd]. apply Qlt_bool_iff in H0, Hcd.
      exists br. now repeat split.
    + intros (br & Hin & H0 & Hcd & ->). exists br. split; [reflexivity|].
      apply filter_In. split; [exact Hin|].
      unfold VideoPlayerManager.isMidroll. apply andb_true_iff.
      split; now apply Qlt_bool_iff.
  - intros i br last Hi H0 Hcd.
    assert (Hr : inTriggerRange cd (timeInSeconds br) br).
    { unfold inTriggerRange, AD_TRIGGER_TOLERANCE.
      destruct (Qlt_le_dec (timeInSeconds br) (cd - (1 # 2))) as [Hlt | Hge].
      - right. right. split; [exact H0|]. split; [exact Hlt|].
        assert (E : timeInSeconds br - timeInSeconds br == 0) by ring.
        rewrite E. discriminate.
      - right. left. now repeat split. }
    split; [exact Hr|]. intros Hlast.
    destruct (ClientSwap.scanBreaks last cd (timeInSeconds br) l 0) as [pos|] eqn:E.
    + exists pos. split; [reflexivity|].
      apply scanBreaks_first in E. destruct E as (k & b & -> & Hk & _ & _ & Hfirst).
      simpl. destruct (le_lt_dec k i) as [Hle | Hlt]; [exact Hle|].
      exfalso. destruct (Hfirst i br Hlt Hi) as [H | H]; simpl in H; contradiction.
    + exfalso. destruct (scanBreaks_none _ _ _ _ E i br Hi); contradiction.
Qed.

(** X22, instance: the marker of the mid-roll of [clientSwapSchedule]. *)
Lemma X22_witness :
  clientSwapSchedule !! 1%nat
  = Some (mkAdBreak 1 "00:05:00" 300 "break_1" (UriString "https://ads.example/mid")
                    JUndefined JUndefined None) /\
  inTriggerRange 596 300
    (mkAdBreak 1 "00:05:00" 300 "break_1" (UriString "https://ads.example/mid")
               JUndefined JUndefined None).
Proof.
  assert (H : clientSwapSchedule !! 1%nat
              = Some (mkAdBreak 1 "00:05:00" 300 "break_1"
                                (UriString "https://ads.example/mid")
                                JUndefined JUndefined None))
    by (vm_compute; reflexivity).
  split; [exact H|].
  destruct (X22_client_swap_markers_are_trigger_times 596 clientSwapSchedule)
    as (_ & ms & _ & _ & _ & Hrange).
  refine (proj1 (Hrange 1%nat _ 0%Z H _ _)); reflexivity.
Defined.

(* ===================================================================== *)
(** * The two versions of the resolution (X23) *)
(* ===================================================================== *)

Lemma equal_up_to_clickThrough b b' :
  set_clickThrough None b = set_clickThrough None b' ->
  (clickThrough b = clickThrough b' -> b = b') /\ sameTimeline b b'.
Proof.
  destruct b, b'. unfold set_clickThrough, sameTimeline, adDuration. simpl.
  intros [= -> -> -> -> -> -> ->]. split; [now intros ->|]. now repeat split.
Qed.

Lemma resolutions_without_creative breakInfo o s :
  Manager.vastUrl_truthy (vastUrl (Manager.heap s breakInfo)) = false \/
  Resolver.selectCreative o = None ->
  Manager.state (Manager.startAdBreak_resume breakInfo o s) = s /\
  Manager.state (Manager.initializeAdTracking_resume breakInfo o s) = s /\
  List.filter isAnyPixel (Manager.effects (Manager.startAdBreak_resume breakInfo o s)) = [] /\
  List.filter isAnyPixel (Manager.effects (Manager.initializeAdTracking_resume breakInfo o s))
  = [] /\
  Manager.thrown (Manager.startAdBreak_resume breakInfo o s) = None /\
  Manager.thrown (Manager.initializeAdTracking_resume breakInfo o s) = None.
Proof.
  unfold Manager.startAdBreak_resume, Manager.initializeAdTracking_resume.
  intros [H | H].
  - rewrite H. now repeat split.
  - destruct (negb (Manager.vastUrl_truthy (vastUrl (Manager.heap s breakInfo))));
      [now repeat split|].
    rewrite H. destruct o; now repeat split.
Qed.

(** X23.  The class-based reconciler and the function-style player
    resolve metadata alike.  With a break active, the continuation of
    [AdBreakManager.startAdBreak] and that of [initializeAdTracking] leave
    the same flag, pointer, break array and tracker session, send the
    same pixels and raise nothing, and they leave every break object with
    the same fields except possibly [clickThrough]: hence the same
    cumulative durations.  They differ only in the active break's
    [clickThrough] when the creative provides none: the class-based
    version clears it, the function-style version keeps the value the
    break had. *)
Theorem X23_both_versions_resolve_alike :
  forall breakInfo o s cur,
    Manager.currentAdBreak s = Some cur ->
    Manager.isInAdBreak (Manager.state (Manager.startAdBreak_resume breakInfo o s))
    = Manager.isInAdBreak (Manager.state (Manager.initializeAdTracking_resume breakInfo o s)) /\
    Manager.currentAdBreak (Manager.state (Manager.startAdBreak_resume breakInfo o s))
    = Manager.currentAdBreak (Manager.state (Manager.initializeAdTracking_resume breakInfo o s)) /\
    Manager.adBreaks (Manager.state (Manager.startAdBreak_resume breakInfo o s))
    = Manager.adBreaks (Manager.state (Manager.initializeAdTracking_resume breakInfo o s)) /\
    Manager.vastTracker (Manager.state (Manager.startAdBreak_resume breakInfo o s))
    = Manager.vastTracker (Manager.state (Manager.initializeAdTracking_resume breakInfo o s)) /\
    List.filter isAnyPixel (Manager.effects (Manager.startAdBreak_resume breakInfo o s))
    = List.filter isAnyPixel (Manager.effects (Manager.initializeAdTracking_resume breakInfo o s)) /\
    Manager.thrown (Manager.startAdBreak_resume breakInfo o s) = None /\
    Manager.thrown (Manager.initializeAdTracking_resume breakInfo o s) = None /\
    (forall a,
        set_clickThrough None
          (Manager.heap (Manager.state (Manager.startAdBreak_resume breakInfo o s)) a)
        = set_clickThrough None
            (Manager.heap (Manager.state (Manager.initializeAdTracking_resume breakInfo o s))
                          a)) /\
    (forall a,
        a <> cur ->
        Manager.heap (Manager.state (Manager.startAdBreak_resume breakInfo o s)) a
        = Manager.heap (Manager.state (Manager.initializeAdTracking_resume breakInfo o s)) a) /\
    (forall n,
        Manager.getCumulativeAdDuration
          (Manager.state (Manager.startAdBreak_resume breakInfo o s)) n
        = Manager.getCumulativeAdDuration
            (Manager.state (Manager.initializeAdTracking_resume breakInfo o s)) n) /\
    (forall validAd creative,
        Manager.vastUrl_truthy (vastUrl (Manager.heap s breakInfo)) = true ->
        Resolver.selectCreative o = Some (validAd, creative) ->
        clickThrough
          (Manager.heap (Manager.state (Manager.startAdBreak_resume breakInfo o s)) cur)
        = Vast.clickThroughOf (Vast.videoClickThroughURLTemplate creative) /\
        clickThrough
          (Manager.heap (Manager.state (Manager.initializeAdTracking_resume breakInfo o s)) cur)
        = match Vast.clickThroughOf (Vast.videoClickThroughURLTemplate creative) with
          | Some c => Some c
          | None => clickThrough (Manager.heap s cur)
          end).
Proof.
  intros breakInfo o s cur Hcur.
  destruct (Manager.vastUrl_truthy (vastUrl (Manager.heap s breakInfo))) eqn:Hurl;
    [destruct (Resolver.selectCreative o) as [[validAd creative]|] eqn:Hsel|].
  - assert (Hrej : o <> Vast.Rejected) by (intros ->; discriminate).
    destruct (resolutions_agree breakInfo validAd creative o s cur Hcur Hurl Hrej Hsel)
      as (Ht & Hfx & Hth & Hheap).
    destruct (initializeAdTracking_resume_frame breakInfo o s) as ((G1 & G2 & G3 & _) & Hth' & _).
    assert (Hst : Manager.isInAdBreak (Manager.state (Manager.startAdBreak_resume breakInfo o s))
                  = Manager.isInAdBreak s /\
                  Manager.currentAdBreak
                    (Manager.state (Manager.startAdBreak_resume breakInfo o s))
                  = Manager.currentAdBreak s /\
                  Manager.adBreaks (Manager.state (Manager.startAdBreak_resume breakInfo o s))
                  = Manager.adBreaks s).
    { unfold Manager.startAdBreak_resume. rewrite Hurl, Hsel. cbn [negb]. cbv zeta.
      cbn [Manager.currentAdBreak Manager.set_vastTracker]. rewrite Hcur.
      unfold Manager.applyToMasterList.
      destruct (_ =? -1)%Z; [now repeat split|].
      match goal with |- context [match ?x with _ => _ end] => destruct x end;
        now repeat split. }
    destruct Hst as (S1 & S2 & S3).
    split; [congruence|]. split; [congruence|]. split; [congruence|].
    split; [exact Ht|]. split; [now rewrite Hfx|]. split; [exact Hth|].
    split; [exact Hth'|].
    split; [intros a; apply Hheap|]. split; [|split].
    + intros a Ha. destruct (Hheap a) as (E1 & E2 & E3).
      apply (equal_up_to_clickThrough _ _ E1). rewrite E2, E3.
      apply Nat.eqb_neq in Ha. now rewrite Ha.
    + intros n. unfold Manager.getCumulativeAdDuration, Timeline.getCumulativeAdDuration.
      apply cumulativeLoop_sameTimeline. unfold Manager.breaks.
      rewrite S3, G3. apply Forall2_fmap, Forall_Forall2_diag, Forall_forall.
      intros a _. apply equal_up_to_clickThrough, Hheap.
    + intros validAd' creative' _ [= <- <-].
      destruct (Hheap cur) as (_ & E2 & E3). rewrite E2, E3, Nat.eqb_refl. now split.
  - destruct (resolutions_without_creative breakInfo o s (or_intror Hsel))
      as (E1 & E2 & E3 & E4 & E5 & E6).
    rewrite E1, E2, E3, E4.
    do 10 (split; [first [reflexivity | assumption | intros; reflexivity]|]).
    intros ? ? Hu Hs. congruence.
  - destruct (resolutions_without_creative breakInfo o s (or_introl Hurl))
      as (E1 & E2 & E3 & E4 & E5 & E6).
    rewrite E1, E2, E3, E4.
    do 10 (split; [first [reflexivity | assumption | intros; reflexivity]|]).
    intros ? ? Hu Hs. congruence.
Qed.

(** X23, instance: the mid-roll of [prerollMidroll] is active and a
    response with a playable creative arrives. *)
Lemma X23_witness :
  Manager.currentAdBreak (managerWith prerollMidroll (Some 1%nat) None) = Some 1%nat /\
  Manager.vastTracker
    (Manager.state (Manager.startAdBreak_resume 1 (responseWith (JNum 20) (JNum 5))
                      (managerWith prerollMidroll (Some 1%nat) None)))
  = Manager.vastTracker
      (Manager.state (Manager.initializeAdTracking_resume 1 (responseWith (JNum 20) (JNum 5))
                        (managerWith prerollMidroll (Some 1%nat) None))).
Proof.
  split; [reflexivity|].
  exact (proj1 (proj2 (proj2 (proj2
           (X23_both_versions_resolve_alike 1 (responseWith (JNum 20) (JNum 5))
              (managerWith prerollMidroll (Some 1%nat) None) 1%nat eq_refl))))).
Defined.

(* ===================================================================== *)
(** * The function-style player (X24) *)
(* ===================================================================== *)

Lemma observable_app l1 l2 : observable (l1 ++ l2) = observable l1 ++ observable l2.
Proof. unfold observable. apply List.filter_app. Qed.

Lemma detectAdPlayback_unfold t s :
  FunctionStyle.detectAdPlayback true t s
  = match Manager.adBreaks s with
    | [] => Manager.mkResult s [] None
    | _ :: _ =>
        match Manager.detectActiveBreak s t, Manager.isInAdBreak s with
        | Some (_, activeBreak), false => FunctionStyle.startAdBreak activeBreak s
        | None, true => FunctionStyle.endAdBreak s
        | Some _, true =>
            match Manager.currentAdBreak s with
            | Some cur =>
                FunctionStyle.updateAdProgress
                  (t - (timeInSeconds (Manager.heap s cur)
                        + Manager.getCumulativeAdDuration s
                            (Timeline.findIndexById (Manager.breaks s)
                                                    (breakId (Manager.heap s cur))))) s
            | None => Manager.mkResult s [] None
            end
        | None, false => Manager.mkResult s [] None
        end
    end.
Proof. reflexivity. Qed.

Lemma functionStyle_step op s :
  isSynchronousOp op = true ->
  exists r,
    FunctionStyle.exec op s = Some r /\
    Manager.state r = Manager.state (Manager.exec op s) /\
    observable (Manager.effects r) = observable (Manager.effects (Manager.exec op s)) /\
    Manager.thrown r = None /\ Manager.thrown (Manager.exec op s) = None.
Proof.
  intros Hop. destruct op as [refs | t | b | b o | | e | p |]; try discriminate;
    eexists; (split; [reflexivity|]); simpl.
  - now repeat split.
  - rewrite detectAdPlayback_unfold. unfold Manager.update.
    destruct (Manager.adBreaks s) eqn:El; [now repeat split|].
    destruct (Manager.detectActiveBreak s t) as [[i r]|], (Manager.isInAdBreak s).
    + destruct (Manager.currentAdBreak s) eqn:Ec; [|now repeat split].
      unfold FunctionStyle.updateAdProgress, Manager.updateProgress, Manager.tracker_event.
      rewrite Ec. destruct (Manager.vastTracker s); now repeat split.
    + unfold FunctionStyle.startAdBreak, Manager.startAdBreak. simpl.
      destruct (Manager.vastUrl_truthy (vastUrl (Manager.heap s r))); now repeat split.
    + unfold FunctionStyle.endAdBreak, Manager.endAdBreak, Manager.tracker_event.
      destruct (Manager.vastTracker s); now repeat split.
    + now repeat split.
  - unfold FunctionStyle.startAdBreak, Manager.startAdBreak. simpl.
    destruct (Manager.vastUrl_truthy (vastUrl (Manager.heap s b))); now repeat split.
  - unfold FunctionStyle.endAdBreak, Manager.endAdBreak, Manager.tracker_event.
    destruct (Manager.vastTracker s); now repeat split.
  - unfold FunctionStyle.updateAdProgress, Manager.updateProgress, Manager.tracker_event.
    destruct (Manager.currentAdBreak s); [|now repeat split].
    destruct (Manager.vastTracker s); now repeat split.
  - unfold FunctionStyle.skipAd, Manager.skipCurrentAd, Manager.tracker_event.
    destruct (Manager.currentAdBreak s), p, (Manager.vastTracker s); now repeat split.
Qed.

Lemma functionStyle_run ops : forall s,
  forallb isSynchronousOp ops = true ->
  exists fx,
    FunctionStyle.run ops s = Some (Manager.run ops s, fx) /\
    observable fx = observable (trace ops s).
Proof.
  induction ops as [|op ops IH]; intros s Hops; simpl.
  - exists []. now split.
  - simpl in Hops. apply andb_true_iff in Hops. destruct Hops as [Hop Hops].
    destruct (functionStyle_step op s Hop) as (r & Hr & Hs & Hfx & _).
    rewrite Hr, Hs. destruct (IH (Manager.state (Manager.exec op s)) Hops) as (fx & Hrun & Hobs).
    rewrite Hrun. eexists. split; [reflexivity|].
    now rewrite !observable_app, Hfx, Hobs.
Qed.

(** X24.  The function-style player and the class-based reconciler agree
    on every synchronous operation.  For [setAdBreaks], the clock update
    ([detectAdPlayback] / [update]), [startAdBreak], [endAdBreak], the
    progress update and the skip, both reach the same state from the same
    state, raise nothing, and do the same to overlay, network, tracker
    and player (they differ in console output, and only the class-based
    version goes through an emitter object); hence they agree along every
    sequence of such operations.  The metadata resolution is compared
    separately, and [reset] has no counterpart in the function-style
    player. *)
Theorem X24_function_style_player_agrees_with_the_reconciler :
  (forall op s,
      isSynchronousOp op = true ->
      exists r,
        FunctionStyle.exec op s = Some r /\
        Manager.state r = Manager.state (Manager.exec op s) /\
        observable (Manager.effects r) = observable (Manager.effects (Manager.exec op s)) /\
        Manager.thrown r = None /\ Manager.thrown (Manager.exec op s) = None) /\
  (forall ops s,
      forallb isSynchronousOp ops = true ->
      exists fx,
        FunctionStyle.run ops s = Some (Manager.run ops s, fx) /\
        observable fx = observable (trace ops s)).
Proof.
  split; [apply functionStyle_step | intros; now apply functionStyle_run].
Qed.

(** X24, instance: the pre-roll of [prerollMidroll] is entered, skipped
    and left. *)
Lemma X24_witness :
  forallb isSynchronousOp
          [Manager.OUpdate 10; Manager.OSkipCurrentAd true; Manager.OUpdate 30] = true /\
  exists fx,
    FunctionStyle.run [Manager.OUpdate 10; Manager.OSkipCurrentAd true; Manager.OUpdate 30]
                      (managerWith prerollMidroll None None)
    = Some (Manager.run [Manager.OUpdate 10; Manager.OSkipCurrentAd true; Manager.OUpdate 30]
                        (managerWith prerollMidroll None None), fx) /\
    observable fx
    = observable (trace [Manager.OUpdate 10; Manager.OSkipCurrentAd true; Manager.OUpdate 30]
                        (managerWith prerollMidroll None None)).
Proof.
  split; [reflexivity|].
  exact (proj2 X24_function_style_player_agrees_with_the_reconciler
               [Manager.OUpdate 10; Manager.OSkipCurrentAd true; Manager.OUpdate 30]
               (managerWith prerollMidroll None None) eq_refl).
Defined.
